(** * Adventure Outfitters customer-service agent: slot filling and
      conversation memory

    A shallow embedding of
    - [src/memory/manage.py]              (class [StateManager], the slot store),
    - [src/agents/delegates/order_status.py] (class [OrderStatusAgent]),
    - [src/memory/conversation.py]        (class [ConversationMemory]),
    - [src/agents/coordinator.py]         (routing and the key info kept),
    - [src/agents/delegates/product_recommendation.py] (the look-ups),
    - [src/agents/delegates/early_risers_promotion.py],
    together with the properties the specification states about them and
    further properties of the code.

    Conventions of the model.
    - A Python [str] is a [string]; the character classes of [re] and of the
      [str] methods ([\d], [\w], [\b], [isdigit], [split], [lower], [title])
      are taken on ASCII characters.
    - A value that is either a [str] or [None] is an [option string]; its
      truth value is Python's (a non-empty string).
    - A method of an object with mutable attributes takes the attributes and
      returns them; an exception is a result [Raise]. *)

From Stdlib Require Import Ascii String DecimalString Sorted.
From stdpp Require Import gmap strings list.

Local Open Scope string_scope.
Local Open Scope list_scope.

(** ** Python strings *)

Module PyStr.

Definition code (c : ascii) : nat := nat_of_ascii c.

Definition in_range (lo hi : nat) (c : ascii) : bool :=
  (lo <=? code c)%nat && (code c <=? hi)%nat.

Definition is_digit (c : ascii) : bool := in_range 48 57 c.
Definition is_upper (c : ascii) : bool := in_range 65 90 c.
Definition is_lower (c : ascii) : bool := in_range 97 122 c.
Definition is_alpha (c : ascii) : bool := is_upper c || is_lower c.
Definition is_alnum (c : ascii) : bool := is_alpha c || is_digit c.

(** [\w] *)
Definition is_word (c : ascii) : bool := is_alnum c || Ascii.eqb c "_".

(** the separators of [str.split()] and [str.strip()] *)
Definition is_space (c : ascii) : bool :=
  in_range 9 13 c || in_range 28 32 c.

Definition lower_char (c : ascii) : ascii :=
  if is_upper c then ascii_of_nat (code c + 32) else c.
Definition upper_char (c : ascii) : ascii :=
  if is_lower c then ascii_of_nat (code c - 32) else c.

Fixpoint all_chars (p : ascii -> bool) (s : string) : bool :=
  match s with
  | EmptyString => true
  | String c s' => p c && all_chars p s'
  end.

Fixpoint any_char (p : ascii -> bool) (s : string) : bool :=
  match s with
  | EmptyString => false
  | String c s' => p c || any_char p s'
  end.

Fixpoint map_chars (f : ascii -> ascii) (s : string) : string :=
  match s with
  | EmptyString => EmptyString
  | String c s' => String (f c) (map_chars f s')
  end.

(** [s.lower()] *)
Definition lower (s : string) : string := map_chars lower_char s.

(** [s.title()]: a letter that follows a letter is lowered, any other
    letter is raised. *)
Fixpoint title_from (after_letter : bool) (s : string) : string :=
  match s with
  | EmptyString => EmptyString
  | String c s' =>
      String (if after_letter then lower_char c else upper_char c)
             (title_from (is_alpha c) s')
  end.
Definition title (s : string) : string := title_from false s.

(** [s.startswith(p)] *)
Fixpoint startswith (p s : string) : bool :=
  match p, s with
  | EmptyString, _ => true
  | String a p', String b s' => Ascii.eqb a b && startswith p' s'
  | String _ _, EmptyString => false
  end.

(** [sub in s] *)
Fixpoint str_in (sub s : string) : bool :=
  startswith sub s ||
  match s with
  | EmptyString => false
  | String _ s' => str_in sub s'
  end.

Fixpoint rev_onto (s acc : string) : string :=
  match s with
  | EmptyString => acc
  | String c s' => rev_onto s' (String c acc)
  end.
Definition rev (s : string) : string := rev_onto s EmptyString.

(** [s.endswith(p)] *)
Definition endswith (p s : string) : bool := startswith (rev p) (rev s).

Fixpoint lstrip (s : string) : string :=
  match s with
  | String c s' => if is_space c then lstrip s' else s
  | EmptyString => EmptyString
  end.
Definition rstrip (s : string) : string := rev (lstrip (rev s)).

(** [s.strip()] *)
Definition strip (s : string) : string := rstrip (lstrip s).

(** [s.isdigit()] *)
Definition isdigit (s : string) : bool :=
  match s with
  | EmptyString => false
  | _ => all_chars is_digit s
  end.

(** [s.split()]: the maximal runs of characters that are not separators.
    [cur] is the run being read, in reverse. *)
Fixpoint split_from (cur : string) (s : string) : list string :=
  match s with
  | EmptyString =>
      match cur with EmptyString => [] | _ => [rev cur] end
  | String c s' =>
      if is_space c
      then match cur with
           | EmptyString => split_from EmptyString s'
           | _ => rev cur :: split_from EmptyString s'
           end
      else split_from (String c cur) s'
  end.
Definition split (s : string) : list string := split_from EmptyString s.

(** [sep.join(l)] *)
Fixpoint join (sep : string) (l : list string) : string :=
  match l with
  | [] => EmptyString
  | [x] => x
  | x :: l' => x +:+ sep +:+ join sep l'
  end.

Definition nl : string := String (ascii_of_nat 10) EmptyString.

End PyStr.

(** ** The fragment of [re] the agent uses

    A pattern is a sequence of atoms: one character of a class, a greedy
    repetition [p{n,}] of a class, or the word boundary [\b].  [search]
    returns the text of the leftmost match, the repetitions taking as much
    as the rest of the pattern allows. *)

Module Re.
Import PyStr.

Inductive atom : Type :=
| Chr (p : ascii -> bool)
| Rep (p : ascii -> bool) (n : nat)
| WordB.

Definition word_opt (c : option ascii) : bool :=
  match c with Some c => is_word c | None => false end.

Definition first_char (s : string) : option ascii :=
  match s with String c _ => Some c | EmptyString => None end.

Definition at_boundary (prev : option ascii) (s : string) : bool :=
  xorb (word_opt prev) (word_opt (first_char s)).

Definition cons_match (c : ascii) (m : option string) : option string :=
  match m with Some t => Some (String c t) | None => None end.

(** [p{n,}] followed by the rest of the pattern [k]: the longest run
    first, a shorter one when the rest does not match after it. *)
Fixpoint rep (p : ascii -> bool)
  (k : option ascii -> string -> option string)
  (n : nat) (prev : option ascii) (s : string) {struct s} : option string :=
  let stop := match n with O => k prev s | S _ => None end in
  match s with
  | String c s' =>
      if p c
      then match cons_match c (rep p k (Nat.pred n) (Some c) s') with
           | Some m => Some m
           | None => stop
           end
      else stop
  | EmptyString => stop
  end.

Fixpoint match_here (r : list atom) (prev : option ascii) (s : string)
  : option string :=
  match r with
  | [] => Some EmptyString
  | Chr p :: r' =>
      match s with
      | String c s' =>
          if p c then cons_match c (match_here r' (Some c) s') else None
      | EmptyString => None
      end
  | WordB :: r' =>
      if at_boundary prev s then match_here r' prev s else None
  | Rep p n :: r' => rep p (match_here r') n prev s
  end.

Fixpoint search_from (r : list atom) (prev : option ascii) (s : string)
  : option string :=
  match match_here r prev s with
  | Some m => Some m
  | None =>
      match s with
      | String c s' => search_from r (Some c) s'
      | EmptyString => None
      end
  end.

(** [re.search(r, s)], then [.group()] *)
Definition search (r : list atom) (s : string) : option string :=
  search_from r None s.

Definition lit (c : ascii) : atom := Chr (Ascii.eqb c).

End Re.

(** ** Exceptions and Python values *)

Module Py.

Inductive exn : Type :=
| ValueError | AttributeError | KeyError | JSONDecodeError | RuntimeError.

Inductive outcome (A : Type) : Type :=
| Ok (a : A)
| Raise (e : exn).
Arguments Ok {A} a.
Arguments Raise {A} e.

(** a [str] or [None] *)
Definition pyval : Type := option string.

Definition truthy (v : pyval) : bool :=
  match v with
  | Some (String _ _) => true
  | _ => false
  end.

(** [a or b] *)
Definition py_or (a b : pyval) : pyval := if truthy a then a else b.

(** the text of [v] inside an f-string *)
Definition fmt (v : pyval) : string :=
  match v with Some s => s | None => "None" end.

(** [d.get(key)] on a dict kept in insertion order *)
Fixpoint dict_get {A : Type} (key : string) (d : list (string * A))
  : option A :=
  match d with
  | [] => None
  | (k, v) :: d' => if String.eqb k key then Some v else dict_get key d'
  end.

(** [d[key] = value] *)
Fixpoint dict_set {A : Type} (key : string) (value : A)
  (d : list (string * A)) : list (string * A) :=
  match d with
  | [] => [(key, value)]
  | (k, v) :: d' =>
      if String.eqb k key then (k, value) :: d'
      else (k, v) :: dict_set key value d'
  end.

(** [d.get(key)] where the values are strings or [None] *)
Definition py_get (key : string) (d : list (string * pyval)) : pyval :=
  match dict_get key d with Some v => v | None => None end.

End Py.

(** ** [StateManager] (src/memory/manage.py): the slot store *)

Module StateManager.
Import PyStr Py.

Record t : Type := mk {
  _state : list (string * pyval);
  _state_md : option string
}.

(** [__init__] *)
Definition init : t := {| _state := []; _state_md := None |}.

(** [to_markdown], for values that are not dicts *)
Fixpoint markdown_of (d : list (string * pyval)) : string :=
  match d with
  | [] => EmptyString
  | (key, value) :: d' =>
      ("### " +:+ key +:+ nl) +:+ (nl +:+ fmt value +:+ nl) +:+ nl
      +:+ markdown_of d'
  end.
Definition to_markdown (sm : t) : string := markdown_of (_state sm).

(** [add_entry] *)
Definition add_entry (key : string) (value : pyval) (sm : t) : outcome t :=
  match key with
  | EmptyString => Raise ValueError
  | _ =>
      let st := dict_set key value (_state sm) in
      Ok {| _state := st; _state_md := Some (markdown_of st) |}
  end.

(** [get_value] *)
Definition get_value (key : string) (sm : t) : pyval :=
  py_get key (_state sm).

(** [clear_state] *)
Definition clear_state (sm : t) : t :=
  {| _state := []; _state_md := None |}.

End StateManager.

(** ** [OrderStatusAgent] (src/agents/delegates/order_status.py) *)

Module OrderStatus.
Import PyStr Re Py.

(** An entry of [data/customer_orders.json]; [Email] and [OrderNumber]
    are [""] when the entry lacks them, as [order.get(_, "")] reads them,
    and [Status], [TrackingNumber] and [CustomerName] are [None]. *)
Record order : Type := {
  Email : string;
  OrderNumber : string;
  Status : option string;
  TrackingNumber : pyval;
  CustomerName : option string;
  ProductsOrdered : list string
}.

(** A value of [Message.metadata]: the intent, a string, or the entities,
    a dict whose values are strings or [None]. *)
Inductive meta : Type :=
| MStr (s : string)
| MDict (d : list (string * pyval)).

(** [Message] (src/common/message.py) *)
Record Message : Type := {
  content : string;
  sender : string;
  recipient : string;
  metadata : list (string * meta)
}.

(** What [llm_adapter.chat] does when it is called: it raises, or returns
    a dict whose ["success"] is true or not and that has a ["content"]
    or not. *)
Inductive chat_result : Type :=
| ChatRaise
| ChatReply (success : bool) (content : option string).

(** The calls the agent makes on its collaborators, in order: the lookup
    of [find_order] and its result, [clear_state], [add_entry], and
    [extract_order_info].  The log is kept beside the state manager so that
    the properties can speak of the calls of a turn. *)
Inductive event : Type :=
| Lookup (email order_number : pyval) (found : option order)
| Clear
| Store (key : string) (value : pyval)
| Extract (query : string).

Record world : Type := {
  state_manager : StateManager.t;
  calls : list event
}.

Definition M (A : Type) : Type := world -> outcome A * world.

Definition ret {A : Type} (a : A) : M A := fun w => (Ok a, w).
Definition raise {A : Type} (e : exn) : M A := fun w => (Raise e, w).
Definition bind {A B : Type} (m : M A) (k : A -> M B) : M B :=
  fun w =>
    match m w with
    | (Ok a, w') => k a w'
    | (Raise e, w') => (Raise e, w')
    end.
(** [try: m except ...: h], for the exceptions [handles] accepts *)
Definition catch {A : Type} (handles : exn -> bool) (m : M A) (h : M A)
  : M A :=
  fun w =>
    match m w with
    | (Ok a, w') => (Ok a, w')
    | (Raise e, w') => if handles e then h w' else (Raise e, w')
    end.
Definition emit (ev : event) : M unit :=
  fun w =>
    (Ok tt, {| state_manager := state_manager w; calls := calls w ++ [ev] |}).

Notation "'call' x <- m ;; k" := (bind m (fun x => k))
  (at level 10, x name, m at level 99, k at level 200).
Notation "'exec' m ;; k" := (bind m (fun _ => k))
  (at level 10, m at level 99, k at level 200).

Definition any_exception (e : exn) : bool := true.
Definition json_or_key_error (e : exn) : bool :=
  match e with JSONDecodeError | KeyError => true | _ => false end.

(** *** The state manager, as the agent calls it *)

Definition get_value (key : string) : M pyval :=
  fun w => (Ok (StateManager.get_value key (state_manager w)), w).

Definition add_entry (key : string) (value : pyval) : M unit :=
  fun w =>
    match StateManager.add_entry key value (state_manager w) with
    | Ok sm =>
        (Ok tt, {| state_manager := sm;
                   calls := calls w ++ [Store key value] |})
    | Raise e => (Raise e, w)
    end.

Definition clear_state : M unit :=
  fun w =>
    (Ok tt, {| state_manager := StateManager.clear_state (state_manager w);
               calls := calls w ++ [Clear] |}).

(** *** The patterns *)

Definition one_of (cs : string) (c : ascii) : bool :=
  any_char (Ascii.eqb c) cs.

(** [r"\b[A-Za-z0-9._%+-]+@[A-Za-z0-9.-]+\.[A-Z|a-z]{2,}\b"] *)
Definition email_pattern : list atom :=
  [ WordB;
    Rep (fun c => is_alnum c || one_of "._%+-" c) 1;
    lit "@";
    Rep (fun c => is_alnum c || one_of ".-" c) 1;
    lit ".";
    Rep (fun c => is_alpha c || one_of "|" c) 2;
    WordB ].

(** [r"#W\d+"] *)
Definition order_pattern_hash : list atom :=
  [ lit "#"; lit "W"; Rep is_digit 1 ].

(** [r"\bW\d+\b"] *)
Definition order_pattern_bare : list atom :=
  [ WordB; lit "W"; Rep is_digit 1; WordB ].

(** [r"\{.*\}"] with [re.DOTALL] *)
Definition json_pattern : list atom :=
  [ lit "{"; Rep (fun _ => true) 0; lit "}" ].

(** [extract_email_from_text] *)
Definition extract_email_from_text (text : string) : pyval :=
  search email_pattern text.

(** [extract_order_number_from_text] *)
Definition extract_order_number_from_text (text : string) : pyval :=
  match search order_pattern_hash text with
  | Some m => Some m
  | None =>
      match search order_pattern_bare text with
      | Some m => Some ("#" +:+ m)
      | None => None
      end
  end.

Definition mountain : string := "🏔️".
Definition star : string := "🌟".

Section Agent.

(** [self.name], [self.orders_data], and [json.loads] on the texts that
    are a JSON object with string or null members ([None]: it raises
    [JSONDecodeError]). *)
Variable name : string.
Variable orders_data : list order.
Variable json_loads : string -> option (list (string * pyval)).

Definition reply_with (text : string) : Message :=
  {| content := text; sender := name;
     recipient := "AdventureOutfittersAgent"; metadata := [] |}.

(** the loop of [find_order] *)
Fixpoint find_in (orders : list order) (email order_number : pyval)
  : outcome (option order) :=
  match orders with
  | [] => Ok None
  | o :: rest =>
      match email with
      | None => Raise AttributeError
      | Some e =>
          if String.eqb (lower (Email o)) (lower e)
             && bool_decide (Some (OrderNumber o) = order_number)
          then Ok (Some o)
          else find_in rest email order_number
      end
  end.

(** [find_order] *)
Definition find_order (email order_number : pyval) : M (option order) :=
  fun w =>
    match find_in orders_data email order_number with
    | Ok found =>
        (Ok found,
         {| state_manager := state_manager w;
            calls := calls w ++ [Lookup email order_number found] |})
    | Raise e => (Raise e, w)
    end.

Definition item (v : option string) : M string :=
  match v with Some s => ret s | None => raise KeyError end.

Definition loads (text : string) : M (list (string * pyval)) :=
  match json_loads text with
  | Some d => ret d
  | None => raise JSONDecodeError
  end.

Definition email_and_order (out_dict : list (string * pyval))
  : pyval * pyval :=
  (py_get "email" out_dict, py_get "order_number" out_dict).

(** [extract_order_info]; [reply] is what the model call of this turn
    does. *)
Definition extract_order_info (query : string) (reply : chat_result)
  : M (pyval * pyval) :=
  catch any_exception
    (exec emit (Extract query) ;;
     match reply with
     | ChatRaise => raise RuntimeError
     | ChatReply success response_content =>
         if success then
           catch json_or_key_error
             (call response_text <- item response_content ;;
              if startswith "{" response_text
                 && endswith "}" response_text
              then
                (call out_dict <- loads response_text ;;
                 ret (email_and_order out_dict))
              else
                match search json_pattern response_text with
                | Some json_match =>
                    (call out_dict <- loads json_match ;;
                     ret (email_and_order out_dict))
                | None => ret (None, None)
                end)
             (ret (None, None))
         else ret (None, None)
     end)
    (ret (None, None)).

Definition not_found_msg (email order_number : pyval) : string :=
  mountain +:+ " I couldn't find order **" +:+ fmt order_number
  +:+ "** for `" +:+ fmt email +:+ "` in our system. "
  +:+ nl +:+ nl
  +:+ "Could you double-check your order number? Our order numbers typically "
  +:+ "look like #W001, #W002, etc. You can also try a different email if you "
  +:+ "used multiple addresses." +:+ nl +:+ nl
  +:+ "Onward into the unknown! " +:+ star.

Definition status_message (o : order) (email order_number : pyval)
  : string :=
  let status := default "unknown" (Status o) in
  let tracking_number := TrackingNumber o in
  let customer_name := default "valued customer" (CustomerName o) in
  let products := ProductsOrdered o in
  let tracking_info :=
    if truthy tracking_number
    then nl +:+ "📦 Track your package: "
         +:+ "https://tools.usps.com/go/TrackConfirmAction?tLabels="
         +:+ fmt tracking_number
    else "" in
  (mountain +:+ " Hello " +:+ customer_name
     +:+ "! Here's your order status:" +:+ nl +:+ nl)
  +:+ ("📋 Order: " +:+ fmt order_number +:+ nl)
  +:+ ("📧 Email: " +:+ fmt email +:+ nl)
  +:+ ("🎒 Products: " +:+ join ", " products +:+ nl)
  +:+ ("📊 Status: " +:+ title status +:+ nl)
  +:+ (if truthy tracking_number
       then ("🚚 Tracking: " +:+ fmt tracking_number) +:+ tracking_info
       else "")
  +:+ (nl +:+ nl +:+ star
       +:+ " Thanks for choosing Adventure Outfitters! Onward into the unknown! "
       +:+ mountain).

(** [_generate_order_response] *)
Definition _generate_order_response (email order_number : pyval)
  : M Message :=
  call found <- find_order email order_number ;;
  match found with
  | None => ret (reply_with (not_found_msg email order_number))
  | Some o =>
      (exec clear_state ;;
       ret (reply_with (status_message o email order_number)))
  end.

Definition email_msg (email_from_current : pyval) : string :=
  mountain +:+ " Got it! I have your email: " +:+ fmt email_from_current
  +:+ ". Now I need "
  +:+ "your order number (like #W001, #W002, etc.) to find your gear! "
  +:+ star.

Definition order_msg (order_from_current : pyval) : string :=
  mountain +:+ " Perfect! I have your order number: "
  +:+ fmt order_from_current +:+ ". "
  +:+ "Now I need the email address associated with this order. " +:+ star.

Definition invalid_order_msg (stored_email : pyval) : string :=
  mountain +:+ " I have your email (" +:+ fmt stored_email
  +:+ ") but that doesn't look like "
  +:+ "one of our order numbers. Our order numbers start with 'W' and look "
  +:+ "like #W001, #W002, etc. Could you check your order confirmation email "
  +:+ "for the correct format? " +:+ star.

Definition email_needed_msg (stored_order : pyval) : string :=
  mountain +:+ " I have your order number (" +:+ fmt stored_order
  +:+ ") but I need a valid "
  +:+ "email address to look up your order. Could you provide the email "
  +:+ "you used when placing the order? " +:+ star.

Definition instructions_msg : string :=
  mountain +:+ " To check your order status, I need your email address and order "
  +:+ "number. You can say something like: 'Check order #W001 for "
  +:+ "john.doe@example.com' " +:+ star.

Definition missing_email_msg (final_order : pyval) : string :=
  mountain +:+ " I have your order number (" +:+ fmt final_order
  +:+ ") but I still need "
  +:+ "your email address. What email did you use for this order? " +:+ star.

Definition missing_order_msg (final_email : pyval) : string :=
  mountain +:+ " I have your email (" +:+ fmt final_email
  +:+ ") but I still need your "
  +:+ "order number. What's your order number? " +:+ star.

Definition lookup_error_msg : string :=
  mountain +:+ " I encountered an issue while looking up your order. Please try "
  +:+ "again or contact our support team. Onward into the unknown! " +:+ star.

(** [message.metadata.get("entities", {})] *)
Definition entities_of (message : Message) : M (list (string * pyval)) :=
  match dict_get "entities" (metadata message) with
  | None => ret []
  | Some (MDict d) => ret d
  | Some (MStr _) => raise AttributeError
  end.

(** the [missing_info] list and the three messages chosen from it *)
Definition missing_reply (final_email final_order : pyval) : Message :=
  let missing_info :=
    (if truthy final_email then [] else ["email address"])
    ++ (if truthy final_order then [] else ["order number"]) in
  if (length missing_info =? 2)%nat then reply_with instructions_msg
  else if bool_decide ("email address" ∈ missing_info)
  then reply_with (missing_email_msg final_order)
  else reply_with (missing_order_msg final_email).

(** the body of the [try] of [process] *)
Definition process_try (message : Message) (reply : chat_result)
  : M Message :=
  let query := content message in
  call entities <- entities_of message ;;
  let email_from_entities := py_get "Email" entities in
  let order_from_entities := py_get "OrderNumber" entities in
  let email_from_text := extract_email_from_text query in
  let order_from_text := extract_order_number_from_text query in
  let email_from_current := py_or email_from_entities email_from_text in
  let order_from_current := py_or order_from_entities order_from_text in
  call stored_email <- get_value "email" ;;
  call stored_order <- get_value "order_number" ;;
  if truthy email_from_current && truthy order_from_current then
    _generate_order_response email_from_current order_from_current
  else if truthy stored_email && truthy order_from_current then
    _generate_order_response stored_email order_from_current
  else if truthy stored_order && truthy email_from_current then
    _generate_order_response email_from_current stored_order
  else if truthy email_from_current && negb (truthy order_from_current)
          && str_in "@" query && (length (split query) =? 1)%nat then
    (exec add_entry "email" email_from_current ;;
     ret (reply_with (email_msg email_from_current)))
  else if truthy order_from_current && negb (truthy email_from_current)
  then
    (exec add_entry "order_number" order_from_current ;;
     ret (reply_with (order_msg order_from_current)))
  else if (truthy stored_email && negb (truthy order_from_current)
           && negb (truthy email_from_current))
          && (isdigit (strip query) || any_char is_digit query) then
    ret (reply_with (invalid_order_msg stored_email))
  else if truthy stored_order && negb (truthy email_from_current)
          && negb (truthy order_from_current) then
    ret (reply_with (email_needed_msg stored_order))
  else
    call current <-
      (if negb (truthy email_from_current)
          && negb (truthy order_from_current)
       then
         (call extracted <- extract_order_info query reply ;;
          ret (py_or email_from_current (fst extracted),
               py_or order_from_current (snd extracted)))
       else ret (email_from_current, order_from_current)) ;;
    let final_email := py_or (fst current) stored_email in
    let final_order := py_or (snd current) stored_order in
    if truthy final_email && truthy final_order then
      _generate_order_response final_email final_order
    else ret (missing_reply final_email final_order).

(** [process]: the [try] and its [except Exception] *)
Definition process (message : Message) (reply : chat_result) (w : world)
  : Message * world :=
  match process_try message reply w with
  | (Ok response, w') => (response, w')
  | (Raise _, w') => (reply_with lookup_error_msg, w')
  end.

End Agent.

End OrderStatus.

(** ** [ConversationMemory] (src/memory/conversation.py) *)

Module ConversationMemory.
Import PyStr.

(** The values of the dicts the memory is given and keeps. *)
#[warnings="-register-all"]
Inductive value : Type :=
| VNone
| VStr (s : string)
| VList (l : list value)
| VDict (d : list (string * value)).

Definition truthy (v : value) : bool :=
  match v with
  | VNone | VStr EmptyString | VList [] | VDict [] => false
  | _ => true
  end.

(** [d.get(key)] and [d.get(key, dflt)] *)
Definition get (d : gmap string value) (key : string) : value :=
  default VNone (d !! key).
Definition get_or (d : gmap string value) (key : string) (dflt : value)
  : value :=
  default dflt (d !! key).

(** the truth value of a dict *)
Definition nonempty (d : gmap string value) : bool :=
  bool_decide (d ≠ ∅).

Record interaction : Type := {
  timestamp : string;
  intent : string;
  query : string;
  entities : gmap string value;
  agent_used : string;
  key_info : gmap string value
}.

Record t : Type := {
  _conversation_context : gmap string value;
  _recent_interactions : list interaction
}.

Definition _max_recent_interactions : nat := 5.

(** [__init__] *)
Definition init : t :=
  {| _conversation_context := ∅; _recent_interactions := [] |}.

(** [l[-n:]], for [n] positive *)
Definition last_n {A : Type} (n : nat) (l : list A) : list A :=
  drop (length l - n) l.

Definition order_info (i : interaction) : value :=
  VDict [ ("order_number", get (key_info i) "order_number");
          ("customer_name", get (key_info i) "customer_name");
          ("products", get_or (key_info i) "products" (VList []));
          ("status", get (key_info i) "status");
          ("last_checked", VStr (timestamp i)) ].

(** [_update_context], on the context dict *)
Definition _update_context (i : interaction) (ctx : gmap string value)
  : gmap string value :=
  let ctx :=
    if truthy (get (entities i) "Email")
    then <["customer_email" := get (entities i) "Email"]> ctx
    else ctx in
  if String.eqb (intent i) "ORDER_STATUS" && nonempty (key_info i) then
    let ctx := <["last_order_lookup" := order_info i]> ctx in
    if truthy (get (key_info i) "products")
    then <["recent_products" := get (key_info i) "products"]> ctx
    else ctx
  else if String.eqb (intent i) "PRODUCT_RECOMMENDATION"
          && nonempty (key_info i) then
    if truthy (get (key_info i) "products_mentioned")
    then <["recent_products" := get (key_info i) "products_mentioned"]> ctx
    else ctx
  else if String.eqb (intent i) "EARLY_RISERS_PROMOTION"
          && nonempty (key_info i) then
    if truthy (get (key_info i) "promo_code")
    then <["last_promo_code" := get (key_info i) "promo_code"]> ctx
    else ctx
  else ctx.

(** the dict [add_interaction] builds; [now] is
    [datetime.now().isoformat()] and [info] the optional [key_info] *)
Definition new_interaction (now intent query : string)
  (entities : gmap string value) (agent_used : string)
  (info : option (gmap string value)) : interaction :=
  {| timestamp := now; intent := intent; query := query;
     entities := entities; agent_used := agent_used;
     key_info := default ∅ info |}.

(** [add_interaction], from the dict on *)
Definition record (i : interaction) (m : t) : t :=
  let appended := _recent_interactions m ++ [i] in
  let kept :=
    if (_max_recent_interactions <? length appended)%nat
    then last_n _max_recent_interactions appended
    else appended in
  {| _conversation_context := _update_context i (_conversation_context m);
     _recent_interactions := kept |}.

(** [add_interaction] *)
Definition add_interaction (now intent query : string)
  (entities : gmap string value) (agent_used : string)
  (info : option (gmap string value)) (m : t) : t :=
  record (new_interaction now intent query entities agent_used info) m.

Definition order_reference_keywords : list string :=
  [ "that order"; "my order"; "the order"; "this order"; "those products";
    "these products"; "the products"; "my products"; "what are those";
    "what are these"; "tell me about"; "more about" ].

Definition product_reference_keywords : list string :=
  [ "those products"; "these products"; "the products"; "what are those";
    "what are these"; "tell me about them"; "more details"; "more info";
    "describe them" ].

(** [_is_order_reference] *)
Definition _is_order_reference (query : string) : bool :=
  let query_lower := lower query in
  existsb (fun keyword => str_in keyword query_lower)
          order_reference_keywords.

(** [_is_product_reference] *)
Definition _is_product_reference (query : string) : bool :=
  let query_lower := lower query in
  existsb (fun keyword => str_in keyword query_lower)
          product_reference_keywords.

Section Reading.

(** the text of a value inside an f-string *)
Variable str_of : value -> string.

Definition summary_parts (i : interaction) : list string :=
  let key_info := key_info i in
  (if String.eqb (intent i) "ORDER_STATUS" then
     if truthy (get_or key_info "order_number" (VStr ""))
     then [ "Looked up order " +:+ str_of (get key_info "order_number")
            +:+ " with products "
            +:+ str_of (get_or key_info "products" (VList [])) ]
     else []
   else if String.eqb (intent i) "PRODUCT_RECOMMENDATION" then
     [ "Provided product recommendations about "
       +:+ str_of (get_or key_info "products_mentioned" (VList [])) ]
   else if String.eqb (intent i) "EARLY_RISERS_PROMOTION" then
     [ "Provided Early Risers promotion code "
       +:+ str_of (get_or key_info "promo_code" (VStr "")) ]
   else if String.eqb (intent i) "WHO_ARE_YOU" then
     [ "Provided a brief introduction about Adventure Outfitters" ]
   else
     [ "No relevant intent was detected. Asked the user to clarify and reiterated about the capabilities of the agent" ])
  ++ (if truthy (get key_info "entities")
      then [ "Entities that were extracted from the user query: "
             +:+ str_of (get_or key_info "entities" (VList [])) ]
      else []).

(** [_get_recent_summary] *)
Definition _get_recent_summary (m : t) : string :=
  match _recent_interactions m with
  | [] => ""
  | _ =>
      join "; "
        (concat (map summary_parts (last_n 3 (_recent_interactions m))))
  end.

(** [get_contextual_info]: the dict it returns, and the memory after
    the call *)
Definition get_contextual_info (current_query : string) (m : t)
  : gmap string value * t :=
  let ctx := _conversation_context m in
  let context : gmap string value := ∅ in
  let context :=
    if _is_order_reference current_query then
      match ctx !! "last_order_lookup" with
      | Some v => <["referenced_order" := v]> context
      | None => context
      end
    else context in
  let context :=
    if _is_product_reference current_query then
      match ctx !! "recent_products" with
      | Some v => <["referenced_products" := v]> context
      | None => context
      end
    else context in
  let context :=
    match ctx !! "customer_email" with
    | Some v => <["customer_email" := v]> context
    | None => context
    end in
  let context :=
    match _recent_interactions m with
    | [] => context
    | _ => <["recent_interactions_summary" :=
               VStr (_get_recent_summary m)]> context
    end in
  (context, m).

End Reading.

(** [get_full_context]: the two attributes, and the memory after the call *)
Definition get_full_context (m : t)
  : (gmap string value * list interaction) * t :=
  ((_conversation_context m, _recent_interactions m), m).

(** [clear_context] *)
Definition clear_context (m : t) : t := init.

End ConversationMemory.

(** ** The coordinator: routing, and the key info it keeps of a response

    (src/agents/coordinator.py) *)

Module Coordinator.
Import PyStr Re ConversationMemory.

Inductive Intent : Type :=
| ORDER_STATUS
| PRODUCT_RECOMMENDATION
| EARLY_RISERS_PROMOTION
| WHO_ARE_YOU
| UNKNOWN.

(** [intent.name] *)
Definition intent_name (intent : Intent) : string :=
  match intent with
  | ORDER_STATUS => "ORDER_STATUS"
  | PRODUCT_RECOMMENDATION => "PRODUCT_RECOMMENDATION"
  | EARLY_RISERS_PROMOTION => "EARLY_RISERS_PROMOTION"
  | WHO_ARE_YOU => "WHO_ARE_YOU"
  | UNKNOWN => "UNKNOWN"
  end.

(** [intent_to_agent.get(intent)]: [None] is the entry of [UNKNOWN], and
    [WHO_ARE_YOU] has no entry *)
Definition agent_name (intent : Intent) : option string :=
  match intent with
  | ORDER_STATUS => Some "OrderStatusAgent"
  | PRODUCT_RECOMMENDATION => Some "ProductRecommendationAgent"
  | EARLY_RISERS_PROMOTION => Some "EarlyRisersPromotionAgent"
  | WHO_ARE_YOU | UNKNOWN => None
  end.

(** [route_to_agent] *)
Definition route_to_agent {Agent : Type} (sub_agents : gmap string Agent)
  (intent : Intent) : option Agent :=
  match agent_name intent with
  | Some (String _ _ as name) => sub_agents !! name
  | _ => None
  end.

(** [re.findall(r, s)] for a pattern whose only group is the whole
    pattern: the matches from left to right, each search starting where
    the match before ended.  [skip] counts the characters of the last
    match that are still to pass. *)
Fixpoint findall_from (r : list atom) (skip : nat) (prev : option ascii)
  (s : string) : list string :=
  match skip with
  | S skip' =>
      match s with
      | String c s' => findall_from r skip' (Some c) s'
      | EmptyString => []
      end
  | O =>
      match match_here r prev s with
      | Some m =>
          m :: match s with
               | String c s' =>
                   findall_from r (Nat.pred (String.length m)) (Some c) s'
               | EmptyString => []
               end
      | None =>
          match s with
          | String c s' => findall_from r O (Some c) s'
          | EmptyString => []
          end
      end
  end.

Definition findall (r : list atom) (s : string) : list string :=
  findall_from r O None s.

Fixpoint drop_chars (n : nat) (s : string) : string :=
  match n, s with
  | S n', String _ s' => drop_chars n' s'
  | _, _ => s
  end.

Fixpoint take_chars (n : nat) (s : string) : string :=
  match n, s with
  | S n', String c s' => String c (take_chars n' s')
  | _, _ => EmptyString
  end.

(** [.group(1)] of a match [m] of a pattern that has [before] atoms of
    one character in front of its group and [after] behind it *)
Definition group (before after : nat) (m : string) : string :=
  take_chars (String.length m - before - after) (drop_chars before m).

(** a letter of a pattern under [re.IGNORECASE] *)
Definition any_case (c : ascii) : atom :=
  Chr (fun x => Ascii.eqb (lower_char x) c).

(** [r"#(W\d+)"] *)
Definition order_number_pattern : list atom :=
  [ lit "#"; lit "W"; Rep is_digit 1 ].

(** [r"hello ([^!]+)!"] with [re.IGNORECASE] *)
Definition customer_name_pattern : list atom :=
  [ any_case "h"; any_case "e"; any_case "l"; any_case "l"; any_case "o";
    lit " "; Rep (fun c => negb (Ascii.eqb c "!")) 1; lit "!" ].

(** [r"(SO[A-Z]{2}\d+)"] *)
Definition sku_pattern : list atom :=
  [ lit "S"; lit "O"; Chr is_upper; Chr is_upper; Rep is_digit 1 ].

(** [r"EARLY\d+[A-Z0-9]+"] *)
Definition promo_pattern : list atom :=
  [ lit "E"; lit "A"; lit "R"; lit "L"; lit "Y"; Rep is_digit 1;
    Rep (fun c => is_upper c || is_digit c) 1 ].

(** [_extract_key_info_from_response]; [entities] is the dict of the
    entities, in the order of its keys *)
Definition _extract_key_info_from_response (intent : Intent)
  (sub_response : OrderStatus.Message) (entities : list (string * value))
  : gmap string value :=
  let key_info : gmap string value := ∅ in
  let text := OrderStatus.content sub_response in
  let response_content := lower text in
  let key_info :=
    match intent with
    | ORDER_STATUS =>
        let key_info :=
          match search order_number_pattern text with
          | Some order_match =>
              <["order_number" := VStr ("#" +:+ group 1 0 order_match)]>
                key_info
          | None => key_info
          end in
        let key_info :=
          match search customer_name_pattern text with
          | Some name_match =>
              <["customer_name" := VStr (strip (group 6 1 name_match))]>
                key_info
          | None => key_info
          end in
        let key_info :=
          match findall sku_pattern text with
          | [] => key_info
          | product_matches =>
              <["products" := VList (map VStr product_matches)]> key_info
          end in
        if str_in "delivered" response_content
        then <["status" := VStr "delivered"]> key_info
        else if str_in "fulfilled" response_content
        then <["status" := VStr "fulfilled"]> key_info
        else if str_in "in-transit" response_content
        then <["status" := VStr "in-transit"]> key_info
        else if str_in "error" response_content
        then <["status" := VStr "error"]> key_info
        else key_info
    | PRODUCT_RECOMMENDATION =>
        match findall sku_pattern text with
        | [] => key_info
        | product_matches =>
            <["products_mentioned" := VList (map VStr product_matches)]>
              key_info
        end
    | EARLY_RISERS_PROMOTION =>
        match search promo_pattern text with
        | Some promo_match => <["promo_code" := VStr promo_match]> key_info
        | None => key_info
        end
    | WHO_ARE_YOU | UNKNOWN => key_info
    end in
  match entities with
  | [] => key_info
  | _ => <["entities" := VDict entities]> key_info
  end.

Section Context.

(** the text of a value inside an f-string *)
Variable str_of : value -> string.

(** [_format_context_for_llm]; [None]: it raises, [referenced_order] being
    a value without [get] *)
Definition _format_context_for_llm (context_info : gmap string value)
  : option string :=
  let order_part :=
    if truthy (get context_info "referenced_order") then
      match get context_info "referenced_order" with
      | VDict order =>
          let order_num := default VNone (Py.dict_get "order_number" order) in
          let customer := default VNone (Py.dict_get "customer_name" order) in
          let products :=
            default (VList []) (Py.dict_get "products" order) in
          Some [ "Recently looked up order: " +:+ str_of order_num
                 +:+ " for " +:+ str_of customer +:+ " "
                 +:+ "with products " +:+ str_of products ]
      | _ => None
      end
    else Some [] in
  match order_part with
  | None => None
  | Some order_part =>
      let context_parts :=
        order_part
        ++ (if truthy (get context_info "referenced_products")
            then [ "Recently mentioned products: "
                   +:+ str_of (get context_info "referenced_products") ]
            else [])
        ++ (if truthy (get context_info "customer_email")
            then [ "Customer email: "
                   +:+ str_of (get context_info "customer_email") ]
            else [])
        ++ (if truthy (get context_info "recent_interactions_summary")
            then [ "Recent activity: "
                   +:+ str_of (get context_info
                                 "recent_interactions_summary") ]
            else []) in
      Some (match context_parts with
            | [] => "No relevant context available."
            | _ => join nl context_parts
            end)
  end.

(** [_get_conversation_context_string]: the text ([None]: it raises), and
    the memory after the call *)
Definition _get_conversation_context_string (query : string)
  (conversation_memory : ConversationMemory.t)
  : option string * ConversationMemory.t :=
  let (context_info, conversation_memory) :=
    get_contextual_info str_of query conversation_memory in
  if nonempty context_info then
    match _format_context_for_llm context_info with
    | Some context_summary =>
        (Some (nl +:+ "<Past Conversation Context>:" +:+ context_summary
               +:+ "</Past Conversation Context>"),
         conversation_memory)
    | None => (None, conversation_memory)
    end
  else (Some "", conversation_memory).

End Context.

End Coordinator.

(** ** The product recommendation agent: the two catalogue look-ups

    (src/agents/delegates/product_recommendation.py) *)

Module ProductRecommendation.
Import PyStr.

(** A product of the catalogue, with the members the look-ups read;
    [relevance_score] is the member [search_products] writes. *)
Record product : Type := {
  ProductName : option string;
  Description : option string;
  Tags : list string;
  SKU : option string;
  relevance_score : option nat
}.

Definition with_score (matches : nat) (p : product) : product :=
  {| ProductName := ProductName p; Description := Description p;
     Tags := Tags p; SKU := SKU p; relevance_score := Some matches |}.

Definition product_text (p : product) : string :=
  lower (default "" (ProductName p)) +:+ " "
  +:+ lower (default "" (Description p)) +:+ " "
  +:+ lower (join " " (Tags p)).

(** [sum(1 for word in query_words if word in product_text)] *)
Definition count_matches (query_words : list string) (text : string) : nat :=
  length (List.filter (fun word => str_in word text) query_words).

(** the loop of [search_products]: the catalogue after it, with the scores
    it has written, and [matching_products] *)
Fixpoint scan (query_lower : string) (products : list product)
  : list product * list product :=
  match products with
  | [] => ([], [])
  | p :: rest =>
      let query_words := split query_lower in
      let matches := count_matches query_words (product_text p) in
      let (rest', matching) := scan query_lower rest in
      if (0 <? matches)%nat
      then (with_score matches p :: rest', with_score matches p :: matching)
      else (p :: rest', matching)
  end.

(** [x.get("relevance_score", 0)] *)
Definition sort_key (x : product) : nat := default 0%nat (relevance_score x).

(** [list.sort(key=..., reverse=True)]: the larger keys first, products
    with equal keys in the order they had *)
Fixpoint insert_desc (x : product) (l : list product) : list product :=
  match l with
  | [] => [x]
  | y :: l' =>
      if (sort_key y <=? sort_key x)%nat then x :: y :: l'
      else y :: insert_desc x l'
  end.

Definition sort_desc (l : list product) : list product :=
  foldr insert_desc [] l.

(** [search_products]: the products returned, and the catalogue after the
    call *)
Definition search_products (query : string) (products_data : list product)
  : list product * list product :=
  let query_lower := lower query in
  let (products_data', matching_products) := scan query_lower products_data in
  (take 5 (sort_desc matching_products), products_data').

(** [get_products_by_skus] *)
Definition get_products_by_skus (skus : list string)
  (products_data : list product) : list product :=
  List.filter
    (fun p => match SKU p with
              | Some sku => bool_decide (sku ∈ skus)
              | None => false
              end)
    products_data.

End ProductRecommendation.

(** ** The Early Risers promotion agent

    (src/agents/delegates/early_risers_promotion.py) *)

Module EarlyRisers.
Import PyStr.

(** an entry of [promo_codes] *)
Record promo : Type := { promo_code : string; generated_at : string }.

Record t : Type := {
  session_id : string;
  promo_codes : gmap string promo
}.

(** What one call of [process] reads from outside: the hour that
    [is_early_risers_time] reads, the hour and minute read for the refusal,
    [current_time.strftime('%I:%M %p')], [datetime.now().strftime("%Y%m%d")],
    [str(uuid.uuid4())], [datetime.now().isoformat()], and whether
    [_save_promo_codes] returns ([false]: it raises). *)
Record readings : Type := {
  checked_hour : nat;
  shown_hour : nat;
  shown_minute : nat;
  shown_clock : string;
  timestamp_date : string;
  uuid4 : string;
  generated : string;
  saved : bool
}.

(** [is_early_risers_time] *)
Definition is_early_risers_time (current_hour : nat) : bool :=
  (7 <=? current_hour)%nat && (current_hour <? 10)%nat.

(** [s[:n]] *)
Fixpoint prefix (n : nat) (s : string) : string :=
  match n, s with
  | S n', String c s' => String c (prefix n' s')
  | _, _ => EmptyString
  end.

(** [s.upper()], for the text of a UUID: digits, the letters a to f and
    hyphens *)
Definition upper (s : string) : string := map_chars upper_char s.

(** [generate_promo_code]: the code, or [None] when the call raises *)
Definition generate_promo_code (r : readings) (a : t) : option string * t :=
  match promo_codes a !! session_id a with
  | Some stored => (Some (promo_code stored), a)
  | None =>
      let unique_id := upper (prefix 8 (uuid4 r)) in
      let code := "EARLY" +:+ timestamp_date r +:+ unique_id in
      let a' :=
        {| session_id := session_id a;
           promo_codes :=
             <[session_id a := {| promo_code := code;
                                  generated_at := generated r |}]>
               (promo_codes a) |} in
      if saved r then (Some code, a') else (None, a')
  end.

(** [f"{n:02d}"] *)
Definition two_digits (n : nat) : string :=
  let text := NilEmpty.string_of_uint (Nat.to_uint n) in
  if (String.length text <? 2)%nat then "0" +:+ text else text.

Definition time_msg (current_hour minute : nat) : string :=
  "ğŸ”ï¸ The Early Risers promotion is only available from 8:00 AM to "
  +:+ "10:00 AM Pacific Time! It's currently " +:+ two_digits current_hour +:+ ":"
  +:+ two_digits minute +:+ " Pacific. Rise early tomorrow to catch "
  +:+ "this amazing 10% discount! Onward into the unknown! ğŸŒ…".

Definition response_text (clock code : string) : string :=
  ("ğŸŒ… Good morning, early riser! You're up bright and early at "
   +:+ clock +:+ " Pacific Time! ğŸ”ï¸" +:+ nl +:+ nl)
  +:+ ("ğŸ‰ Here's your exclusive Early Risers 10% discount code:" +:+ nl +:+ nl)
  +:+ ("**" +:+ code +:+ "**" +:+ nl +:+ nl)
  +:+ ("âœ¨ This code gives you 10% off your entire order! Use it at checkout before it expires." +:+ nl +:+ nl)
  +:+ ("ğŸŒŸ Thanks for being an early bird! The mountains are calling, and "
       +:+ "you're ready to answer! Onward into the unknown! ğŸ”ï¸").

Definition error_msg : string :=
  "ğŸ”ï¸ I encountered an issue while generating your Early Risers "
  +:+ "discount code. Please try again! Onward into the unknown! ğŸŒŸ".

Section Agent.

Variable name : string.

Definition reply_with (text : string) : OrderStatus.Message :=
  {| OrderStatus.content := text; OrderStatus.sender := name;
     OrderStatus.recipient := "AdventureOutfittersAgent";
     OrderStatus.metadata := [] |}.

(** [process] *)
Definition process (r : readings) (message : OrderStatus.Message) (a : t)
  : OrderStatus.Message * t :=
  if negb (is_early_risers_time (checked_hour r))
  then (reply_with (time_msg (shown_hour r) (shown_minute r)), a)
  else
    match generate_promo_code r a with
    | (Some code, a') => (reply_with (response_text (shown_clock r) code), a')
    | (None, a') => (reply_with error_msg, a')
    end.

End Agent.

End EarlyRisers.

(** * Properties *)

(** ** Strings and patterns *)

Module StrFacts.
Import PyStr Re.

Lemma startswith_app (p s : string) : startswith p (p +:+ s) = true.
Proof.
  induction p as [|c p IH]; simpl; [by destruct s|].
  by rewrite Ascii.eqb_refl.
Qed.

Lemma str_in_unfold (x s : string) :
  str_in x s
  = startswith x s
    || match s with EmptyString => false | String _ s' => str_in x s' end.
Proof. by destruct s. Qed.

Lemma str_in_app_r (x p s : string) :
  str_in x s = true → str_in x (p +:+ s) = true.
Proof.
  intros Hs. induction p as [|c p IH]; [done|].
  change (String c p +:+ s) with (String c (p +:+ s)).
  rewrite str_in_unfold, IH. apply orb_true_r.
Qed.

Lemma str_in_here (x s : string) : str_in x (x +:+ s) = true.
Proof. rewrite str_in_unfold, startswith_app. done. Qed.

(** The text a repetition matches: a run of the class, long enough,
    followed by what the rest of the pattern matches. *)
Lemma rep_sound (p : ascii -> bool)
  (k : option ascii -> string -> option string) (s : string) :
  ∀ (n : nat) (prev : option ascii) (m : string),
    rep p k n prev s = Some m →
    ∃ run prev' s' m',
      m = run +:+ m' ∧ all_chars p run = true
      ∧ (n ≤ String.length run)%nat ∧ k prev' s' = Some m'.
Proof.
  induction s as [|c s IH]; intros n prev m; simpl.
  - destruct n; [|done]. intros Hk.
    exists EmptyString, prev, EmptyString, m. by repeat split.
  - assert (Hstop : match n with
                    | O => k prev (String c s)
                    | S _ => None
                    end = Some m →
                    ∃ run prev' s' m',
                      m = run +:+ m' ∧ all_chars p run = true
                      ∧ (n ≤ String.length run)%nat ∧ k prev' s' = Some m').
    { destruct n; [|done]. intros Hk.
      exists EmptyString, prev, (String c s), m. by repeat split. }
    destruct (p c) eqn:Hpc; [|done].
    destruct (rep p k (Nat.pred n) (Some c) s) as [t|] eqn:Hrep; simpl;
      [|done].
    intros [= <-].
    destruct (IH _ _ _ Hrep) as (run & prev' & s' & m' & -> & Hall & Hlen & Hk).
    exists (String c run), prev', s', m'. simpl. rewrite Hpc, Hall.
    repeat split; [lia|done].
Qed.

Lemma search_from_sound (r : list atom) (P : string → Prop) :
  (∀ prev s m, match_here r prev s = Some m → P m) →
  ∀ s prev m, search_from r prev s = Some m → P m.
Proof.
  intros HP. induction s as [|c s IH]; intros prev m; simpl.
  - destruct (match_here r prev EmptyString) eqn:E; [|done].
    intros [= <-]. eauto.
  - destruct (match_here r prev (String c s)) eqn:E.
    + intros [= <-]. eauto.
    + apply IH.
Qed.

Lemma append_empty (s : string) : s +:+ "" = s.
Proof.
  induction s as [|c s IH]; [done|].
  change (String c s +:+ "") with (String c (s +:+ "")). by rewrite IH.
Qed.

Lemma cons_match_some (c : ascii) (o : option string) (m : string) :
  cons_match c o = Some m → ∃ t, o = Some t ∧ m = String c t.
Proof. destruct o; simpl; [|done]. intros [= <-]. eauto. Qed.

Lemma lit_sound (c : ascii) (rest : list atom) (prev : option ascii)
  (s m : string) :
  match_here (lit c :: rest) prev s = Some m →
  ∃ s' t, s = String c s' ∧ m = String c t
          ∧ match_here rest (Some c) s' = Some t.
Proof.
  simpl. destruct s as [|d s']; [done|].
  destruct (Ascii.eqb c d) eqn:E; [|done].
  apply Ascii.eqb_eq in E as <-.
  intros (t & Ht & ->)%cons_match_some. eauto.
Qed.

Lemma wordb_sound (rest : list atom) (prev : option ascii) (s m : string) :
  match_here (WordB :: rest) prev s = Some m →
  match_here rest prev s = Some m.
Proof.
  change (match_here (WordB :: rest) prev s)
    with (if at_boundary prev s then match_here rest prev s else None).
  by destruct (at_boundary prev s).
Qed.

Lemma rep_atom_sound (p : ascii -> bool) (n : nat) (rest : list atom)
  (prev : option ascii) (s m : string) :
  match_here (Rep p n :: rest) prev s = Some m →
  ∃ run prev' s' m',
    m = run +:+ m' ∧ all_chars p run = true
    ∧ (n ≤ String.length run)%nat ∧ match_here rest prev' s' = Some m'.
Proof. apply rep_sound. Qed.

End StrFacts.

(** ** Conversation memory *)

Module MemoryProps.
Import PyStr ConversationMemory.

#[local] Set Warnings "-clear-no-such-hyp".

(** The calls a session makes on its memory. *)
Inductive op : Type :=
| Add (now intent query : string) (entities : gmap string value)
      (agent_used : string) (info : option (gmap string value))
| Ask (current_query : string)
| Full.

Definition step (str_of : value -> string) (m : t) (o : op) : t :=
  match o with
  | Add now intent query entities agent_used info =>
      add_interaction now intent query entities agent_used info m
  | Ask current_query => snd (get_contextual_info str_of current_query m)
  | Full => snd (get_full_context m)
  end.

Definition run (str_of : value -> string) (ops : list op) (m : t) : t :=
  foldl (step str_of) m ops.

(** the records the calls insert, oldest first *)
Fixpoint inserted (ops : list op) : list interaction :=
  match ops with
  | [] => []
  | Add now intent query entities agent_used info :: ops' =>
      new_interaction now intent query entities agent_used info
      :: inserted ops'
  | _ :: ops' => inserted ops'
  end.

Lemma last_n_short {A : Type} (n : nat) (l : list A) :
  (length l ≤ n)%nat → last_n n l = l.
Proof.
  intros H. unfold last_n. replace (length l - n) with 0 by lia. done.
Qed.

Lemma length_last_n {A : Type} (n : nat) (l : list A) :
  length (last_n n l) = length l `min` n.
Proof. unfold last_n. rewrite length_drop. lia. Qed.

Lemma last_n_app_last_n {A : Type} (n : nat) (l l' : list A) :
  last_n n (last_n n l ++ l') = last_n n (l ++ l').
Proof.
  unfold last_n.
  rewrite !drop_app, drop_drop, !length_app, !length_drop.
  f_equal; f_equal; lia.
Qed.

Lemma last_n_app_long {A : Type} (n : nat) (l l' : list A) :
  (n ≤ length l')%nat → last_n n (l ++ l') = last_n n l'.
Proof.
  intros H. unfold last_n. rewrite length_app.
  replace (length l + length l' - n) with (length l + (length l' - n))
    by lia.
  by rewrite drop_app_add.
Qed.

Lemma record_history (i : interaction) (m : t) :
  _recent_interactions (record i m)
  = last_n _max_recent_interactions (_recent_interactions m ++ [i]).
Proof.
  unfold record. simpl.
  destruct (_ <? _)%nat eqn:E; [done|].
  apply Nat.ltb_ge in E. by rewrite last_n_short.
Qed.

Lemma run_history (str_of : value -> string) (ops : list op) (m : t) :
  _recent_interactions (run str_of ops m)
  = (if inserted ops is [] then _recent_interactions m
     else last_n _max_recent_interactions
            (_recent_interactions m ++ inserted ops)).
Proof.
  revert m. induction ops as [|o ops IH]; intros m; [done|].
  destruct o; simpl; [|apply IH..].
  rewrite (IH (add_interaction _ _ _ _ _ _ m)).
  unfold add_interaction. rewrite record_history.
  destruct (inserted ops) as [|j js]; [done|].
  rewrite last_n_app_last_n. by rewrite <- app_assoc.
Qed.

Lemma run_init_history (str_of : value -> string) (ops : list op) :
  _recent_interactions (run str_of ops init)
  = last_n _max_recent_interactions (inserted ops).
Proof.
  rewrite run_history. simpl. by destruct (inserted ops).
Qed.

(** C5. Whatever calls a session makes on its memory, adding records or
    reading them any number of times, the history holds at most 5 records
    and they are the 5 inserted last, in the order of insertion; a record
    added to a full history pushes out the oldest one. *)
Theorem history_bounded_fifo (str_of : value -> string) (ops : list op) :
  let history := _recent_interactions (run str_of ops init) in
  (length history ≤ 5)%nat
  ∧ history = last_n 5 (inserted ops)
  ∧ ∀ now intent query entities agent_used info,
      length history = 5%nat →
      _recent_interactions
        (add_interaction now intent query entities agent_used info
           (run str_of ops init))
      = drop 1 history
        ++ [new_interaction now intent query entities agent_used info].
Proof.
  cbv zeta. rewrite run_init_history. split; [|split].
  - rewrite length_last_n. unfold _max_recent_interactions. lia.
  - done.
  - intros now intent query entities agent_used info Hfull.
    unfold add_interaction. rewrite record_history, run_init_history.
    unfold last_n at 1. rewrite length_app, Hfull. simpl.
    rewrite drop_app. rewrite Hfull. done.
Qed.

(** the keys of the context that [_update_context] assigns for a record *)
Definition written (i : interaction) : list string :=
  (if truthy (get (entities i) "Email") then ["customer_email"] else [])
  ++ (if String.eqb (intent i) "ORDER_STATUS" && nonempty (key_info i)
      then "last_order_lookup"
           :: (if truthy (get (key_info i) "products")
               then ["recent_products"] else [])
      else if String.eqb (intent i) "PRODUCT_RECOMMENDATION"
              && nonempty (key_info i)
      then (if truthy (get (key_info i) "products_mentioned")
            then ["recent_products"] else [])
      else if String.eqb (intent i) "EARLY_RISERS_PROMOTION"
              && nonempty (key_info i)
      then (if truthy (get (key_info i) "promo_code")
            then ["last_promo_code"] else [])
      else []).

Ltac split_ifs :=
  repeat match goal with
         | |- context [if ?b then _ else _] => destruct b eqn:?
         end.

Ltac drop_ifs :=
  repeat match goal with
         | |- context [if ?b then _ else _] => destruct b
         end.

Ltac update_cases := unfold _update_context, written; split_ifs; simpl.

Lemma update_other (i : interaction) (ctx : gmap string value)
  (key : string) :
  key ∉ written i → _update_context i ctx !! key = ctx !! key.
Proof.
  update_cases; intros Hkey;
    repeat (rewrite lookup_insert_ne; [|set_solver]); done.
Qed.

Lemma update_written (i : interaction) (ctx : gmap string value)
  (key : string) :
  key ∈ written i →
  _update_context i ctx !! key = _update_context i ∅ !! key.
Proof.
  update_cases; intros Hkey;
    repeat (apply elem_of_cons in Hkey as [->|Hkey]);
    try (by apply elem_of_nil in Hkey);
    by simplify_map_eq.
Qed.

Definition record_all (later : list interaction) (m : t) : t :=
  foldl (fun m i => record i m) m later.

Lemma record_all_context (later : list interaction) (m : t) (key : string) :
  Forall (fun i => key ∉ written i) later →
  _conversation_context (record_all later m) !! key
  = _conversation_context m !! key.
Proof.
  revert m. induction later as [|i later IH]; intros m Hall; [done|].
  inversion Hall; subst. simpl. rewrite IH by done.
  simpl. by apply update_other.
Qed.

Lemma record_all_history (later : list interaction) (m : t) :
  _recent_interactions (record_all later m)
  = (if later is [] then _recent_interactions m
     else last_n _max_recent_interactions
            (_recent_interactions m ++ later)).
Proof.
  revert m. induction later as [|i later IH]; intros m; [done|].
  simpl. rewrite IH, record_history.
  destruct later as [|j js]; [done|].
  rewrite last_n_app_last_n. by rewrite <- app_assoc.
Qed.

(** C6. A value the context holds under some key after record [k] has
    been added is still read under that key after any number of later
    records that do not assign the key, also when these have pushed [k]
    out of the five-record history (the history then consists of later
    records only).  A record that assigns the key gives it a value taken
    from that record alone, and the context after an insertion depends on
    the context before it and the new record, not on the history. *)
Theorem snapshot_outlives_history (k : interaction)
  (later : list interaction) (m : t) (key : string) (v : value) :
  _conversation_context (record k m) !! key = Some v →
  Forall (fun i => key ∉ written i) later →
  let m' := record_all later (record k m) in
  _conversation_context m' !! key = Some v
  ∧ ((5 ≤ length later)%nat → _recent_interactions m' = last_n 5 later)
  ∧ (∀ i, key ∈ written i →
          _conversation_context (record i m') !! key
          = _update_context i ∅ !! key)
  ∧ (∀ i m1 m2,
       _conversation_context m1 = _conversation_context m2 →
       _conversation_context (record i m1)
       = _conversation_context (record i m2)).
Proof.
  intros Hset Hlater m'. subst m'. repeat split.
  - by rewrite record_all_context.
  - intros Hlong. rewrite record_all_history.
    destruct later as [|j js]; [simpl in Hlong; lia|].
    by apply last_n_app_long.
  - intros i Hi. simpl. by apply update_written.
  - intros i m1 m2 Heq. simpl. by rewrite Heq.
Qed.

(** A session of seven turns: an order lookup, then six turns that
    carry no order, product or customer data. *)
Definition lookup_turn : interaction :=
  new_interaction "2025-01-01T09:00:00" "ORDER_STATUS"
    "Check order #W001 for john.doe@example.com"
    {[ "Email" := VStr "john.doe@example.com" ]} "OrderStatusAgent"
    (Some {[ "order_number" := VStr "#W001";
             "products" := VList [VStr "SOBP001"; VStr "SOWB004"] ]}).

Definition idle_turn : interaction :=
  new_interaction "2025-01-01T09:05:00" "WHO_ARE_YOU" "who are you?" ∅
    "None" None.

Lemma idle_turn_writes_nothing (key : string) : key ∉ written idle_turn.
Proof. vm_compute. apply not_elem_of_nil. Qed.

Lemma snapshot_outlives_history_witness :
  let m' := record_all (replicate 6 idle_turn) (record lookup_turn init) in
  _conversation_context m' !! "recent_products"
  = Some (VList [VStr "SOBP001"; VStr "SOWB004"])
  ∧ _recent_interactions m' = replicate 5 idle_turn.
Proof.
  pose proof (snapshot_outlives_history lookup_turn (replicate 6 idle_turn)
                init "recent_products"
                (VList [VStr "SOBP001"; VStr "SOWB004"])) as H.
  destruct H as (Hread & Hhist & _).
  - vm_compute. reflexivity.
  - repeat constructor; apply idle_turn_writes_nothing.
  - split; [exact Hread|].
    rewrite Hhist; [reflexivity | simpl; lia].
Defined.

(** C7, as the code has it.  For every call of [add_interaction]:
    [customer_email] keeps its value when the entities have no (or an
    empty) ["Email"]; [recent_products] keeps its value when the entry
    of [key_info] that the intent reads (["products"] for an order
    lookup, ["products_mentioned"] otherwise) is absent or empty;
    [last_promo_code] keeps its value when ["promo_code"] is absent or
    empty; [last_order_lookup] keeps its value when the intent is not
    [ORDER_STATUS] or [key_info] is empty, and is otherwise replaced as a
    whole by the dict built from the new record; every other key keeps
    its value. *)
Theorem update_keeps_unsupplied (now intent query : string)
  (entities : gmap string value) (agent_used : string)
  (info : option (gmap string value)) (m : t) :
  let i := new_interaction now intent query entities agent_used info in
  let ctx := _conversation_context m in
  let ctx' :=
    _conversation_context
      (add_interaction now intent query entities agent_used info m) in
  (truthy (get entities "Email") = false →
     ctx' !! "customer_email" = ctx !! "customer_email")
  ∧ (intent = "ORDER_STATUS" →
     truthy (get (key_info i) "products") = false →
     ctx' !! "recent_products" = ctx !! "recent_products")
  ∧ (intent ≠ "ORDER_STATUS" →
     truthy (get (key_info i) "products_mentioned") = false →
     ctx' !! "recent_products" = ctx !! "recent_products")
  ∧ (truthy (get (key_info i) "promo_code") = false →
     ctx' !! "last_promo_code" = ctx !! "last_promo_code")
  ∧ (intent ≠ "ORDER_STATUS" ∨ key_info i = ∅ →
     ctx' !! "last_order_lookup" = ctx !! "last_order_lookup")
  ∧ (intent = "ORDER_STATUS" → key_info i ≠ ∅ →
     ctx' !! "last_order_lookup" = Some (order_info i))
  ∧ (∀ key,
       key ∉ ["customer_email"; "recent_products"; "last_promo_code";
              "last_order_lookup"] →
       ctx' !! key = ctx !! key).
Proof.
  intros i ctx ctx'. subst ctx ctx'. unfold add_interaction. fold i.
  change (_conversation_context (record i m))
    with (_update_context i (_conversation_context m)).
  assert (Hi : ConversationMemory.intent i = intent) by done.
  assert (He : ConversationMemory.entities i = entities) by done.
  clearbody i. subst intent entities.
  repeat split.
  - intros H. apply update_other. unfold written. rewrite H.
    drop_ifs; set_solver.
  - intros Ho H. apply update_other. unfold written. rewrite Ho, H.
    simpl. drop_ifs; set_solver.
  - intros Ho H. apply update_other. unfold written. rewrite H.
    apply String.eqb_neq in Ho. rewrite Ho. simpl.
    drop_ifs; set_solver.
  - intros H. apply update_other. unfold written. rewrite H.
    drop_ifs; set_solver.
  - intros H. apply update_other. unfold written.
    assert (String.eqb (ConversationMemory.intent i) "ORDER_STATUS"
            && nonempty (key_info i) = false) as ->.
    { destruct H as [H|H].
      - apply String.eqb_neq in H. by rewrite H.
      - unfold nonempty. rewrite H, bool_decide_eq_false_2; [|tauto].
        by rewrite andb_false_r. }
    drop_ifs; set_solver.
  - intros Ho Hne. unfold _update_context. rewrite Ho. simpl.
    unfold nonempty. rewrite bool_decide_eq_true_2 by done.
    split_ifs; by simplify_map_eq.
  - intros key Hkey. apply update_other. unfold written.
    drop_ifs; set_solver.
Qed.

(** the context after the lookup turn, and a later order turn whose
    reply named no order: its [key_info] holds the entities only *)
Definition after_lookup : t := record lookup_turn init.

Lemma update_keeps_unsupplied_witness :
  _conversation_context
    (add_interaction "2025-01-01T09:05:00" "WHO_ARE_YOU" "who are you?" ∅
       "None" None after_lookup) !! "last_order_lookup"
  = _conversation_context after_lookup !! "last_order_lookup".
Proof.
  pose proof (update_keeps_unsupplied "2025-01-01T09:05:00" "WHO_ARE_YOU"
                "who are you?" ∅ "None" None after_lookup) as H.
  cbv zeta in H. destruct H as (_ & _ & _ & _ & H & _).
  apply H. left. discriminate.
Defined.

(** C7 fails for [last_order_lookup]: an order turn whose [key_info] has
    no order entry at all replaces the stored lookup by one whose
    fields are [None] and whose product list is empty. *)
Lemma null_overwrites_last_order_lookup :
  let info : gmap string value :=
    {[ "entities" := VDict [("Email", VStr "john.doe@example.com")] ]} in
  let m' :=
    add_interaction "2025-01-01T09:10:00" "ORDER_STATUS"
      "check another order for john.doe@example.com"
      {[ "Email" := VStr "john.doe@example.com" ]} "OrderStatusAgent"
      (Some info) after_lookup in
  info !! "order_number" = None
  ∧ info !! "customer_name" = None
  ∧ info !! "products" = None
  ∧ info !! "status" = None
  ∧ _conversation_context after_lookup !! "last_order_lookup"
    = Some (VDict [ ("order_number", VStr "#W001");
                    ("customer_name", VNone);
                    ("products",
                     VList [VStr "SOBP001"; VStr "SOWB004"]);
                    ("status", VNone);
                    ("last_checked", VStr "2025-01-01T09:00:00") ])
  ∧ _conversation_context m' !! "last_order_lookup"
    = Some (VDict [ ("order_number", VNone);
                    ("customer_name", VNone);
                    ("products", VList []);
                    ("status", VNone);
                    ("last_checked", VStr "2025-01-01T09:10:00") ]).
Proof. vm_compute. repeat split. Qed.

End MemoryProps.

(** ** The order-status agent *)

Module OrderProps.
Import PyStr Re Py OrderStatus.

(** A reference token as the local extractor writes it: [#W] and one or
    more digits. *)
Definition order_shape (v : pyval) : Prop :=
  ∃ digits, v = Some ("#W" +:+ digits)
            ∧ digits ≠ "" ∧ all_chars is_digit digits = true.

Lemma run_nonempty (run : string) : (1 ≤ String.length run)%nat → run ≠ "".
Proof. destruct run; simpl; [lia|done]. Qed.

Lemma order_pattern_hash_sound (prev : option ascii) (s m : string) :
  match_here order_pattern_hash prev s = Some m → order_shape (Some m).
Proof.
  unfold order_pattern_hash.
  intros (s1 & t1 & -> & -> & H1)%StrFacts.lit_sound.
  apply StrFacts.lit_sound in H1 as (s2 & t2 & -> & -> & H2).
  apply StrFacts.rep_atom_sound in H2
    as (run & prev' & s' & m' & -> & Hall & Hlen & [= <-]).
  exists run. split; [|split; [by apply run_nonempty|done]].
  by rewrite StrFacts.append_empty.
Qed.

Lemma order_pattern_bare_sound (prev : option ascii) (s m : string) :
  match_here order_pattern_bare prev s = Some m →
  order_shape (Some ("#" +:+ m)).
Proof.
  unfold order_pattern_bare.
  intros H0%StrFacts.wordb_sound.
  apply StrFacts.lit_sound in H0 as (s1 & t1 & -> & -> & H1).
  apply StrFacts.rep_atom_sound in H1
    as (run & prev' & s' & m' & -> & Hall & Hlen & Hk).
  apply StrFacts.wordb_sound in Hk. injection Hk as <-.
  exists run. split; [|split; [by apply run_nonempty|done]].
  by rewrite StrFacts.append_empty.
Qed.

Lemma extract_order_number_shape (text : string) :
  extract_order_number_from_text text = None
  ∨ order_shape (extract_order_number_from_text text).
Proof.
  unfold extract_order_number_from_text, search.
  destruct (search_from order_pattern_hash None text) as [m|] eqn:Hhash.
  { right. revert Hhash.
    apply (StrFacts.search_from_sound order_pattern_hash
             (fun m => order_shape (Some m))).
    apply order_pattern_hash_sound. }
  destruct (search_from order_pattern_bare None text) as [m|] eqn:Hbare;
    [|by left].
  right. revert Hbare.
  apply (StrFacts.search_from_sound order_pattern_bare
           (fun m => order_shape (Some ("#" +:+ m)))).
  apply order_pattern_bare_sound.
Qed.

Section Agent.

Variable name : string.
Variable orders_data : list order.
Variable json_loads : string -> option (list (string * pyval)).

Abbreviation process := (process name orders_data json_loads).
Abbreviation reply_with := (reply_with name).

(** One turn: the agent, whose state manager is [sm], processes
    [message]; [reply] is what the model does if it is called.  The
    result is the response, the state manager afterwards and the calls
    made during the turn. *)
Definition turn (sm : StateManager.t) (message : Message)
  (reply : chat_result) : Message * StateManager.t * list event :=
  let '(response, w) :=
    process message reply {| state_manager := sm; calls := [] |} in
  (response, state_manager w, calls w).

(** The values resolved for this turn, before the stored ones and the
    free-form extraction are looked at. *)
Definition email_from_current (entities : list (string * pyval))
  (query : string) : pyval :=
  py_or (py_get "Email" entities) (extract_email_from_text query).
Definition order_from_current (entities : list (string * pyval))
  (query : string) : pyval :=
  py_or (py_get "OrderNumber" entities)
        (extract_order_number_from_text query).

(** A message from the coordinator: the query and the entities. *)
Definition query_message (query : string)
  (entities : list (string * pyval)) : Message :=
  {| content := query; sender := "AdventureOutfittersAgent";
     recipient := name;
     metadata := [ ("intent", MStr "ORDER_STATUS");
                   ("entities", MDict entities) ] |}.

Lemma find_in_ok (orders : list order) (e : string) (o : pyval) :
  ∃ found, find_in orders (Some e) o = Ok found.
Proof.
  induction orders as [|x orders IH]; simpl; [by eexists|].
  destruct (_ && _); [by eexists | exact IH].
Qed.

Lemma truthy_some (v : pyval) :
  truthy v = true → ∃ s, v = Some s.
Proof. destruct v as [[|]|]; simpl; try discriminate; eauto. Qed.

(** what [_generate_order_response] does, by the result of the lookup *)
Definition attempt_result (email order_number : pyval)
  (found : option order) (w : world) : outcome Message * world :=
  match found with
  | Some o =>
      (Ok (reply_with (status_message o email order_number)),
       {| state_manager := StateManager.clear_state (state_manager w);
          calls := (calls w ++ [Lookup email order_number found])
                   ++ [Clear] |})
  | None =>
      (Ok (reply_with (not_found_msg email order_number)),
       {| state_manager := state_manager w;
          calls := calls w ++ [Lookup email order_number found] |})
  end.

Lemma generate_spec (email order_number : pyval) (w : world) :
  truthy email = true →
  ∃ found,
    find_in orders_data email order_number = Ok found
    ∧ _generate_order_response name orders_data email order_number w
      = attempt_result email order_number found w.
Proof.
  intros [e ->]%truthy_some.
  destruct (find_in_ok orders_data e order_number) as [found Hfound].
  exists found. split; [done|].
  unfold _generate_order_response, bind, find_order. rewrite Hfound.
  by destruct found.
Qed.

(** The entities of a message; [None] when [metadata["entities"]] is not
    a dict, so that [.get] raises. *)
Definition message_entities (message : Message)
  : option (list (string * pyval)) :=
  match dict_get "entities" (metadata message) with
  | None => Some []
  | Some (MDict d) => Some d
  | Some (MStr _) => None
  end.

(** What [extract_order_info] returns. *)
Definition extraction (query : string) (reply : chat_result)
  : pyval * pyval :=
  match extract_order_info json_loads query reply
          {| state_manager := StateManager.init; calls := [] |} with
  | (Ok extracted, _) => extracted
  | (Raise _, _) => (None, None)
  end.

Lemma extract_order_info_spec (query : string) (reply : chat_result)
  (w : world) :
  extract_order_info json_loads query reply w
  = (Ok (extraction query reply),
     {| state_manager := state_manager w;
        calls := calls w ++ [Extract query] |}).
Proof.
  unfold extraction, extract_order_info, catch, bind, emit. simpl.
  destruct reply as [|[] [text|]]; simpl; try done.
  unfold item, loads, ret, raise. simpl.
  destruct (_ && _); simpl.
  - destruct (json_loads text); simpl; done.
  - destruct (search json_pattern text); simpl; [|done].
    destruct (json_loads _); simpl; done.
Qed.

(** The result of a completion attempt made after the calls [pre]. *)
Definition attempt (pre : list event) (email order_number : pyval)
  (found : option order) (sm : StateManager.t)
  : Message * StateManager.t * list event :=
  match found with
  | Some o =>
      (reply_with (status_message o email order_number),
       StateManager.clear_state sm,
       pre ++ [Lookup email order_number found; Clear])
  | None =>
      (reply_with (not_found_msg email order_number), sm,
       pre ++ [Lookup email order_number None])
  end.

Definition has_digit (query : string) : bool :=
  isdigit (strip query) || any_char is_digit query.

Definition standalone (query : string) : bool :=
  str_in "@" query && (length (split query) =? 1)%nat.

(** The decision table of [process]: for the values [ec] and [oc]
    resolved this turn and the stored [se] and [so], the response, the
    state manager afterwards and the calls made. *)
Inductive turn_case (sm : StateManager.t) (query : string) (ec oc : pyval)
  (reply : chat_result) : Message * StateManager.t * list event -> Prop :=
| case_both found :
    truthy ec = true -> truthy oc = true ->
    find_in orders_data ec oc = Ok found ->
    turn_case sm query ec oc reply (attempt [] ec oc found sm)
| case_stored_email found :
    truthy ec = false -> truthy oc = true ->
    truthy (StateManager.get_value "email" sm) = true ->
    find_in orders_data (StateManager.get_value "email" sm) oc = Ok found ->
    turn_case sm query ec oc reply
      (attempt [] (StateManager.get_value "email" sm) oc found sm)
| case_stored_order found :
    truthy ec = true -> truthy oc = false ->
    truthy (StateManager.get_value "order_number" sm) = true ->
    find_in orders_data ec (StateManager.get_value "order_number" sm)
    = Ok found ->
    turn_case sm query ec oc reply
      (attempt [] ec (StateManager.get_value "order_number" sm) found sm)
| case_store_email sm' :
    truthy ec = true -> truthy oc = false ->
    truthy (StateManager.get_value "order_number" sm) = false ->
    standalone query = true ->
    StateManager.add_entry "email" ec sm = Ok sm' ->
    turn_case sm query ec oc reply
      (reply_with (email_msg ec), sm', [Store "email" ec])
| case_store_order sm' :
    truthy ec = false -> truthy oc = true ->
    truthy (StateManager.get_value "email" sm) = false ->
    StateManager.add_entry "order_number" oc sm = Ok sm' ->
    turn_case sm query ec oc reply
      (reply_with (order_msg oc), sm', [Store "order_number" oc])
| case_invalid_order :
    truthy ec = false -> truthy oc = false ->
    truthy (StateManager.get_value "email" sm) = true ->
    has_digit query = true ->
    turn_case sm query ec oc reply
      (reply_with (invalid_order_msg (StateManager.get_value "email" sm)),
       sm, [])
| case_email_needed :
    truthy ec = false -> truthy oc = false ->
    truthy (StateManager.get_value "order_number" sm) = true ->
    truthy (StateManager.get_value "email" sm) && has_digit query = false ->
    turn_case sm query ec oc reply
      (reply_with
         (email_needed_msg (StateManager.get_value "order_number" sm)),
       sm, [])
| case_extracted_both found :
    let final_email :=
      py_or (fst (extraction query reply))
            (StateManager.get_value "email" sm) in
    let final_order := snd (extraction query reply) in
    truthy ec = false -> truthy oc = false ->
    truthy (StateManager.get_value "order_number" sm) = false ->
    truthy (StateManager.get_value "email" sm) && has_digit query = false ->
    truthy final_email = true -> truthy final_order = true ->
    find_in orders_data final_email final_order = Ok found ->
    turn_case sm query ec oc reply
      (attempt [Extract query] final_email final_order found sm)
| case_extracted_missing :
    let final_email :=
      py_or (fst (extraction query reply))
            (StateManager.get_value "email" sm) in
    let final_order :=
      py_or (snd (extraction query reply))
            (StateManager.get_value "order_number" sm) in
    truthy ec = false -> truthy oc = false ->
    truthy (StateManager.get_value "order_number" sm) = false ->
    truthy (StateManager.get_value "email" sm) && has_digit query = false ->
    truthy final_email && truthy final_order = false ->
    turn_case sm query ec oc reply
      (missing_reply name final_email final_order, sm, [Extract query])
| case_email_not_stored :
    truthy ec = true -> truthy oc = false ->
    truthy (StateManager.get_value "order_number" sm) = false ->
    standalone query = false ->
    turn_case sm query ec oc reply
      (reply_with (missing_order_msg ec), sm, []).

Lemma add_entry_ok (key : string) (value : pyval) (sm : StateManager.t) :
  key ≠ "" →
  ∃ sm', StateManager.add_entry key value sm = Ok sm'.
Proof.
  intros Hkey. unfold StateManager.add_entry.
  destruct key; [done | by eexists].
Qed.


Lemma attempt_spec (email order_number : pyval) (sm : StateManager.t)
  (pre : list event) :
  truthy email = true →
  ∃ found,
    find_in orders_data email order_number = Ok found
    ∧ (let '(response, w) :=
         let (o, w') :=
           _generate_order_response name orders_data email order_number
             {| state_manager := sm; calls := pre |} in
         match o with
         | Ok response => (response, w')
         | Raise _ => (reply_with lookup_error_msg, w')
         end in
       (response, state_manager w, calls w))
      = attempt pre email order_number found sm.
Proof.
  intros He.
  destruct (generate_spec email order_number
              {| state_manager := sm; calls := pre |} He)
    as (found & Hfound & ->).
  exists found. split; [done|].
  destruct found; simpl; [|done].
  by rewrite <- app_assoc.
Qed.

Lemma missing_reply_order (e o : pyval) :
  truthy e = true → truthy o = false →
  missing_reply name e o = reply_with (missing_order_msg e).
Proof. intros He Ho. unfold missing_reply. by rewrite He, Ho. Qed.

Lemma process_table (sm : StateManager.t) (message : Message)
  (reply : chat_result) (entities : list (string * pyval)) :
  message_entities message = Some entities →
  turn_case sm (content message)
    (email_from_current entities (content message))
    (order_from_current entities (content message)) reply
    (turn sm message reply).
Proof.
  intros Hent.
  unfold turn, OrderStatus.process, process_try.
  unfold bind at 1, entities_of. unfold message_entities in Hent.
  assert (Hd : match dict_get "entities" (metadata message) with
               | Some (MStr _) => raise AttributeError
               | Some (MDict d) => ret d
               | None => ret []
               end = ret entities :> M _).
  { destruct (dict_get "entities" (metadata message)) as [[|]|];
      by simplify_eq. }
  rewrite Hd. clear Hd Hent. unfold ret at 1.
  change (py_or (py_get "Email" entities)
            (extract_email_from_text (content message)))
    with (email_from_current entities (content message)).
  change (py_or (py_get "OrderNumber" entities)
            (extract_order_number_from_text (content message)))
    with (order_from_current entities (content message)).
  generalize (email_from_current entities (content message)) as ec.
  generalize (order_from_current entities (content message)) as oc.
  generalize (content message) as query. clear message entities.
  intros query oc ec.
  unfold bind at 1, get_value at 1. unfold bind at 1, get_value at 1.
  cbn [state_manager].
  change (isdigit (strip query) || any_char is_digit query)
    with (has_digit query).
  rewrite <- (andb_assoc _ (str_in "@" query)).
  change (str_in "@" query && (length (split query) =? 1)%nat)
    with (standalone query).
  set (se := StateManager.get_value "email" sm).
  set (so := StateManager.get_value "order_number" sm).
  destruct (truthy ec) eqn:Hec, (truthy oc) eqn:Hoc; cbn [andb negb].
  - destruct (attempt_spec ec oc sm [] Hec) as (found & Hfound & ->).
    by apply case_both.
  - rewrite andb_false_r, andb_true_r.
    destruct (truthy so) eqn:Hso.
    + destruct (attempt_spec ec so sm [] Hec) as (found & Hfound & ->).
      by apply case_stored_order.
    + destruct (standalone query) eqn:Hst.
      * destruct (add_entry_ok "email" ec sm) as [sm' Hsm']; [discriminate|].
        unfold bind, add_entry, ret. cbn [state_manager calls].
        rewrite Hsm'. cbn. by apply case_store_email.
      * rewrite !andb_false_r. cbn [andb].
        unfold bind at 1, ret at 1. cbn [fst snd].
        unfold py_or. rewrite !Hec, !Hoc. fold so. rewrite !Hso. cbn.
        rewrite missing_reply_order by done.
        by apply case_email_not_stored.
  - rewrite andb_true_r, !andb_false_r.
    destruct (truthy se) eqn:Hse.
    + destruct (attempt_spec se oc sm [] Hse) as (found & Hfound & ->).
      by apply case_stored_email.
    + destruct (add_entry_ok "order_number" oc sm) as [sm' Hsm']; [discriminate|].
      unfold bind, add_entry, ret. cbn [state_manager calls].
      rewrite Hsm'. cbn. by apply case_store_order.
  - rewrite !andb_false_r, !andb_true_r.
    destruct (truthy se && has_digit query) eqn:Hinv.
    + apply andb_prop in Hinv as [Hse Hdig].
      cbn. by apply case_invalid_order.
    + destruct (truthy so) eqn:Hso.
      * cbn. by apply case_email_needed.
      * unfold bind at 1 2. rewrite extract_order_info_spec.
        unfold ret at 1. cbn [fst snd state_manager calls app].
        change (py_or ec (extraction query reply).1)
          with (if truthy ec then ec else (extraction query reply).1).
        change (py_or oc (extraction query reply).2)
          with (if truthy oc then oc else (extraction query reply).2).
        rewrite Hec, Hoc.
        destruct (truthy (py_or (extraction query reply).1 se)
                  && truthy (py_or (extraction query reply).2 so)) eqn:Hfin.
        -- apply andb_prop in Hfin as [Hfe Hfo].
           assert (py_or (extraction query reply).2 so
                   = (extraction query reply).2) as Hfo'.
           { unfold py_or in *.
             destruct (truthy (extraction query reply).2); [done|].
             congruence. }
           rewrite Hfo' in *.
           destruct (attempt_spec (py_or (extraction query reply).1 se)
                       (extraction query reply).2 sm [Extract query] Hfe)
             as (found & Hfound & ->).
           by apply case_extracted_both.
        -- cbn. by apply case_extracted_missing.
Qed.

Lemma process_failed (sm : StateManager.t) (message : Message)
  (reply : chat_result) :
  message_entities message = None →
  turn sm message reply = (reply_with lookup_error_msg, sm, []).
Proof.
  unfold message_entities, turn, OrderStatus.process, process_try.
  unfold bind at 1, entities_of.
  by destruct (dict_get "entities" (metadata message)) as [[|]|].
Qed.

(** Every turn is a row of the table, or the [except] branch. *)
Lemma turn_cases (sm : StateManager.t) (message : Message)
  (reply : chat_result) :
  (message_entities message = None
   ∧ turn sm message reply = (reply_with lookup_error_msg, sm, []))
  ∨ (∃ entities,
       message_entities message = Some entities
       ∧ turn_case sm (content message)
           (email_from_current entities (content message))
           (order_from_current entities (content message)) reply
           (turn sm message reply)).
Proof.
  destruct (message_entities message) as [entities|] eqn:Hent.
  - right. exists entities. split; [done|]. by apply process_table.
  - left. split; [done|]. by apply process_failed.
Qed.

(** *** Sessions *)

(** What is seen of one turn of a session. *)
Record step : Type := {
  before : StateManager.t;
  received : Message;
  response : Message;
  after : StateManager.t;
  made : list event
}.

Definition step_of (sm : StateManager.t) (message : Message)
  (reply : chat_result) : step :=
  let result := turn sm message reply in
  {| before := sm; received := message; response := result.1.1;
     after := result.1.2; made := result.2 |}.

(** The turns of a session that starts with the state manager [sm]. *)
Fixpoint session (sm : StateManager.t)
  (turns : list (Message * chat_result)) : list step :=
  match turns with
  | [] => []
  | (message, reply) :: rest =>
      let s := step_of sm message reply in
      s :: session (after s) rest
  end.

Definition found_in (evs : list event) : Prop :=
  ∃ e o ord, Lookup e o (Some ord) ∈ evs.
Definition not_found_in (evs : list event) : Prop :=
  ∃ e o, Lookup e o None ∈ evs.

(** A turn that fails on the format of the input: something is stored,
    nothing is resolved, and the stored value is the order number, or it
    is the email and the input has a digit. *)
Definition format_failure (sm : StateManager.t) (message : Message)
  : Prop :=
  ∃ entities,
    message_entities message = Some entities
    ∧ truthy (email_from_current entities (content message)) = false
    ∧ truthy (order_from_current entities (content message)) = false
    ∧ ((truthy (StateManager.get_value "email" sm) = true
        ∧ has_digit (content message) = true)
       ∨ truthy (StateManager.get_value "order_number" sm) = true).

(** The state manager holds nothing: no entry, and no cached Markdown. *)
Definition emptied (sm : StateManager.t) : Prop :=
  StateManager._state sm = [] ∧ StateManager._state_md sm = None.

(** The state manager [sm'] is [sm] with one more [add_entry], of a
    non-empty value. *)
Definition one_added (sm sm' : StateManager.t) : Prop :=
  ∃ key value,
    truthy value = true ∧ StateManager.add_entry key value sm = Ok sm'.

Definition clear_iff_found (s : step) : Prop :=
  (Clear ∈ made s ↔ found_in (made s))
  ∧ (found_in (made s) → emptied (after s))
  ∧ (¬ found_in (made s) →
     after s = before s ∨ one_added (before s) (after s))
  ∧ (StateManager._state (before s) ≠ [] →
     (StateManager._state (after s) = [] ↔ found_in (made s)))
  ∧ (not_found_in (made s) → after s = before s)
  ∧ (format_failure (before s) (received s) →
     after s = before s ∧ made s = []).

Ltac list_mem :=
  repeat match goal with
         | H : _ ∈ [] |- _ => by apply elem_of_nil in H
         | H : _ ∈ _ :: _ |- _ =>
             apply elem_of_cons in H as [H|H]; [try discriminate H|]
         | H : _ ∈ _ ++ _ |- _ => apply elem_of_app in H as [H|H]
         end.

Lemma attempt_clear_iff_found (pre : list event) (e o : pyval)
  (found : option order) (sm : StateManager.t) :
  pre = [] ∨ (∃ q, pre = [Extract q]) →
  let result := attempt pre e o found sm in
  (Clear ∈ result.2 ↔ found_in result.2)
  ∧ (Clear ∈ result.2 → result.1.2 = StateManager.clear_state sm)
  ∧ (not_found_in result.2 → result.1.2 = sm).
Proof.
  intros Hpre. unfold attempt, found_in, not_found_in.
  destruct found as [ord|]; cbn [fst snd]; (split; [split|split]).
  - intros _. exists e, o, ord. rewrite elem_of_app. right. by left.
  - intros _. rewrite elem_of_app. right. right. by left.
  - done.
  - intros (e' & o' & Hin).
    destruct Hpre as [->|[q ->]]; simpl in Hin; list_mem.
  - intros Hin. destruct Hpre as [->|[q ->]]; simpl in Hin; list_mem.
  - intros (e' & o' & ord & Hin).
    destruct Hpre as [->|[q ->]]; simpl in Hin; list_mem.
  - intros Hin. destruct Hpre as [->|[q ->]]; simpl in Hin; list_mem.
  - done.
Qed.

Lemma quiet_clear_iff_found (r : Message) (sm sm' : StateManager.t)
  (evs : list event) :
  (∀ e, e ∈ evs → (∃ k v, e = Store k v) ∨ (∃ q, e = Extract q)) →
  (Clear ∈ evs ↔ found_in evs)
  ∧ (Clear ∈ evs → sm' = StateManager.clear_state sm)
  ∧ (not_found_in evs → sm' = sm).
Proof.
  intros Hq. unfold found_in, not_found_in. repeat split.
  - intros [(k & v & ?)|(q & ?)]%Hq; discriminate.
  - intros (e & o & ord & [(k & v & ?)|(q & ?)]%Hq); discriminate.
  - intros [(k & v & ?)|(q & ?)]%Hq; discriminate.
  - intros (e & o & [(k & v & ?)|(q & ?)]%Hq); discriminate.
Qed.

Lemma step_effects (sm : StateManager.t) (message : Message)
  (reply : chat_result) :
  let result := turn sm message reply in
  (Clear ∈ result.2 ↔ found_in result.2)
  ∧ (Clear ∈ result.2 → result.1.2 = StateManager.clear_state sm)
  ∧ (not_found_in result.2 → result.1.2 = sm).
Proof.
  destruct (turn_cases sm message reply)
    as [[Hent ->]|(entities & Hent & Hcase)].
  { apply (quiet_clear_iff_found (reply_with "")). intros e He.
    cbn [snd] in He. list_mem. }
  destruct Hcase;
    try (apply attempt_clear_iff_found; by eauto);
    apply (quiet_clear_iff_found (reply_with "")); intros e He;
    cbn [snd] in He; list_mem; subst e; eauto.
Qed.

Lemma step_format_failure (sm : StateManager.t) (message : Message)
  (reply : chat_result) :
  format_failure sm message →
  let result := turn sm message reply in
  result.1.2 = sm ∧ result.2 = [].
Proof.
  intros (entities & Hent & Hec & Hoc & Hstored).
  destruct (turn_cases sm message reply)
    as [[Hent' ->]|(entities' & Hent' & Hcase)]; [done|].
  rewrite Hent in Hent'. simplify_eq.
  destruct Hcase; try done; try congruence.
  all: destruct Hstored as [[Hse Hdigit]|Hso]; [|congruence].
  all: match goal with H : _ && _ = false |- _ => by rewrite Hse, Hdigit in H
       end.
Qed.

Lemma found_in_dec (evs : list event) : found_in evs ∨ ¬ found_in evs.
Proof.
  unfold found_in. induction evs as [|ev evs IH].
  - right. intros (e & o & ord & Hin). by apply elem_of_nil in Hin.
  - destruct IH as [(e & o & ord & Hin)|Hno].
    + left. exists e, o, ord. by right.
    + destruct ev as [e o [ord|]| | |];
        try (right; intros (e' & o' & ord' & [Heq|Hin]%elem_of_cons);
             [discriminate Heq | apply Hno; eauto]).
      left. exists e, o, ord. by left.
Qed.

Lemma added_not_empty (key : string) (value : pyval)
  (sm sm' : StateManager.t) :
  StateManager.add_entry key value sm = Ok sm' →
  StateManager._state sm' ≠ [].
Proof.
  unfold StateManager.add_entry. destruct key; [done|]. intros [= <-].
  cbn [StateManager._state]. generalize (String a key) as k. intros k.
  by destruct (StateManager._state sm) as [|[k' v'] d]; simpl;
    [|destruct (String.eqb k' k)].
Qed.

(** what a turn does to the state manager, by the result of its lookup *)
Lemma step_store (sm : StateManager.t) (message : Message)
  (reply : chat_result) :
  let result := turn sm message reply in
  (found_in result.2 → emptied result.1.2)
  ∧ (¬ found_in result.2 → result.1.2 = sm ∨ one_added sm result.1.2).
Proof.
  assert (Hattempt : ∀ pre e o found,
            pre = [] ∨ (∃ q, pre = [Extract q]) →
            let result := attempt pre e o found sm in
            (found_in result.2 → emptied result.1.2)
            ∧ (¬ found_in result.2 →
               result.1.2 = sm ∨ one_added sm result.1.2)).
  { intros pre e o [ord|] Hpre; unfold attempt; cbn [fst snd]; split;
      try done.
    - intros Hno. destruct Hno. exists e, o, ord.
      rewrite elem_of_app. right. by left.
    - intros (e' & o' & ord' & Hin).
      destruct Hpre as [->|[q ->]]; simpl in Hin; list_mem.
    - by left. }
  assert (Hquiet : ∀ (sm' : StateManager.t) evs,
            (∀ e, e ∈ evs →
                  (∃ k v, e = Store k v) ∨ (∃ q, e = Extract q)) →
            sm' = sm ∨ one_added sm sm' →
            (found_in evs → emptied sm')
            ∧ (¬ found_in evs → sm' = sm ∨ one_added sm sm')).
  { intros sm' evs Hq Hsm'. split; [|done].
    intros (e & o & ord & [(k & v & ?)|(q & ?)]%Hq); discriminate. }
  destruct (turn_cases sm message reply)
    as [[Hent ->]|(entities & Hent & Hcase)].
  { apply Hquiet; [|by left]. intros e He. cbn [snd] in He. list_mem. }
  destruct Hcase; try (apply Hattempt; by eauto); cbn [fst snd];
    apply Hquiet;
    try (intros e He; list_mem; subst e; by eauto);
    try (by left);
    right; eexists _, _; split; eassumption.
Qed.

(** C1. In every session, on every turn: [clear_state] is called exactly
    when the lookup of the turn found the order, and the state manager
    then holds nothing.  A turn whose lookup found no order, or that made
    no lookup, leaves the state manager as it was or adds one entry to it,
    so that a state manager that held something is empty after a turn
    exactly when the lookup found the order.  A turn whose lookup found
    nothing, and a turn that fails on the format of the input (which
    makes no call at all), leave the state manager as it was. *)
Theorem cleared_iff_found (sm : StateManager.t)
  (turns : list (Message * chat_result)) :
  Forall clear_iff_found (session sm turns).
Proof.
  revert sm. induction turns as [|[message reply] turns IH]; intros sm.
  - constructor.
  - simpl. constructor; [|apply IH].
    unfold clear_iff_found, step_of. cbn [before received after made].
    pose proof (step_effects sm message reply) as (Hiff & Hclear & Hnot).
    pose proof (step_store sm message reply) as [Hfound Hkept].
    pose proof (step_format_failure sm message reply) as Hformat.
    split; [done|]. split; [done|]. split; [done|].
    split; [|by split].
    intros Hheld. split; [|by intros [Hempty _]%Hfound].
    intros Hempty.
    destruct (found_in_dec (turn sm message reply).2) as [Hyes|Hno];
      [done|].
    destruct (Hkept Hno) as [Hsame|(key & value & _ & Hadd)].
    + by rewrite Hsame in Hempty.
    + by apply added_not_empty in Hadd.
Qed.




(** *** The state manager *)

Lemma dict_get_set (key : string) (value : pyval)
  (d : list (string * pyval)) :
  py_get key (dict_set key value d) = value.
Proof.
  unfold py_get. induction d as [|[k v] d IH]; simpl.
  - by rewrite String.eqb_refl.
  - destruct (String.eqb k key) eqn:E; simpl; rewrite E; [done|exact IH].
Qed.

Lemma dict_get_set_ne (key key' : string) (value : pyval)
  (d : list (string * pyval)) :
  key ≠ key' → py_get key' (dict_set key value d) = py_get key' d.
Proof.
  intros Hne. unfold py_get. induction d as [|[k v] d IH]; simpl.
  - apply String.eqb_neq in Hne. by rewrite Hne.
  - destruct (String.eqb k key) eqn:E; simpl.
    + apply String.eqb_eq in E as ->.
      apply String.eqb_neq in Hne. by rewrite Hne.
    + destruct (String.eqb k key'); [done|exact IH].
Qed.

Lemma get_after_add (key : string) (value : pyval)
  (sm sm' : StateManager.t) :
  StateManager.add_entry key value sm = Ok sm' →
  StateManager.get_value key sm' = value.
Proof.
  unfold StateManager.add_entry, StateManager.get_value.
  destruct key; [done|]. intros [= <-]. apply dict_get_set.
Qed.

Lemma get_after_add_ne (key key' : string) (value : pyval)
  (sm sm' : StateManager.t) :
  key ≠ key' →
  StateManager.add_entry key value sm = Ok sm' →
  StateManager.get_value key' sm' = StateManager.get_value key' sm.
Proof.
  unfold StateManager.add_entry, StateManager.get_value.
  intros Hne. destruct key; [done|]. intros [= <-].
  by apply dict_get_set_ne.
Qed.

(** *** The format-failure row *)

Lemma invalid_order_turn (sm : StateManager.t) (message : Message)
  (reply : chat_result) (entities : list (string * pyval)) :
  message_entities message = Some entities →
  truthy (email_from_current entities (content message)) = false →
  truthy (order_from_current entities (content message)) = false →
  truthy (StateManager.get_value "email" sm) = true →
  has_digit (content message) = true →
  turn sm message reply
  = (reply_with (invalid_order_msg (StateManager.get_value "email" sm)),
     sm, []).
Proof.
  intros Hent Hec Hoc Hse Hdigit.
  destruct (process_table sm message reply entities Hent);
    try congruence.
  all: match goal with
       | H : _ && _ = false |- _ => by rewrite Hse, Hdigit in H
       end.
Qed.

Lemma invalid_order_msg_has_email (a : string) :
  str_in a (invalid_order_msg (Some a)) = true.
Proof.
  unfold invalid_order_msg, fmt.
  apply StrFacts.str_in_app_r, StrFacts.str_in_app_r, StrFacts.str_in_here.
Qed.

Lemma invalid_order_msg_has_example (v : pyval) :
  str_in "#W001" (invalid_order_msg v) = true.
Proof.
  unfold invalid_order_msg.
  do 3 apply StrFacts.str_in_app_r. vm_compute. reflexivity.
Qed.

(** C2, as the code has it.  When the state manager holds a non-empty
    email, the turn resolves neither an email nor an order number, and
    the query has at least one digit, the turn makes no call (no lookup,
    no extraction), answers with the format-correction message, which
    contains the stored email as it is and the example #W001, and leaves
    the state manager, and so the stored email, as it was. *)
Theorem invalid_order_short_circuit (sm : StateManager.t)
  (message : Message) (reply : chat_result)
  (entities : list (string * pyval)) (a : string) :
  message_entities message = Some entities →
  StateManager.get_value "email" sm = Some a → a ≠ "" →
  truthy (email_from_current entities (content message)) = false →
  truthy (order_from_current entities (content message)) = false →
  has_digit (content message) = true →
  let result := turn sm message reply in
  result.2 = []
  ∧ content result.1.1 = invalid_order_msg (Some a)
  ∧ str_in a (content result.1.1) = true
  ∧ str_in "#W001" (content result.1.1) = true
  ∧ result.1.2 = sm
  ∧ StateManager.get_value "email" result.1.2 = Some a.
Proof.
  intros Hent Hse Ha Hec Hoc Hdigit.
  assert (Htr : truthy (StateManager.get_value "email" sm) = true).
  { rewrite Hse. by destruct a. }
  cbv zeta.
  rewrite (invalid_order_turn sm message reply entities) by done.
  rewrite Hse. cbn [fst snd content OrderStatus.reply_with].
  split; [done|]. split; [done|].
  split; [apply invalid_order_msg_has_email|].
  split; [apply invalid_order_msg_has_example|]. done.
Qed.

(** C3, on the code.  With "ethan.harris@example.com" stored and no
    entity from the coordinator, the query "677623" is answered with the
    format-correction message: it names the stored email and the example
    #W001, it does not contain "677623", and the email stays stored. *)
Theorem digits_only_reply_omits_input (reply : chat_result) :
  let sm :=
    StateManager.mk [("email", Some "ethan.harris@example.com")] None in
  let result := turn sm (query_message "677623" []) reply in
  content result.1.1 = invalid_order_msg (Some "ethan.harris@example.com")
  ∧ str_in "ethan.harris@example.com" (content result.1.1) = true
  ∧ str_in "#W001" (content result.1.1) = true
  ∧ str_in "677623" (content result.1.1) = false
  ∧ StateManager.get_value "email" result.1.2
    = Some "ethan.harris@example.com"
  ∧ result.2 = [].
Proof.
  cbv zeta.
  rewrite (invalid_order_turn _ _ reply []) by (by vm_compute).
  cbn [fst snd content OrderStatus.reply_with].
  repeat split; by vm_compute.
Qed.

(** *** Storing the email, then completing with the order number *)

Lemma store_email_turn (sm : StateManager.t) (message : Message)
  (reply : chat_result) (entities : list (string * pyval)) :
  message_entities message = Some entities →
  truthy (email_from_current entities (content message)) = true →
  truthy (order_from_current entities (content message)) = false →
  truthy (StateManager.get_value "order_number" sm) = false →
  standalone (content message) = true →
  ∃ sm',
    StateManager.add_entry "email"
      (email_from_current entities (content message)) sm = Ok sm'
    ∧ turn sm message reply
      = (reply_with
           (email_msg (email_from_current entities (content message))),
         sm',
         [Store "email" (email_from_current entities (content message))]).
Proof.
  intros Hent Hec Hoc Hso Hst.
  destruct (process_table sm message reply entities Hent);
    try congruence.
  by eexists.
Qed.

Lemma stored_email_turn (sm : StateManager.t) (message : Message)
  (reply : chat_result) (entities : list (string * pyval)) :
  message_entities message = Some entities →
  truthy (email_from_current entities (content message)) = false →
  truthy (order_from_current entities (content message)) = true →
  truthy (StateManager.get_value "email" sm) = true →
  ∃ found,
    find_in orders_data (StateManager.get_value "email" sm)
      (order_from_current entities (content message)) = Ok found
    ∧ turn sm message reply
      = attempt [] (StateManager.get_value "email" sm)
          (order_from_current entities (content message)) found sm.
Proof.
  intros Hent Hec Hoc Hse.
  destruct (process_table sm message reply entities Hent);
    try congruence.
  by eexists.
Qed.

Lemma email_msg_asks_for_order (v : pyval) :
  str_in "order number" (email_msg v) = true
  ∧ str_in "#W001" (email_msg v) = true.
Proof.
  unfold email_msg.
  split; do 4 apply StrFacts.str_in_app_r; by vm_compute.
Qed.

(** C4, as the code has it.  With an empty state manager, a turn that
    resolves an email and no order number, and whose query is a single
    word containing "@", stores the email, makes no lookup, and answers
    with a request for the order number that shows #W001.  A next turn
    that resolves an order number and no email attempts the lookup with
    the stored email and that order number. *)
Theorem standalone_email_then_order (sm : StateManager.t)
  (message : Message) (reply : chat_result)
  (entities : list (string * pyval)) :
  StateManager._state sm = [] →
  message_entities message = Some entities →
  truthy (email_from_current entities (content message)) = true →
  truthy (order_from_current entities (content message)) = false →
  standalone (content message) = true →
  let email := email_from_current entities (content message) in
  let result := turn sm message reply in
  StateManager.get_value "email" result.1.2 = email
  ∧ result.2 = [Store "email" email]
  ∧ content result.1.1 = email_msg email
  ∧ str_in "order number" (content result.1.1) = true
  ∧ str_in "#W001" (content result.1.1) = true
  ∧ ∀ message' reply' entities',
      message_entities message' = Some entities' →
      truthy (email_from_current entities' (content message')) = false →
      truthy (order_from_current entities' (content message')) = true →
      ∃ found,
        turn result.1.2 message' reply'
        = attempt [] email
            (order_from_current entities' (content message')) found
            result.1.2.
Proof.
  intros Hempty Hent Hec Hoc Hst email result.
  assert (Hso : truthy (StateManager.get_value "order_number" sm) = false).
  { unfold StateManager.get_value. by rewrite Hempty. }
  destruct (store_email_turn sm message reply entities)
    as (sm' & Hadd & Hturn); try done.
  subst result. rewrite Hturn. cbn [fst snd content OrderStatus.reply_with].
  fold email in Hadd |- *.
  pose proof (get_after_add _ _ _ _ Hadd) as Hget.
  pose proof (email_msg_asks_for_order email) as [Hask Hex].
  repeat split; try done.
  intros message' reply' entities' Hent' Hec' Hoc'.
  destruct (stored_email_turn sm' message' reply' entities')
    as (found & _ & Hturn'); try done.
  - by rewrite Hget.
  - exists found. by rewrite Hturn', Hget.
Qed.

(** *** Precedence of the sources *)

Lemma py_or_falsy (a b : pyval) :
  truthy (py_or a b) = false → truthy a = false ∧ truthy b = false.
Proof. unfold py_or. destruct (truthy a) eqn:E; [congruence | done]. Qed.

(** C8. On every turn each field is resolved from the coordinator's
    entities when they hold a non-empty value for it and from the pattern
    matched on the query otherwise.  The values so resolved are the ones
    the turn works with: a field that is resolved is the one every lookup
    of the turn is made with, the other one coming from the turn as well
    or, when the turn resolves none, from the state manager; they are the
    values that are stored; and the free-form extraction is called only
    when neither source yields a value for either field. *)
Theorem resolution_precedence (sm : StateManager.t) (message : Message)
  (reply : chat_result) (entities : list (string * pyval)) :
  message_entities message = Some entities →
  let query := content message in
  let email :=
    if truthy (py_get "Email" entities) then py_get "Email" entities
    else extract_email_from_text query in
  let order_number :=
    if truthy (py_get "OrderNumber" entities)
    then py_get "OrderNumber" entities
    else extract_order_number_from_text query in
  let stored_email := StateManager.get_value "email" sm in
  let stored_order := StateManager.get_value "order_number" sm in
  let result := turn sm message reply in
  (truthy email = true → truthy order_number = true →
   ∃ found, result = attempt [] email order_number found sm)
  ∧ (truthy email = false → truthy order_number = true →
     truthy stored_email = true →
     ∃ found, result = attempt [] stored_email order_number found sm)
  ∧ (truthy email = true → truthy order_number = false →
     truthy stored_order = true →
     ∃ found, result = attempt [] email stored_order found sm)
  ∧ (∀ e o found,
       Lookup e o found ∈ result.2 →
       (truthy email = true → e = email)
       ∧ (truthy order_number = true → o = order_number)
       ∧ (Extract query ∉ result.2 →
          e = (if truthy email then email else stored_email)
          ∧ o = (if truthy order_number then order_number
                 else stored_order)))
  ∧ (∀ key value,
       Store key value ∈ result.2 →
       (key = "email" ∧ value = email)
       ∨ (key = "order_number" ∧ value = order_number))
  ∧ (∀ q,
       Extract q ∈ result.2 →
       truthy (py_get "Email" entities) = false
       ∧ truthy (extract_email_from_text query) = false
       ∧ truthy (py_get "OrderNumber" entities) = false
       ∧ truthy (extract_order_number_from_text query) = false).
Proof.
  intros Hent query email order_number stored_email stored_order result.
  pose proof (process_table sm message reply entities Hent) as Hcase.
  change (email_from_current entities (content message)) with email
    in Hcase.
  change (order_from_current entities (content message))
    with order_number in Hcase.
  fold query in Hcase. fold result in Hcase.
  assert (Hfalsy : truthy email = false → truthy order_number = false →
                   truthy (py_get "Email" entities) = false
                   ∧ truthy (extract_email_from_text query) = false
                   ∧ truthy (py_get "OrderNumber" entities) = false
                   ∧ truthy (extract_order_number_from_text query) = false).
  { intros [? ?]%py_or_falsy [? ?]%py_or_falsy. done. }
  subst stored_email stored_order.
  clearbody result email order_number.
  destruct Hcase; repeat apply conj;
    try (intros; congruence);
    try (intros; by eexists);
    try (intros e o r Hin; cbn [snd] in Hin; unfold attempt in Hin;
         try destruct found; cbn [snd] in Hin; list_mem;
         try (injection Hin as -> -> ->);
         repeat apply conj; intros;
         repeat match goal with
                | H : truthy ?x = _ |- context [truthy ?x] => rewrite H
                end;
         try congruence; try done;
         by match goal with
            | H : Extract ?q ∉ _ |- _ =>
                destruct H; rewrite ?elem_of_app, ?elem_of_cons; auto
            end);
    try (intros key value Hin; cbn [snd] in Hin; unfold attempt in Hin;
         try destruct found; cbn [snd] in Hin; list_mem;
         injection Hin as -> ->; by auto);
    try (intros q Hin; cbn [snd] in Hin; unfold attempt in Hin;
         try destruct found; cbn [snd] in Hin; list_mem; by auto).
  intros e o r Hin. split; [congruence|]. split; [congruence|].
  intros Hno. destruct Hno. unfold attempt.
  destruct found; cbn [snd]; apply elem_of_app; left; by left.
Qed.

(** *** A model call that fails *)

(** the text [json.loads] is given for a reply *)
Definition json_candidate (response_text : string) : option string :=
  if startswith "{" response_text && endswith "}" response_text
  then Some response_text
  else search json_pattern response_text.

(** The model call failed, or no JSON can be read from what it returned. *)
Definition model_failed (reply : chat_result) : Prop :=
  match reply with
  | ChatRaise => True
  | ChatReply false _ => True
  | ChatReply true None => True
  | ChatReply true (Some response_text) =>
      match json_candidate response_text with
      | None => True
      | Some text => json_loads text = None
      end
  end.

Lemma extraction_failed (query : string) (reply : chat_result) :
  model_failed reply → extraction query reply = (None, None).
Proof.
  unfold model_failed, json_candidate, extraction, extract_order_info,
    catch, bind, emit.
  destruct reply as [|[] [text|]]; try done.
  unfold item, loads, ret, raise. cbn [state_manager calls].
  destruct (_ && _).
  - by intros ->.
  - destruct (search json_pattern text); [|done]. by intros ->.
Qed.

(** C9. When the model call fails or returns nothing a JSON object can
    be read from, [extract_order_info] returns [(None, None)] and raises
    nothing; a turn that called it ends with a response, makes no
    lookup, leaves the state manager as it was, and answers from the
    stored values alone. *)
Theorem failed_extraction_degrades (sm : StateManager.t)
  (message : Message) (reply : chat_result) (w : world) :
  model_failed reply →
  extract_order_info json_loads (content message) reply w
  = (Ok (None, None),
     {| state_manager := state_manager w;
        calls := calls w ++ [Extract (content message)] |})
  ∧ ((∃ q, Extract q ∈ (turn sm message reply).2) →
     turn sm message reply
     = (missing_reply name (StateManager.get_value "email" sm)
          (StateManager.get_value "order_number" sm),
        sm, [Extract (content message)])).
Proof.
  intros Hfailed. split.
  { rewrite extract_order_info_spec. by rewrite extraction_failed. }
  intros [q Hin].
  destruct (turn_cases sm message reply)
    as [[Hent Hturn]|(entities & Hent & Hcase)].
  { rewrite Hturn in Hin. cbn [snd] in Hin. list_mem. }
  destruct Hcase as [found| found | found | sm' | sm' | | | found | | ];
    try (unfold attempt in Hin; try destruct found; cbn [snd] in Hin;
         by list_mem).
  - subst final_email final_order.
    match goal with
    | H : truthy (extraction _ _).2 = true |- _ =>
        by rewrite extraction_failed in H
    end.
  - subst final_email final_order.
    by rewrite extraction_failed.
Qed.

(** *** Reference tokens *)

Lemma text_order_shape (entities : list (string * pyval)) (query : string) :
  truthy (py_get "OrderNumber" entities) = false →
  truthy (order_from_current entities query) = true →
  order_shape (order_from_current entities query).
Proof.
  unfold order_from_current, py_or. intros ->.
  destruct (extract_order_number_shape query) as [->|H]; [done|].
  done.
Qed.

(** The local extractor returns nothing or [#W] followed by one or more
    digits.  On a turn whose entities hold
    no order number and whose free-form extraction yields none, if the
    stored order number (if any) has that shape, so have the order
    number of every lookup made and the order number stored after the
    turn. *)
Theorem local_tokens_prefixed (sm : StateManager.t) (message : Message)
  (reply : chat_result) (entities : list (string * pyval)) :
  message_entities message = Some entities →
  truthy (py_get "OrderNumber" entities) = false →
  truthy (extraction (content message) reply).2 = false →
  (truthy (StateManager.get_value "order_number" sm) = true →
   order_shape (StateManager.get_value "order_number" sm)) →
  let result := turn sm message reply in
  (∀ text,
     extract_order_number_from_text text = None
     ∨ order_shape (extract_order_number_from_text text))
  ∧ (∀ e o found, Lookup e o found ∈ result.2 → order_shape o)
  ∧ (truthy (StateManager.get_value "order_number" result.1.2) = true →
     order_shape (StateManager.get_value "order_number" result.1.2)).
Proof.
  intros Hent Hno Hllm Hstored result.
  split; [apply extract_order_number_shape|].
  pose proof (text_order_shape entities (content message) Hno) as Htext.
  pose proof (process_table sm message reply entities Hent) as Hcase.
  fold result in Hcase. clearbody result.
  destruct Hcase as [found| found | found | sm' | sm' | | | found | | ];
    try (split; [intros e o r Hin; cbn [snd] in Hin; list_mem | by auto]).
  1-3: split;
    [ intros e o r Hin; unfold attempt in Hin; destruct found;
      cbn [snd] in Hin; list_mem; injection Hin as -> -> ->; by auto
    | unfold attempt; destruct found; cbn [fst snd]; by auto ].
  - split; [intros e o r Hin; cbn [snd] in Hin; list_mem|].
    cbn [fst snd].
    rewrite (get_after_add_ne "email" "order_number" _ sm sm') by done.
    done.
  - split; [intros e o r Hin; cbn [snd] in Hin; list_mem|].
    cbn [fst snd]. rewrite (get_after_add "order_number" _ sm sm') by done.
    done.
  - subst final_order. congruence.
Qed.

End Agent.

(** *** A shop, and sessions in it *)

Definition john : order :=
  {| Email := "john.doe@example.com"; OrderNumber := "#W001";
     Status := Some "delivered"; TrackingNumber := Some "TRK123456789";
     CustomerName := Some "John Doe";
     ProductsOrdered := ["SOBP001"; "SOWB004"] |}.

Definition ethan : order :=
  {| Email := "ethan.harris@example.com"; OrderNumber := "#W007";
     Status := Some "fulfilled"; TrackingNumber := None;
     CustomerName := Some "Ethan Harris";
     ProductsOrdered := ["SOBP001"; "SOSB006"] |}.

Definition shop_orders : list order := [john; ethan].

Definition dq : string := String (ascii_of_nat 34) EmptyString.

(** the JSON object with the member [order_number] set to [#W001] *)
Definition order_json : string :=
  "{" +:+ dq +:+ "order_number" +:+ dq +:+ ": "
  +:+ dq +:+ "#W001" +:+ dq +:+ "}".

(** [json.loads], on that text and on texts that are not JSON *)
Definition loads_one (text : string) : option (list (string * pyval)) :=
  if String.eqb text order_json
  then Some [("order_number", Some "#W001")]
  else None.

Definition agent_turn :=
  turn "OrderStatusAgent" shop_orders loads_one.

Definition ask (query : string) (entities : list (string * pyval))
  : Message :=
  query_message "OrderStatusAgent" query entities.

Definition holding_email (email : string) : StateManager.t :=
  StateManager.mk [("email", Some email)] None.

(** The flows of the repository's tests, on the model. *)

Definition replies (turns : list (Message * chat_result)) : list string :=
  map (fun s => content (response s))
    (session "OrderStatusAgent" shop_orders loads_one StateManager.init
       turns).

Definition silent : chat_result := ChatReply false None.

Example both_at_once :
  let reply :=
    nth 0 (replies [(ask "Check order #W001 for john.doe@example.com" [],
                     silent)]) "" in
  forallb (fun part => str_in part reply)
    ["John Doe"; "#W001"; "john.doe@example.com"; "Delivered"; "SOBP001";
     "SOWB004"; "TRK123456789"] = true.
Proof. by vm_compute. Qed.

Example email_then_order :
  let flow :=
    replies [(ask "ethan.harris@example.com" [], silent);
             (ask "#W007" [], silent)] in
  forallb (fun part => str_in part (nth 0 flow ""))
    ["ethan.harris@example.com"; "order number"; "#W001"] = true
  ∧ forallb (fun part => str_in part (nth 1 flow ""))
      ["Ethan Harris"; "#W007"; "ethan.harris@example.com"; "Fulfilled";
       "SOBP001"; "SOSB006"] = true.
Proof. by vm_compute. Qed.

Example order_then_email :
  let flow :=
    replies [(ask "#W007" [], silent);
             (ask "not-an-email" [], silent);
             (ask "ethan.harris@example.com" [], silent)] in
  str_in "#W007" (nth 0 flow "") = true
  ∧ forallb (fun part => str_in part (nth 1 flow ""))
      ["#W007"; "email address"] = true
  ∧ forallb (fun part => str_in part (nth 2 flow ""))
      ["Ethan Harris"; "#W007"; "Fulfilled"] = true.
Proof. by vm_compute. Qed.

Example not_found_keeps_email :
  let flow :=
    replies [(ask "ethan.harris@example.com" [], silent);
             (ask "#W999" [], silent);
             (ask "#W007" [], silent)] in
  forallb (fun part => str_in part (nth 1 flow ""))
    ["ethan.harris@example.com"; "#W999"; "couldn't find"; "double-check"]
  = true
  ∧ str_in "Ethan Harris" (nth 2 flow "") = true.
Proof. by vm_compute. Qed.

Example order_without_hash :
  let flow :=
    replies [(ask "john.doe@example.com" [], silent);
             (ask "W001" [], silent)] in
  forallb (fun part => str_in part (nth 1 flow ""))
    ["John Doe"; "#W001"; "Delivered"] = true.
Proof. by vm_compute. Qed.

Example general_inquiry :
  let flow := replies [(ask "order" [], silent)] in
  forallb (fun part => str_in part (lower (nth 0 flow "")))
    ["email"; "order number"; "#w001"] = true.
Proof. by vm_compute. Qed.

(** A session with a stored email, a not-found lookup, a format failure
    and a found lookup: the state manager is emptied by the last turn
    only. *)
Example clearing_session :
  let steps :=
    session "OrderStatusAgent" shop_orders loads_one StateManager.init
      [ (ask "ethan.harris@example.com" [], silent);
        (ask "#W999" [], silent);
        (ask "677623" [], silent);
        (ask "#W007" [], silent) ] in
  map (fun s => StateManager._state (after s)) steps
  = [ [("email", Some "ethan.harris@example.com")];
      [("email", Some "ethan.harris@example.com")];
      [("email", Some "ethan.harris@example.com")];
      [] ]
  ∧ map made steps
    = [ [Store "email" (Some "ethan.harris@example.com")];
        [Lookup (Some "ethan.harris@example.com") (Some "#W999") None];
        [];
        [Lookup (Some "ethan.harris@example.com") (Some "#W007")
           (Some ethan);
         Clear] ].
Proof. by vm_compute. Qed.

Lemma invalid_order_short_circuit_witness :
  let result :=
    agent_turn (holding_email "ethan.harris@example.com")
      (ask "677623" []) (ChatReply false None) in
  result.2 = []
  ∧ content result.1.1
    = invalid_order_msg (Some "ethan.harris@example.com")
  ∧ str_in "ethan.harris@example.com" (content result.1.1) = true
  ∧ str_in "#W001" (content result.1.1) = true
  ∧ result.1.2 = holding_email "ethan.harris@example.com"
  ∧ StateManager.get_value "email" result.1.2
    = Some "ethan.harris@example.com".
Proof.
  apply (invalid_order_short_circuit "OrderStatusAgent" shop_orders
           loads_one (holding_email "ethan.harris@example.com")
           (ask "677623" []) (ChatReply false None) []
           "ethan.harris@example.com");
    [reflexivity | reflexivity | discriminate
    | vm_compute; reflexivity | vm_compute; reflexivity
    | vm_compute; reflexivity].
Defined.

(** C2 fails without the digit: with an email stored, a query that has
    no email, no order number and no digit goes on to the free-form
    extraction; when this returns an order number the lookup is made (and,
    the order being found, the state manager is cleared), and when it
    fails the answer is not a format correction: it shows no example. *)
Lemma no_digit_query_reaches_lookup :
  let sm := holding_email "john.doe@example.com" in
  let query := "the order number is W zero zero one" in
  StateManager.get_value "email" sm = Some "john.doe@example.com"
  ∧ email_from_current [] query = None
  ∧ order_from_current [] query = None
  ∧ agent_turn sm (ask query []) (ChatReply true (Some order_json))
    = (reply_with "OrderStatusAgent"
         (status_message john (Some "john.doe@example.com")
            (Some "#W001")),
       StateManager.init,
       [ Extract query;
         Lookup (Some "john.doe@example.com") (Some "#W001") (Some john);
         Clear ])
  ∧ agent_turn sm (ask query []) (ChatReply false None)
    = (reply_with "OrderStatusAgent"
         (missing_order_msg (Some "john.doe@example.com")),
       sm, [Extract query])
  ∧ str_in "#W001" (missing_order_msg (Some "john.doe@example.com"))
    = false.
Proof. vm_compute. repeat split. Qed.

Lemma standalone_email_then_order_witness :
  let result :=
    agent_turn StateManager.init (ask "ethan.harris@example.com" [])
      (ChatReply false None) in
  StateManager.get_value "email" result.1.2
  = Some "ethan.harris@example.com"
  ∧ result.2 = [Store "email" (Some "ethan.harris@example.com")]
  ∧ ∃ found,
      agent_turn result.1.2 (ask "#W007" []) (ChatReply false None)
      = attempt "OrderStatusAgent" [] (Some "ethan.harris@example.com")
          (Some "#W007") found result.1.2.
Proof.
  destruct (standalone_email_then_order "OrderStatusAgent" shop_orders
              loads_one StateManager.init
              (ask "ethan.harris@example.com" []) (ChatReply false None) [])
    as (Hget & Hmade & _ & _ & _ & Hnext);
    [reflexivity | reflexivity | vm_compute; reflexivity
    | vm_compute; reflexivity | vm_compute; reflexivity |].
  split; [exact Hget|]. split; [exact Hmade|].
  apply (Hnext (ask "#W007" []) (ChatReply false None) []);
    [reflexivity | vm_compute; reflexivity | vm_compute; reflexivity].
Defined.

(** C4 fails for an email inside a sentence: the email is resolved and
    echoed, but it is not stored and no example is shown. *)
Lemma email_in_sentence_not_stored :
  let query := "my email is john.doe@example.com" in
  StateManager._state StateManager.init = []
  ∧ email_from_current [] query = Some "john.doe@example.com"
  ∧ order_from_current [] query = None
  ∧ agent_turn StateManager.init (ask query []) (ChatReply false None)
    = (reply_with "OrderStatusAgent"
         (missing_order_msg (Some "john.doe@example.com")),
       StateManager.init, [])
  ∧ str_in "#W001" (missing_order_msg (Some "john.doe@example.com"))
    = false.
Proof. vm_compute. repeat split. Qed.

Lemma resolution_precedence_witness :
  extract_email_from_text "Check #W007 for ethan.harris@example.com"
  = Some "ethan.harris@example.com"
  ∧ extract_order_number_from_text
      "Check #W007 for ethan.harris@example.com" = Some "#W007"
  ∧ ∃ found,
      agent_turn StateManager.init
        (ask "Check #W007 for ethan.harris@example.com"
           [("Email", Some "john.doe@example.com");
            ("OrderNumber", Some "#W001")])
        silent
      = attempt "OrderStatusAgent" [] (Some "john.doe@example.com")
          (Some "#W001") found StateManager.init.
Proof.
  split; [reflexivity|]. split; [reflexivity|].
  destruct (resolution_precedence "OrderStatusAgent" shop_orders loads_one
              StateManager.init
              (ask "Check #W007 for ethan.harris@example.com"
                 [("Email", Some "john.doe@example.com");
                  ("OrderNumber", Some "#W001")])
              silent
              [("Email", Some "john.doe@example.com");
               ("OrderNumber", Some "#W001")]
              eq_refl) as (Hboth & _).
  apply Hboth; reflexivity.
Defined.

Lemma failed_extraction_degrades_witness :
  extract_order_info loads_one "order" silent
    {| state_manager := StateManager.init; calls := [] |}
  = (Ok (None, None),
     {| state_manager := StateManager.init; calls := [Extract "order"] |})
  ∧ agent_turn StateManager.init (ask "order" []) silent
    = (reply_with "OrderStatusAgent" instructions_msg, StateManager.init,
       [Extract "order"]).
Proof.
  destruct (failed_extraction_degrades "OrderStatusAgent" shop_orders
              loads_one StateManager.init (ask "order" []) silent
              {| state_manager := StateManager.init; calls := [] |} I)
    as [Hextract Hturn].
  split; [exact Hextract|].
  apply Hturn. exists "order". vm_compute. constructor.
Defined.

Lemma local_tokens_prefixed_witness :
  order_shape
    (StateManager.get_value "order_number"
       (agent_turn StateManager.init (ask "W001" []) (ChatReply false None))
       .1.2).
Proof.
  destruct (local_tokens_prefixed "OrderStatusAgent" shop_orders loads_one
              StateManager.init (ask "W001" []) (ChatReply false None) [])
    as (_ & _ & Hstored);
    [reflexivity | reflexivity | vm_compute; reflexivity
    | vm_compute; discriminate |].
  apply Hstored. vm_compute. reflexivity.
Defined.

(** C10, on the code.  The local extractor turns [W001] into [#W001],
    but an order number that comes with the coordinator's entities is
    used as it is.  With "john.doe@example.com" stored, the query "W001"
    whose entities hold the order number "W001" is looked up without the
    [#]: the order #W001 of the customer is not found, and the reply is
    the not-found message.  The same query without the entity finds the
    order. *)
Theorem entity_order_number_not_normalized (reply : chat_result) :
  let sm := holding_email "john.doe@example.com" in
  let result :=
    agent_turn sm (ask "W001" [("OrderNumber", Some "W001")]) reply in
  let by_text := agent_turn sm (ask "W001" []) reply in
  extract_order_number_from_text "W001" = Some "#W001"
  ∧ result.2 = [Lookup (Some "john.doe@example.com") (Some "W001") None]
  ∧ content result.1.1
    = not_found_msg (Some "john.doe@example.com") (Some "W001")
  ∧ str_in "John Doe" (content result.1.1) = false
  ∧ str_in "#W001, #W002" (content result.1.1) = true
  ∧ by_text.2
    = [Lookup (Some "john.doe@example.com") (Some "#W001") (Some john);
       Clear]
  ∧ str_in "John Doe" (content by_text.1.1) = true.
Proof. vm_compute. repeat split. Qed.

End OrderProps.

(** ** More on strings and patterns *)

Module TextFacts.
Import PyStr Re.

Lemma append_assoc (a b c : string) : (a +:+ b) +:+ c = a +:+ (b +:+ c).
Proof.
  induction a as [|x a IH]; [done|].
  change ((String x a +:+ b) +:+ c) with (String x ((a +:+ b) +:+ c)).
  by rewrite IH.
Qed.

Lemma startswith_prefix (x s : string) :
  startswith x s = true ↔ ∃ q, s = x +:+ q.
Proof.
  split.
  - revert s. induction x as [|c x IH]; intros s; [by exists s|].
    destruct s as [|d s]; simpl; [done|].
    intros [Hc Hx]%andb_prop. apply Ascii.eqb_eq in Hc as <-.
    destruct (IH s Hx) as [q ->]. by exists q.
  - intros [q ->]. apply StrFacts.startswith_app.
Qed.

(** [x in s] holds exactly when [s] is [x] between two texts. *)
Lemma str_in_spec (x s : string) :
  str_in x s = true ↔ ∃ p q, s = p +:+ x +:+ q.
Proof.
  split.
  - induction s as [|c s IH]; rewrite StrFacts.str_in_unfold.
    + rewrite orb_false_r. intros [q Hq]%startswith_prefix.
      by exists EmptyString, q.
    + intros [[q Hq]%startswith_prefix|Hin]%orb_prop.
      * by exists EmptyString, q.
      * destruct (IH Hin) as (p & q & ->). by exists (String c p), q.
  - intros (p & q & ->). apply StrFacts.str_in_app_r, StrFacts.str_in_here.
Qed.

Lemma str_in_trans (x y s : string) :
  str_in x y = true → str_in y s = true → str_in x s = true.
Proof.
  intros (p & q & ->)%str_in_spec (p' & q' & ->)%str_in_spec.
  apply str_in_spec. exists (p' +:+ p), (q +:+ q').
  by rewrite !append_assoc.
Qed.

Lemma str_in_app_left (x p s : string) :
  str_in x p = true → str_in x (p +:+ s) = true.
Proof.
  intros (a & b & ->)%str_in_spec. apply str_in_spec.
  exists a, (b +:+ s). by rewrite !append_assoc.
Qed.

Lemma str_in_refl (x : string) : str_in x x = true.
Proof.
  apply str_in_spec. exists EmptyString, EmptyString.
  by rewrite StrFacts.append_empty.
Qed.

Lemma startswith_app_left (x p s : string) :
  startswith x p = true → startswith x (p +:+ s) = true.
Proof.
  intros [q ->]%startswith_prefix. apply startswith_prefix.
  exists (q +:+ s). by rewrite append_assoc.
Qed.

(** The last character read: [prev] before [s], or the last one of [s]. *)
Fixpoint last_char (prev : option ascii) (s : string) : option ascii :=
  match s with
  | EmptyString => prev
  | String c s' => last_char (Some c) s'
  end.

Definition stops (p : ascii -> bool) (rest : string) : Prop :=
  match rest with
  | EmptyString => True
  | String c _ => p c = false
  end.

(** A repetition reads a whole run of its class when the rest of the
    pattern matches after the run. *)
Lemma rep_run (p : ascii -> bool)
  (k : option ascii -> string -> option string) (run rest m' : string) :
  ∀ (n : nat) (prev : option ascii),
    all_chars p run = true → (n ≤ String.length run)%nat →
    stops p rest →
    k (last_char prev run) rest = Some m' →
    rep p k n prev (run +:+ rest) = Some (run +:+ m').
Proof.
  induction run as [|c run IH]; intros n prev Hall Hlen Hstop Hk.
  - simpl in Hlen. assert (n = 0%nat) as -> by lia.
    change ("" +:+ rest) with rest. change ("" +:+ m') with m'.
    simpl in Hk. destruct rest as [|d rest]; simpl; [done|].
    simpl in Hstop. by rewrite Hstop.
  - simpl in Hall. apply andb_prop in Hall as [Hc Hall].
    change (String c run +:+ rest) with (String c (run +:+ rest)).
    change (String c run +:+ m') with (String c (run +:+ m')).
    cbn [rep]. rewrite Hc.
    rewrite (IH (Nat.pred n) (Some c)); try done.
    simpl in Hlen. lia.
Qed.

(** A repetition splits the text it is given. *)
Lemma rep_split (p : ascii -> bool)
  (k : option ascii -> string -> option string) (s : string) :
  ∀ (n : nat) (prev : option ascii) (m : string),
    rep p k n prev s = Some m →
    ∃ run rest prev' m',
      s = run +:+ rest ∧ m = run +:+ m' ∧ all_chars p run = true
      ∧ (n ≤ String.length run)%nat ∧ k prev' rest = Some m'.
Proof.
  induction s as [|c s IH]; intros n prev m; simpl.
  - destruct n; [|done]. intros Hk.
    exists EmptyString, EmptyString, prev, m. by repeat split.
  - assert (Hstop : match n with
                    | O => k prev (String c s)
                    | S _ => None
                    end = Some m →
                    ∃ run rest prev' m',
                      String c s = run +:+ rest ∧ m = run +:+ m'
                      ∧ all_chars p run = true
                      ∧ (n ≤ String.length run)%nat
                      ∧ k prev' rest = Some m').
    { destruct n; [|done]. intros Hk.
      exists EmptyString, (String c s), prev, m. by repeat split. }
    destruct (p c) eqn:Hpc; [|done].
    destruct (rep p k (Nat.pred n) (Some c) s) as [t|] eqn:Hrep; simpl;
      [|done].
    intros [= <-].
    destruct (IH _ _ _ Hrep)
      as (run & rest & prev' & m' & -> & -> & Hall & Hlen & Hk).
    exists (String c run), rest, prev', m'. simpl. rewrite Hpc, Hall.
    repeat split; [lia|done].
Qed.

(** What a pattern matches at a place is the beginning of the text there. *)
Lemma match_here_prefix (r : list atom) :
  ∀ prev s m, match_here r prev s = Some m → ∃ q, s = m +:+ q.
Proof.
  induction r as [|a r IH]; intros prev s m.
  - intros [= <-]. by exists s.
  - destruct a as [p|p n|].
    + simpl. destruct s as [|c s]; [done|]. destruct (p c); [|done].
      intros (t & Ht & ->)%StrFacts.cons_match_some.
      destruct (IH _ _ _ Ht) as [q ->]. by exists q.
    + intros (run & rest & prev' & m' & -> & -> & _ & _ & Hk)%rep_split.
      destruct (IH _ _ _ Hk) as [q ->]. exists q.
      by rewrite append_assoc.
    + intros Hm%StrFacts.wordb_sound. eauto.
Qed.

(** What [search] returns occurs in the text searched. *)
Lemma search_occurs (r : list atom) (s m : string) :
  search r s = Some m → str_in m s = true.
Proof.
  unfold search. generalize (@None ascii) as prev.
  induction s as [|c s IH]; intros prev; cbn [search_from].
  - destruct (match_here r prev EmptyString) as [t|] eqn:E; [|done].
    intros [= <-]. apply match_here_prefix in E as [q Hq].
    apply str_in_spec. by exists EmptyString, q.
  - destruct (match_here r prev (String c s)) as [t|] eqn:E.
    + intros [= <-]. apply match_here_prefix in E as [q Hq].
      apply str_in_spec. by exists EmptyString, q.
    + intros Hs%IH. apply (StrFacts.str_in_app_r m (String c "") s Hs).
Qed.

(** The search goes on after a place where the pattern does not match. *)
Lemma search_from_skip (r : list atom) (prev : option ascii) (c : ascii)
  (s : string) :
  match_here r prev (String c s) = None →
  search_from r prev (String c s) = search_from r (Some c) s.
Proof. intros H. simpl. by rewrite H. Qed.

Lemma search_from_here (r : list atom) (prev : option ascii)
  (s m : string) :
  match_here r prev s = Some m → search_from r prev s = Some m.
Proof. intros H. destruct s; simpl; by rewrite H. Qed.

(** A pattern that begins with a character does not match where the
    text has another one. *)
Lemma lit_miss (a : ascii) (r : list atom) (prev : option ascii)
  (c : ascii) (s : string) :
  Ascii.eqb a c = false →
  match_here (lit a :: r) prev (String c s) = None.
Proof.
  intros H.
  change (match_here (lit a :: r) prev (String c s))
    with (if Ascii.eqb a c
          then cons_match c (match_here r (Some c) s) else None).
  by rewrite H.
Qed.

End TextFacts.

(** ** The state manager *)

Module StateProps.
Import PyStr Py.

(** What a session does with its state manager; an [add_entry] that
    raises leaves the state manager as it was. *)
Inductive op : Type :=
| AddEntry (key : string) (value : pyval)
| ClearState.

Definition apply (sm : StateManager.t) (o : op) : StateManager.t :=
  match o with
  | AddEntry key value =>
      match StateManager.add_entry key value sm with
      | Ok sm' => sm'
      | Raise _ => sm
      end
  | ClearState => StateManager.clear_state sm
  end.

Definition run (ops : list op) : StateManager.t :=
  foldl apply StateManager.init ops.

Definition keys (sm : StateManager.t) : list string :=
  map fst (StateManager._state sm).

Lemma dict_get_set_same {A : Type} (key : string) (value : A)
  (d : list (string * A)) :
  dict_get key (dict_set key value d) = Some value.
Proof.
  induction d as [|[k v] d IH]; simpl.
  - by rewrite String.eqb_refl.
  - destruct (String.eqb k key) eqn:E; simpl; rewrite E; [done|exact IH].
Qed.

Lemma dict_get_set_other {A : Type} (key key' : string) (value : A)
  (d : list (string * A)) :
  key ≠ key' → dict_get key' (dict_set key value d) = dict_get key' d.
Proof.
  intros Hne. induction d as [|[k v] d IH]; simpl.
  - apply String.eqb_neq in Hne. by rewrite Hne.
  - destruct (String.eqb k key) eqn:E; simpl.
    + apply String.eqb_eq in E as ->.
      apply String.eqb_neq in Hne. by rewrite Hne.
    + destruct (String.eqb k key'); [done|exact IH].
Qed.

(** X1. [add_entry] with a non-empty key succeeds; afterwards [get_value]
    returns the value under that key and what it returned before under
    every other key.  With the empty key it raises [ValueError]. *)
Theorem add_entry_then_get_value (key : string) (value : pyval)
  (sm : StateManager.t) :
  key ≠ "" →
  StateManager.add_entry "" value sm = Raise ValueError
  ∧ ∃ sm',
      StateManager.add_entry key value sm = Ok sm'
      ∧ StateManager.get_value key sm' = value
      ∧ ∀ other, other ≠ key →
          StateManager.get_value other sm'
          = StateManager.get_value other sm.
Proof.
  intros Hkey. split; [done|].
  unfold StateManager.add_entry, StateManager.get_value, py_get.
  destruct key as [|c key]; [done|].
  eexists. split; [done|]. cbn [StateManager._state]. split.
  - by rewrite dict_get_set_same.
  - intros other Hne. by rewrite dict_get_set_other.
Qed.

Lemma add_entry_then_get_value_witness :
  ∃ sm',
    StateManager.add_entry "email" (Some "a@b.co")
      (StateManager.mk [("order_number", Some "#W001")] None) = Ok sm'
    ∧ StateManager.get_value "email" sm' = Some "a@b.co"
    ∧ StateManager.get_value "order_number" sm' = Some "#W001".
Proof.
  destruct (add_entry_then_get_value "email" (Some "a@b.co")
              (StateManager.mk [("order_number", Some "#W001")] None))
    as (_ & sm' & Hadd & Hget & Hother); [discriminate|].
  exists sm'. split; [exact Hadd|]. split; [exact Hget|].
  rewrite (Hother "order_number"); [reflexivity | discriminate].
Defined.

Lemma keys_dict_set {A : Type} (key : string) (value : A)
  (d : list (string * A)) :
  map fst (dict_set key value d)
  = if bool_decide (key ∈ map fst d) then map fst d
    else map fst d ++ [key].
Proof.
  induction d as [|[k v] d IH]; cbn [dict_set map fst].
  - case_bool_decide as Hin; [by apply elem_of_nil in Hin | done].
  - destruct (String.eqb k key) eqn:E; cbn [map fst].
    + apply String.eqb_eq in E as ->.
      rewrite bool_decide_eq_true_2; [done|]. by left.
    + apply String.eqb_neq in E. rewrite IH.
      case_bool_decide as Hin.
      * rewrite bool_decide_eq_true_2; [done|]. by right.
      * rewrite bool_decide_eq_false_2; [done|].
        intros [?|?]%elem_of_cons; [congruence|done].
Qed.

Lemma keys_apply (sm : StateManager.t) (o : op) :
  NoDup (keys sm) → "" ∉ keys sm →
  NoDup (keys (apply sm o)) ∧ "" ∉ keys (apply sm o).
Proof.
  intros Hnd Hne. destruct o as [key value|]; simpl.
  - unfold StateManager.add_entry. destruct key as [|c key]; [done|].
    unfold keys. cbn [StateManager._state]. rewrite keys_dict_set.
    destruct (bool_decide _) eqn:Hin; [done|].
    apply bool_decide_eq_false in Hin. split.
    + apply NoDup_app. split; [done|]. split.
      * intros x Hx [->|[]%elem_of_nil]%elem_of_cons. done.
      * apply NoDup_singleton.
    + intros [?|[?|[]%elem_of_nil]%elem_of_cons]%elem_of_app; done.
  - split; [apply NoDup_nil_2 | apply not_elem_of_nil].
Qed.

(** X2. Whatever entries a session adds and however often it clears, the
    state manager holds at most one entry per key and none under the empty
    key; adding under a key that is present replaces its value in place
    (the keys and their order stay), adding under a new key appends it. *)
Theorem state_keys_unique (ops : list op) :
  NoDup (keys (run ops))
  ∧ ("" ∉ keys (run ops))
  ∧ ∀ key value sm',
      StateManager.add_entry key value (run ops) = Ok sm' →
      keys sm' = if bool_decide (key ∈ keys (run ops)) then keys (run ops)
                 else keys (run ops) ++ [key].
Proof.
  assert (Hinv : NoDup (keys (run ops)) ∧ "" ∉ keys (run ops)).
  { unfold run. induction ops as [|o ops IH] using rev_ind.
    - split; [apply NoDup_nil_2 | apply not_elem_of_nil].
    - rewrite foldl_app. simpl. destruct IH. by apply keys_apply. }
  destruct Hinv as [Hnd Hne]. split; [done|]. split; [done|].
  intros key value sm'. unfold StateManager.add_entry.
  destruct key as [|c key]; [done|]. intros [= <-].
  unfold keys. cbn [StateManager._state]. apply keys_dict_set.
Qed.

(** The cached Markdown is absent, with nothing stored, or it is the
    Markdown of what is stored. *)
Definition markdown_current (sm : StateManager.t) : Prop :=
  (StateManager._state sm = [] ∧ StateManager._state_md sm = None)
  ∨ StateManager._state_md sm = Some (StateManager.to_markdown sm).

(** X3. After any sequence of [add_entry] and [clear_state] calls the
    cached [_state_md] is up to date: it is [None] with an empty state, or
    it is [to_markdown()] of the current state; and after a successful
    [add_entry] it is the latter. *)
Theorem markdown_cache_current (ops : list op) :
  markdown_current (run ops)
  ∧ ∀ key value sm',
      StateManager.add_entry key value (run ops) = Ok sm' →
      StateManager._state_md sm' = Some (StateManager.to_markdown sm').
Proof.
  split.
  - unfold run. induction ops as [|o ops IH] using rev_ind; [by left|].
    rewrite foldl_app. simpl. destruct o as [key value|]; simpl.
    + unfold StateManager.add_entry. destruct key; [done|]. by right.
    + by left.
  - intros key value sm'. unfold StateManager.add_entry.
    destruct key; [done|]. by intros [= <-].
Qed.

End StateProps.

(** ** More on the order-status agent *)

Module OrderExtras.
Import PyStr Re Py OrderStatus.

(** *** Looking an order up *)

Definition order_matches (email : string) (order_number : pyval)
  (o : order) : Prop :=
  lower (Email o) = lower email ∧ Some (OrderNumber o) = order_number.

Lemma find_in_step (o : order) (orders : list order) (email : string)
  (order_number : pyval) :
  (order_matches email order_number o
   ∧ find_in (o :: orders) (Some email) order_number = Ok (Some o))
  ∨ (¬ order_matches email order_number o
     ∧ find_in (o :: orders) (Some email) order_number
       = find_in orders (Some email) order_number).
Proof.
  unfold order_matches. cbn [find_in].
  destruct (String.eqb (lower (Email o)) (lower email)) eqn:He.
  - apply String.eqb_eq in He. case_bool_decide as Ho.
    + left. done.
    + right. split; [tauto | done].
  - apply String.eqb_neq in He. right. split; [tauto | done].
Qed.

(** X4. [find_order] returns the first order of the data whose email
    equals the given one up to letter case and whose order number equals
    the given one exactly, and [None] when no order does; it never raises
    on an email that is a string. *)
Theorem find_order_first_match (orders : list order) (email : string)
  (order_number : pyval) :
  (∃ o earlier later,
     find_in orders (Some email) order_number = Ok (Some o)
     ∧ orders = earlier ++ o :: later
     ∧ order_matches email order_number o
     ∧ Forall (fun x => ¬ order_matches email order_number x) earlier)
  ∨ (find_in orders (Some email) order_number = Ok None
     ∧ Forall (fun x => ¬ order_matches email order_number x) orders).
Proof.
  induction orders as [|x orders IH].
  - right. split; [done | constructor].
  - destruct (find_in_step x orders email order_number)
      as [[Hm Hfind]|[Hm Hfind]].
    + left. exists x, [], orders.
      split; [done|]. split; [done|]. split; [done | constructor].
    + rewrite Hfind.
      destruct IH as [(o & earlier & later & Hf & -> & Ho & Hall)|[Hf Hall]].
      * left. exists o, (x :: earlier), later.
        split; [done|]. split; [done|]. split; [done | by constructor].
      * right. split; [done|]. by constructor.
Qed.

Lemma lower_char_idem (c : ascii) : lower_char (lower_char c) = lower_char c.
Proof.
  destruct c as [[] [] [] [] [] [] [] []]; reflexivity.
Qed.

Lemma lower_idem (s : string) : lower (lower s) = lower s.
Proof.
  unfold lower. induction s as [|c s IH]; simpl; [done|].
  by rewrite lower_char_idem, IH.
Qed.

Lemma lower_upper_char (c : ascii) : lower_char (upper_char c) = lower_char c.
Proof.
  destruct c as [[] [] [] [] [] [] [] []]; reflexivity.
Qed.

(** X5. The lookup does not depend on the letter case of the email: two
    emails that are equal once lowered find the same order; so the
    lowered spelling of an email finds what the email finds. *)
Theorem find_order_email_case (orders : list order) (email email' : string)
  (order_number : pyval) :
  lower email = lower email' →
  find_in orders (Some email) order_number
  = find_in orders (Some email') order_number
  ∧ find_in orders (Some (lower email)) order_number
    = find_in orders (Some email) order_number.
Proof.
  assert (Hsame : ∀ e e', lower e = lower e' →
            find_in orders (Some e) order_number
            = find_in orders (Some e') order_number).
  { intros e e' Heq. induction orders as [|x orders IH]; [done|].
    cbn [find_in]. by rewrite Heq, IH. }
  intros Heq. split; [by apply Hsame|]. apply Hsame, lower_idem.
Qed.

Lemma find_order_email_case_witness :
  find_in OrderProps.shop_orders (Some "John.Doe@Example.COM") (Some "#W001")
  = find_in OrderProps.shop_orders (Some "john.doe@example.com")
      (Some "#W001").
Proof.
  apply (find_order_email_case OrderProps.shop_orders
           "John.Doe@Example.COM" "john.doe@example.com" (Some "#W001")).
  reflexivity.
Defined.

(** *** The patterns *)

Definition local_part (c : ascii) : bool := is_alnum c || one_of "._%+-" c.
Definition domain_part (c : ascii) : bool := is_alnum c || one_of ".-" c.
Definition tld_part (c : ascii) : bool := is_alpha c || one_of "|" c.

(** The texts [email_pattern] matches. *)
Definition email_shape (m : string) : Prop :=
  ∃ name domain tld,
    m = name +:+ "@" +:+ domain +:+ "." +:+ tld
    ∧ name ≠ "" ∧ domain ≠ "" ∧ (2 ≤ String.length tld)%nat
    ∧ all_chars local_part name = true
    ∧ all_chars domain_part domain = true
    ∧ all_chars tld_part tld = true.

Lemma email_pattern_sound (prev : option ascii) (s m : string) :
  match_here email_pattern prev s = Some m → email_shape m.
Proof.
  unfold email_pattern.
  intros H0%StrFacts.wordb_sound.
  apply StrFacts.rep_atom_sound in H0
    as (name & prev1 & s1 & m1 & -> & Hname & Hlen1 & H1).
  apply StrFacts.lit_sound in H1 as (s2 & t2 & -> & -> & H2).
  apply StrFacts.rep_atom_sound in H2
    as (domain & prev3 & s3 & m3 & -> & Hdomain & Hlen3 & H3).
  apply StrFacts.lit_sound in H3 as (s4 & t4 & -> & -> & H4).
  apply StrFacts.rep_atom_sound in H4
    as (tld & prev5 & s5 & m5 & -> & Htld & Hlen5 & H5).
  apply StrFacts.wordb_sound in H5. injection H5 as <-.
  exists name, domain, tld. rewrite StrFacts.append_empty.
  repeat split; try done.
  - by apply OrderProps.run_nonempty.
  - by apply OrderProps.run_nonempty.
Qed.

(** X6. What [extract_email_from_text] returns is a text of the shape
    name@domain.tld (a non-empty name of letters, digits and [._%+-], a
    non-empty domain of letters, digits, dots and hyphens, and at least two
    letters or bars after its last dot) that occurs in the text given; a
    text without ["@"] yields [None]. *)
Theorem extracted_email_shape (text : string) :
  match extract_email_from_text text with
  | Some m =>
      email_shape m ∧ str_in m text = true ∧ str_in "@" text = true
  | None => True
  end
  ∧ (str_in "@" text = false → extract_email_from_text text = None).
Proof.
  assert (H : ∀ m, extract_email_from_text text = Some m →
                email_shape m ∧ str_in m text = true
                ∧ str_in "@" text = true).
  { intros m Hm.
    assert (Hshape : email_shape m).
    { revert Hm. unfold extract_email_from_text, search.
      apply (StrFacts.search_from_sound email_pattern email_shape).
      apply email_pattern_sound. }
    pose proof (TextFacts.search_occurs _ _ _ Hm) as Hin.
    repeat split; try done.
    apply (TextFacts.str_in_trans "@" m text); [|done].
    destruct Hshape as (name & domain & tld & -> & _).
    apply StrFacts.str_in_app_r, StrFacts.str_in_here. }
  split.
  - destruct (extract_email_from_text text) as [m|]; [by apply H | done].
  - intros Hno. destruct (extract_email_from_text text) as [m|]; [|done].
    destruct (H m eq_refl) as (_ & _ & Hat). congruence.
Qed.

Lemma digits_are_words (digits : string) (prev : option ascii) :
  all_chars is_digit digits = true →
  word_opt prev = true →
  word_opt (TextFacts.last_char prev digits) = true.
Proof.
  revert prev. induction digits as [|c digits IH]; intros prev; [done|].
  simpl. intros [Hc Hall]%andb_prop _. apply IH; [done|].
  simpl. unfold is_word, is_alnum. by rewrite Hc, orb_true_r.
Qed.

Lemma digit_is_not (a c : ascii) :
  is_digit a = false → is_digit c = true → Ascii.eqb a c = false.
Proof.
  intros Ha Hc. destruct (Ascii.eqb a c) eqn:E; [|done].
  apply Ascii.eqb_eq in E. congruence.
Qed.

Lemma no_hash_in_bare (digits : string) (prev : option ascii) :
  all_chars is_digit digits = true →
  search_from order_pattern_hash prev digits = None.
Proof.
  revert prev. induction digits as [|c digits IH]; intros prev; [done|].
  intros [Hc Hall]%andb_prop.
  rewrite TextFacts.search_from_skip; [by apply IH|].
  apply TextFacts.lit_miss. by apply digit_is_not.
Qed.

(** X7. The local extractor maps both spellings of an order number,
    [#W] and digits or [W] and digits, to the spelling with [#]: applied
    to a token it has produced it returns that token. *)
Theorem order_number_canonical (digits : string) :
  digits ≠ "" → all_chars is_digit digits = true →
  extract_order_number_from_text ("#W" +:+ digits) = Some ("#W" +:+ digits)
  ∧ extract_order_number_from_text ("W" +:+ digits)
    = Some ("#W" +:+ digits).
Proof.
  intros Hne Hall.
  assert (Hlen : (1 ≤ String.length digits)%nat).
  { destruct digits; [done | simpl; lia]. }
  unfold extract_order_number_from_text, search. split.
  - rewrite (TextFacts.search_from_here _ _ _ ("#W" +:+ digits)); [done|].
    change (match_here order_pattern_hash None ("#W" +:+ digits))
      with (cons_match "#" (cons_match "W"
              (rep is_digit (match_here []) 1 (Some "W"%char) digits))).
    rewrite <- (StrFacts.append_empty digits) at 1.
    rewrite (TextFacts.rep_run is_digit (match_here []) digits "" "");
      try done.
    by rewrite StrFacts.append_empty.
  - change ("W" +:+ digits) with (String "W" digits).
    rewrite TextFacts.search_from_skip by (by apply TextFacts.lit_miss).
    rewrite no_hash_in_bare by done.
    rewrite (TextFacts.search_from_here _ _ _ (String "W" digits)); [done|].
    change (match_here order_pattern_bare None (String "W" digits))
      with (cons_match "W"
              (rep is_digit (match_here [WordB]) 1 (Some "W"%char) digits)).
    rewrite <- (StrFacts.append_empty digits) at 1.
    rewrite (TextFacts.rep_run is_digit (match_here [WordB]) digits "" "");
      try done.
    + by rewrite StrFacts.append_empty.
    + cbn [match_here]. unfold at_boundary.
      rewrite digits_are_words by done. done.
Qed.

Lemma order_number_canonical_witness :
  extract_order_number_from_text "#W007" = Some "#W007"
  ∧ extract_order_number_from_text "W007" = Some "#W007".
Proof.
  apply (order_number_canonical "007"); [discriminate | reflexivity].
Defined.

(** *** The turns of the agent *)

Section Agent.

Variable name : string.
Variable orders_data : list order.
Variable json_loads : string -> option (list (string * pyval)).

Abbreviation turn := (OrderProps.turn name orders_data json_loads).
Abbreviation attempt := (OrderProps.attempt name).
Abbreviation email_from_current := OrderProps.email_from_current.
Abbreviation order_from_current := OrderProps.order_from_current.
Abbreviation message_entities := OrderProps.message_entities.

Definition branded (r : Message) : Prop :=
  startswith mountain (content r) = true
  ∧ sender r = name
  ∧ recipient r = "AdventureOutfittersAgent"
  ∧ metadata r = [].

Lemma reply_branded (text : string) :
  branded (reply_with name (mountain +:+ text)).
Proof.
  unfold branded. cbn [content sender recipient metadata reply_with].
  by rewrite StrFacts.startswith_app.
Qed.

Lemma status_message_branded (o : order) (e n : pyval) :
  branded (reply_with name (status_message o e n)).
Proof.
  unfold branded. cbn [content sender recipient metadata reply_with].
  split; [|done]. unfold status_message.
  apply TextFacts.startswith_app_left, StrFacts.startswith_app.
Qed.

Lemma attempt_branded (pre : list event) (e n : pyval)
  (found : option order) (sm : StateManager.t) :
  branded (attempt pre e n found sm).1.1.
Proof.
  unfold OrderProps.attempt. destruct found; cbn [fst].
  - apply status_message_branded.
  - apply reply_branded.
Qed.

(** X8. Every response of [process], the one of the [except] branch
    included, begins with the mountain emoji, is sent by the agent to the
    coordinator and carries no metadata. *)
Theorem responses_branded (sm : StateManager.t) (message : Message)
  (reply : chat_result) :
  branded (turn sm message reply).1.1.
Proof.
  destruct (OrderProps.turn_cases name orders_data json_loads sm message
              reply) as [[_ ->]|(entities & _ & Hcase)].
  { apply reply_branded. }
  destruct Hcase; try apply attempt_branded; try apply reply_branded.
  cbn [fst]. unfold missing_reply.
  repeat match goal with
         | |- context [if ?b then _ else _] => destruct b
         end; apply reply_branded.
Qed.

(** *** The order number first *)

Lemma order_msg_names_order (v : pyval) :
  str_in (fmt v) (order_msg v) = true
  ∧ str_in "email address" (order_msg v) = true.
Proof.
  unfold order_msg. split.
  - apply StrFacts.str_in_app_r, StrFacts.str_in_app_r,
      StrFacts.str_in_here.
  - do 4 apply StrFacts.str_in_app_r. by vm_compute.
Qed.

(** X9. When no email is stored, a turn that resolves an order number
    and no email stores the order number, makes no lookup and asks for
    the email address, naming the order number; this needs no
    particular form of the query.  A next turn that resolves an email and
    no order number attempts the lookup with that email and the stored
    order number. *)
Theorem order_number_then_email (sm : StateManager.t) (message : Message)
  (reply : chat_result) (entities : list (string * pyval)) :
  truthy (StateManager.get_value "email" sm) = false →
  message_entities message = Some entities →
  truthy (email_from_current entities (content message)) = false →
  truthy (order_from_current entities (content message)) = true →
  let order_number := order_from_current entities (content message) in
  let result := turn sm message reply in
  StateManager.get_value "order_number" result.1.2 = order_number
  ∧ result.2 = [Store "order_number" order_number]
  ∧ content result.1.1 = order_msg order_number
  ∧ str_in (fmt order_number) (content result.1.1) = true
  ∧ str_in "email address" (content result.1.1) = true
  ∧ ∀ message' reply' entities',
      message_entities message' = Some entities' →
      truthy (email_from_current entities' (content message')) = true →
      truthy (order_from_current entities' (content message')) = false →
      ∃ found,
        turn result.1.2 message' reply'
        = attempt [] (email_from_current entities' (content message'))
            order_number found result.1.2.
Proof.
  intros Hse Hent Hec Hoc order_number result.
  pose proof (OrderProps.process_table name orders_data json_loads sm
                message reply entities Hent) as Hcase.
  fold result in Hcase. fold order_number in Hcase, Hoc.
  assert (Hstore : ∃ sm',
             StateManager.add_entry "order_number" order_number sm = Ok sm'
             ∧ result = (reply_with name (order_msg order_number), sm',
                         [Store "order_number" order_number])).
  { clearbody result. destruct Hcase; try congruence. by eexists. }
  destruct Hstore as (sm' & Hadd & ->).
  cbn [fst snd content reply_with].
  pose proof (OrderProps.get_after_add _ _ _ _ Hadd) as Hget.
  destruct (order_msg_names_order order_number) as [Hname Hask].
  repeat split; try done.
  intros message' reply' entities' Hent' Hec' Hoc'.
  pose proof (OrderProps.process_table name orders_data json_loads sm'
                message' reply' entities' Hent') as Hcase'.
  destruct Hcase' as [| |found| | | | | | |]; try congruence.
  exists found. by rewrite Hget.
Qed.

(** *** What a session keeps in the state manager *)

(** Only the two slots, each with a non-empty value, and never both. *)
Definition slots_ok (sm : StateManager.t) : Prop :=
  (∀ key value,
     (key, value) ∈ StateManager._state sm →
     (key = "email" ∨ key = "order_number") ∧ truthy value = true)
  ∧ truthy (StateManager.get_value "email" sm)
    && truthy (StateManager.get_value "order_number" sm) = false.

Lemma elem_of_dict_set (key : string) (value : pyval)
  (d : list (string * pyval)) (k : string) (v : pyval) :
  (k, v) ∈ dict_set key value d → (k, v) = (key, value) ∨ (k, v) ∈ d.
Proof.
  induction d as [|[k' v'] d IH]; cbn [dict_set].
  - intros [->|[]%elem_of_nil]%elem_of_cons. by left.
  - destruct (String.eqb k' key) eqn:E.
    + apply String.eqb_eq in E as ->.
      intros [->|Hin]%elem_of_cons; [by left|]. right. by right.
    + intros [->|Hin]%elem_of_cons; [right; by left|].
      destruct (IH Hin) as [?|?]; [by left|]. right. by right.
Qed.

Lemma slots_ok_add (key : string) (value : pyval) (sm sm' : StateManager.t) :
  slots_ok sm →
  key = "email" ∨ key = "order_number" →
  truthy value = true →
  (∀ other, (other = "email" ∨ other = "order_number") → other ≠ key →
            truthy (StateManager.get_value other sm) = false) →
  StateManager.add_entry key value sm = Ok sm' →
  slots_ok sm'.
Proof.
  intros [Hentries _] Hkey Hvalue Hother Hadd. split.
  - intros k v Hin. revert Hadd. unfold StateManager.add_entry.
    destruct key as [|c key]; [done|]. intros [= <-].
    cbn [StateManager._state] in Hin.
    apply elem_of_dict_set in Hin as [[= -> ->]|Hin]; [done|].
    by apply Hentries.
  - destruct Hkey as [-> | ->].
    + rewrite (OrderProps.get_after_add_ne "email" "order_number" value
                 sm sm') by done.
      rewrite (Hother "order_number") by (by right || done).
      apply andb_false_r.
    + rewrite (OrderProps.get_after_add_ne "order_number" "email" value
                 sm sm') by done.
      by rewrite (Hother "email") by (by left || done).
Qed.

Lemma slots_ok_attempt (pre : list event) (e n : pyval)
  (found : option order) (sm : StateManager.t) :
  slots_ok sm → slots_ok (attempt pre e n found sm).1.2.
Proof.
  intros Hok. unfold OrderProps.attempt. destruct found; cbn [fst snd];
    [|done].
  split; [|done]. intros key value Hin. by apply elem_of_nil in Hin.
Qed.

Lemma slots_ok_turn (sm : StateManager.t) (message : Message)
  (reply : chat_result) :
  slots_ok sm → slots_ok (turn sm message reply).1.2.
Proof.
  intros Hok.
  destruct (OrderProps.turn_cases name orders_data json_loads sm message
              reply) as [[_ ->]|(entities & _ & Hcase)]; [done|].
  destruct Hcase; try (by apply slots_ok_attempt); try done; cbn [fst snd].
  - eapply slots_ok_add; last eassumption; [exact Hok|by left|done|].
    intros other [->| ->] Hne; done.
  - eapply slots_ok_add; last eassumption; [exact Hok|by right|done|].
    intros other [->| ->] Hne; done.
Qed.

(** X10. In every session that starts with an empty state manager, after
    every turn the state manager holds entries under ["email"] and
    ["order_number"] only, each with a non-empty value, and never a
    non-empty email together with a non-empty order number. *)
Theorem session_slots_ok (turns : list (Message * chat_result)) :
  Forall (fun s => slots_ok (OrderProps.after s))
    (OrderProps.session name orders_data json_loads StateManager.init
       turns).
Proof.
  assert (Hinit : slots_ok StateManager.init).
  { split; [|done]. intros key value Hin. by apply elem_of_nil in Hin. }
  revert Hinit. generalize StateManager.init as sm.
  induction turns as [|[message reply] turns IH]; intros sm Hok.
  - constructor.
  - cbn [OrderProps.session].
    pose proof (slots_ok_turn sm message reply Hok) as Hnext.
    constructor; [exact Hnext | by apply IH].
Qed.

(** *** What the responses to a lookup say *)

Ltac event_cases :=
  repeat match goal with
         | H : _ ∈ [] |- _ => by apply elem_of_nil in H
         | H : _ ∈ _ :: _ |- _ =>
             apply elem_of_cons in H as [H|H]; [try discriminate H|]
         | H : _ ∈ _ ++ _ |- _ => apply elem_of_app in H as [H|H]
         end.

Lemma not_found_msg_echoes (e n : pyval) :
  str_in (fmt e) (not_found_msg e n) = true
  ∧ str_in (fmt n) (not_found_msg e n) = true
  ∧ str_in "#W001" (not_found_msg e n) = true.
Proof.
  unfold not_found_msg. split; [|split].
  - do 4 apply StrFacts.str_in_app_r. apply StrFacts.str_in_here.
  - do 2 apply StrFacts.str_in_app_r. apply StrFacts.str_in_here.
  - do 9 apply StrFacts.str_in_app_r. by vm_compute.
Qed.

Lemma lookup_in_attempt (pre : list event) (e n e' n' : pyval)
  (found found' : option order) (sm : StateManager.t) :
  pre = [] ∨ (∃ q, pre = [Extract q]) →
  Lookup e' n' found' ∈ (attempt pre e n found sm).2 →
  e' = e ∧ n' = n ∧ found' = found.
Proof.
  unfold OrderProps.attempt.
  intros Hpre Hin. destruct found; cbn [snd] in Hin;
    apply elem_of_app in Hin as [Hin|Hin];
    try (destruct Hpre as [->|[q ->]]; event_cases);
    event_cases; by injection Hin as -> -> ->.
Qed.

(** the lookup of a turn and the response that reports it *)
Lemma lookup_of_turn (sm : StateManager.t) (message : Message)
  (reply : chat_result) (e n : pyval) (found : option order) :
  Lookup e n found ∈ (turn sm message reply).2 →
  ∃ pre, turn sm message reply = attempt pre e n found sm.
Proof.
  destruct (OrderProps.turn_cases name orders_data json_loads sm message
              reply) as [[_ ->]|(entities & _ & Hcase)].
  { cbn [snd]. intros Hin. event_cases. }
  destruct Hcase;
    try (cbn [snd]; intros Hin; by event_cases);
    intros (-> & -> & ->)%lookup_in_attempt; eauto.
Qed.

(** X11. A turn whose lookup finds no order answers with the not-found
    message: it repeats the email and the order number that were looked
    up and shows the example #W001; the state manager stays as it was. *)
Theorem not_found_echoes_both (sm : StateManager.t) (message : Message)
  (reply : chat_result) (e n : pyval) :
  Lookup e n None ∈ (turn sm message reply).2 →
  let result := turn sm message reply in
  content result.1.1 = not_found_msg e n
  ∧ str_in (fmt e) (content result.1.1) = true
  ∧ str_in (fmt n) (content result.1.1) = true
  ∧ str_in "#W001" (content result.1.1) = true
  ∧ result.1.2 = sm.
Proof.
  intros [pre ->]%lookup_of_turn. cbn [OrderProps.attempt fst snd content
    reply_with].
  destruct (not_found_msg_echoes e n) as (He & Hn & Hex). done.
Qed.

Lemma join_has (sep : string) (items : list string) (x : string) :
  x ∈ items → str_in x (join sep items) = true.
Proof.
  induction items as [|y items IH]; [by intros []%elem_of_nil|].
  intros [->|Hin]%elem_of_cons.
  - destruct items as [|z items]; [apply TextFacts.str_in_refl|].
    cbn [join]. apply StrFacts.str_in_here.
  - destruct items as [|z items]; [by apply elem_of_nil in Hin|].
    change (join sep (y :: z :: items))
      with (y +:+ sep +:+ join sep (z :: items)).
    do 2 apply StrFacts.str_in_app_r. by apply IH.
Qed.

(** X12. A turn whose lookup finds an order answers with the status
    message: it names the order number and the email looked up, the
    customer, every product of the order and the status in title case,
    and, when the order has a tracking number, that number and the
    tracking link that ends with it. *)
Theorem found_reports_order (sm : StateManager.t) (message : Message)
  (reply : chat_result) (e n : pyval) (o : order) :
  Lookup e n (Some o) ∈ (turn sm message reply).2 →
  let text := content (turn sm message reply).1.1 in
  text = status_message o e n
  ∧ str_in (fmt n) text = true
  ∧ str_in (fmt e) text = true
  ∧ str_in (default "valued customer" (CustomerName o)) text = true
  ∧ (∀ product, product ∈ ProductsOrdered o → str_in product text = true)
  ∧ str_in (title (default "unknown" (Status o))) text = true
  ∧ (truthy (TrackingNumber o) = true →
     str_in ("https://tools.usps.com/go/TrackConfirmAction?tLabels="
             +:+ fmt (TrackingNumber o)) text = true).
Proof.
  intros [pre ->]%lookup_of_turn.
  cbn [OrderProps.attempt fst snd content reply_with].
  split; [done|]. unfold status_message. split; [|split; [|split]].
  - apply StrFacts.str_in_app_r, TextFacts.str_in_app_left,
      StrFacts.str_in_app_r, StrFacts.str_in_here.
  - do 2 apply StrFacts.str_in_app_r.
    apply TextFacts.str_in_app_left, StrFacts.str_in_app_r,
      StrFacts.str_in_here.
  - apply TextFacts.str_in_app_left.
    do 2 apply StrFacts.str_in_app_r. apply StrFacts.str_in_here.
  - split; [|split].
    + intros product Hin. do 3 apply StrFacts.str_in_app_r.
      apply TextFacts.str_in_app_left, StrFacts.str_in_app_r,
        TextFacts.str_in_app_left. by apply join_has.
    + do 4 apply StrFacts.str_in_app_r.
      apply TextFacts.str_in_app_left, StrFacts.str_in_app_r,
        StrFacts.str_in_here.
    + intros Htrack. rewrite Htrack. do 5 apply StrFacts.str_in_app_r.
      apply TextFacts.str_in_app_left.
      do 3 apply StrFacts.str_in_app_r. apply TextFacts.str_in_refl.
Qed.

(** *** The free-form extraction *)

Lemma json_pattern_sound (prev : option ascii) (s m : string) :
  match_here json_pattern prev s = Some m → startswith "{" m = true.
Proof.
  unfold json_pattern.
  intros (s1 & t1 & -> & -> & _)%StrFacts.lit_sound. done.
Qed.

Lemma candidate_has_brace (text c : string) :
  OrderProps.json_candidate text = Some c →
  startswith "{" c = true ∧ str_in c text = true.
Proof.
  unfold OrderProps.json_candidate.
  destruct (startswith "{" text && endswith "}" text) eqn:E.
  - intros [= <-]. apply andb_prop in E as [E _].
    split; [done | apply TextFacts.str_in_refl].
  - intros Hs. split; [|by apply TextFacts.search_occurs in Hs].
    revert Hs. unfold search.
    apply (StrFacts.search_from_sound json_pattern
             (fun m => startswith "{" m = true)).
    apply json_pattern_sound.
Qed.

(** X13. Whatever the model call does, [extract_order_info] raises
    nothing and leaves the state manager as it is.  When the reply holds a
    candidate that [json.loads] accepts (the reply itself if it begins
    with an opening and ends with a closing brace, else the match of the
    brace pattern), the candidate begins with an opening brace, occurs in
    the reply, and the result is the object's [email] and [order_number];
    when the reply has no opening brace the result is [(None, None)]. *)
Theorem extract_order_info_reads_json (query : string)
  (reply : chat_result) (w : world) :
  ∃ extracted,
    extract_order_info json_loads query reply w
    = (Ok extracted,
       {| state_manager := state_manager w;
          calls := calls w ++ [Extract query] |})
    ∧ (∀ text c d,
         reply = ChatReply true (Some text) →
         OrderProps.json_candidate text = Some c →
         json_loads c = Some d →
         startswith "{" c = true ∧ str_in c text = true
         ∧ extracted = (py_get "email" d, py_get "order_number" d))
    ∧ (∀ text,
         reply = ChatReply true (Some text) →
         str_in "{" text = false →
         extracted = (None, None)).
Proof.
  exists (OrderProps.extraction json_loads query reply).
  split; [apply OrderProps.extract_order_info_spec|].
  unfold OrderProps.extraction, extract_order_info, catch, bind, emit,
    item, loads, ret, raise.
  split.
  - intros text c d -> Hc Hd.
    destruct (candidate_has_brace text c Hc) as [Hbrace Hin].
    split; [done|]. split; [done|].
    unfold OrderProps.json_candidate in Hc. cbn [state_manager calls].
    destruct (startswith "{" text && endswith "}" text).
    + injection Hc as <-. by rewrite Hd.
    + rewrite Hc. by rewrite Hd.
  - intros text -> Hno. cbn [state_manager calls].
    destruct (OrderProps.json_candidate text) as [c|] eqn:Hc.
    + destruct (candidate_has_brace text c Hc) as [Hbrace Hin].
      assert (str_in "{" text = true); [|congruence].
      apply (TextFacts.str_in_trans "{" c text); [|done].
      rewrite StrFacts.str_in_unfold. by rewrite Hbrace.
    + unfold OrderProps.json_candidate in Hc.
      destruct (startswith "{" text && endswith "}" text); [done|].
      by rewrite Hc.
Qed.

End Agent.

Lemma order_number_then_email_witness :
  let result :=
    OrderProps.agent_turn StateManager.init (OrderProps.ask "#W007" [])
      OrderProps.silent in
  StateManager.get_value "order_number" result.1.2 = Some "#W007"
  ∧ result.2 = [Store "order_number" (Some "#W007")].
Proof.
  destruct (order_number_then_email "OrderStatusAgent"
              OrderProps.shop_orders OrderProps.loads_one
              StateManager.init (OrderProps.ask "#W007" [])
              OrderProps.silent [])
    as (Hget & Hmade & _);
    [reflexivity | reflexivity | vm_compute; reflexivity
    | vm_compute; reflexivity |].
  split; [exact Hget | exact Hmade].
Defined.

Lemma not_found_echoes_both_witness :
  let result :=
    OrderProps.agent_turn
      (OrderProps.holding_email "ethan.harris@example.com")
      (OrderProps.ask "#W999" []) OrderProps.silent in
  content result.1.1
  = not_found_msg (Some "ethan.harris@example.com") (Some "#W999")
  ∧ result.1.2 = OrderProps.holding_email "ethan.harris@example.com".
Proof.
  destruct (not_found_echoes_both "OrderStatusAgent"
              OrderProps.shop_orders OrderProps.loads_one
              (OrderProps.holding_email "ethan.harris@example.com")
              (OrderProps.ask "#W999" []) OrderProps.silent
              (Some "ethan.harris@example.com") (Some "#W999"))
    as (Htext & _ & _ & _ & Hsame).
  - vm_compute. constructor.
  - split; [exact Htext | exact Hsame].
Defined.

Lemma found_reports_order_witness :
  let text :=
    content
      (OrderProps.agent_turn StateManager.init
         (OrderProps.ask "Check order #W001 for john.doe@example.com" [])
         OrderProps.silent).1.1 in
  str_in "SOWB004" text = true
  ∧ str_in "https://tools.usps.com/go/TrackConfirmAction?tLabels=TRK123456789"
      text = true.
Proof.
  destruct (found_reports_order "OrderStatusAgent"
              OrderProps.shop_orders OrderProps.loads_one
              StateManager.init
              (OrderProps.ask "Check order #W001 for john.doe@example.com"
                 [])
              OrderProps.silent (Some "john.doe@example.com")
              (Some "#W001") OrderProps.john)
    as (_ & _ & _ & _ & Hproducts & _ & Htrack).
  - vm_compute. constructor.
  - split; [apply Hproducts; vm_compute; repeat constructor|].
    apply Htrack. reflexivity.
Defined.

End OrderExtras.

(** ** More on the conversation memory *)

Module MemoryExtras.
Import PyStr ConversationMemory.

#[local] Set Warnings "-clear-no-such-hyp".

Section Reading.

Variable str_of : value -> string.

Local Abbreviation run := (MemoryProps.run str_of).
Local Abbreviation contextual_info := (get_contextual_info str_of).

(** calls that add nothing leave the memory alone *)
Lemma run_idle (ops : list MemoryProps.op) (m : t) :
  MemoryProps.inserted ops = [] → run ops m = m.
Proof.
  revert m. induction ops as [|o ops IH]; intros m; [done|].
  destruct o; simpl; [done|apply IH..].
Qed.

Lemma last_n_nil_inv {A : Type} (n : nat) (l : list A) :
  n ≠ 0 → last_n n l = [] → l = [].
Proof.
  intros Hn Hl. apply (f_equal length) in Hl.
  rewrite MemoryProps.length_last_n in Hl.
  destruct l as [|x l]; [done|]. rewrite length_cons in Hl.
  change (length (@nil A)) with 0 in Hl. lia.
Qed.

Lemma last_n_last_n {A : Type} (n k : nat) (l : list A) :
  (n ≤ k)%nat → last_n n (last_n k l) = last_n n l.
Proof.
  intros Hnk. unfold last_n. rewrite drop_drop, length_drop.
  f_equal. lia.
Qed.

Definition exposed_keys : list string :=
  [ "referenced_order"; "referenced_products"; "customer_email";
    "recent_interactions_summary" ].

Lemma contextual_info_keys (q : string) (m : t) (key : string) :
  key ∉ exposed_keys → (contextual_info q m).1 !! key = None.
Proof.
  unfold exposed_keys, get_contextual_info. intros Hkey. cbn [fst].
  repeat match goal with
         | |- context [if ?b then _ else _] => destruct b
         | |- context [match ?x !! ?k with _ => _ end] => destruct (x !! k)
         | |- context [match _recent_interactions ?x with _ => _ end] =>
             destruct (_recent_interactions x)
         end;
    repeat (rewrite lookup_insert_ne; [|set_solver]); done.
Qed.

Lemma contextual_info_summary (q : string) (m : t) :
  (contextual_info q m).1 !! "recent_interactions_summary"
  = match _recent_interactions m with
    | [] => None
    | _ => Some (VStr (_get_recent_summary str_of m))
    end.
Proof.
  unfold get_contextual_info. cbn [fst].
  destruct (_recent_interactions m).
  - repeat match goal with
           | |- context [if ?b then _ else _] => destruct b
           | |- context [match ?x !! ?k with _ => _ end] =>
               destruct (x !! k)
           end;
      repeat (rewrite lookup_insert_ne; [|done]); done.
  - by rewrite lookup_insert_eq.
Qed.

(** X14. From a new memory, [get_contextual_info] returns the empty dict
    exactly when no interaction has been added; whatever the calls before,
    the dict has no key but [referenced_order], [referenced_products],
    [customer_email] and [recent_interactions_summary] (so never
    [last_promo_code]), and the summary key is present as soon as one
    interaction has been added. *)
Theorem contextual_info_empty_iff (ops : list MemoryProps.op) (q : string) :
  ((contextual_info q (run ops init)).1 = ∅
   ↔ MemoryProps.inserted ops = [])
  ∧ (∀ key, key ∉ exposed_keys →
            (contextual_info q (run ops init)).1 !! key = None)
  ∧ (MemoryProps.inserted ops ≠ [] →
     is_Some ((contextual_info q (run ops init)).1
                !! "recent_interactions_summary")).
Proof.
  assert (Hsome : MemoryProps.inserted ops ≠ [] →
            is_Some ((contextual_info q (run ops init)).1
                       !! "recent_interactions_summary")).
  { intros Hne. rewrite contextual_info_summary.
    rewrite MemoryProps.run_init_history.
    destruct (last_n _ _) eqn:E; [|done].
    by apply last_n_nil_inv in E. }
  split; [|split; [|done]].
  - split.
    + intros Hempty.
      destruct (MemoryProps.inserted ops) eqn:E; [done|].
      destruct Hsome as [v Hv]; [done|].
      rewrite Hempty in Hv. by rewrite lookup_empty in Hv.
    + intros Hnone. rewrite run_idle by done.
      unfold get_contextual_info, init.
      cbn [fst _conversation_context _recent_interactions].
      rewrite !lookup_empty.
      by destruct (_is_order_reference q), (_is_product_reference q).
  - intros key. apply contextual_info_keys.
Qed.

(** X15. The summary of a memory that started empty is built from the
    last three interactions added, oldest first, whatever was added before
    them and whatever was read in between. *)
Theorem summary_of_last_three (ops : list MemoryProps.op) :
  _get_recent_summary str_of (run ops init)
  = join "; "
      (concat (map (summary_parts str_of)
                 (last_n 3 (MemoryProps.inserted ops)))).
Proof.
  unfold _get_recent_summary. rewrite MemoryProps.run_init_history.
  rewrite last_n_last_n by (unfold _max_recent_interactions; lia).
  destruct (last_n _max_recent_interactions (MemoryProps.inserted ops))
    eqn:E; [|done].
  apply last_n_nil_inv in E; [|done]. by rewrite E.
Qed.

(** *** Resolving a reference to products *)

Lemma truthy_get_nonempty (d : gmap string value) (key : string) :
  truthy (get d key) = true → nonempty d = true.
Proof.
  unfold get, nonempty. intros Ht. apply bool_decide_eq_true.
  intros ->. by rewrite lookup_empty in Ht.
Qed.

Lemma contextual_info_products (q : string) (m : t) :
  (contextual_info q m).1 !! "referenced_products"
  = if _is_product_reference q
    then _conversation_context m !! "recent_products"
    else None.
Proof.
  unfold get_contextual_info. cbn [fst].
  repeat match goal with
         | |- context [match ?x !! ?k with _ => _ end] =>
             destruct (x !! k) eqn:?
         | |- context [match _recent_interactions ?x with _ => _ end] =>
             destruct (_recent_interactions x)
         | |- context [if ?b then _ else _] => destruct b
         end;
    by simplify_map_eq.
Qed.

(** X16. Products that an order lookup or a recommendation has put into
    the memory are what a later product reference resolves to, after any
    number of interactions that bring no products of their own: the
    contextual info of a query has them under [referenced_products] if the
    query is a product reference, and has no such key if it is not. *)
Theorem products_resolved_later (now intent q : string)
  (entities : gmap string value) (agent_used : string)
  (info : gmap string value) (products : value)
  (later : list interaction) (m : t) (current_query : string) :
  intent = "ORDER_STATUS" ∧ products = get info "products"
  ∨ intent = "PRODUCT_RECOMMENDATION"
    ∧ products = get info "products_mentioned" →
  truthy products = true →
  Forall (fun j => "recent_products" ∉ MemoryProps.written j) later →
  (contextual_info current_query
     (MemoryProps.record_all later
        (add_interaction now intent q entities agent_used (Some info) m))).1
  !! "referenced_products"
  = if _is_product_reference current_query then Some products else None.
Proof.
  intros Hintent Hproducts Hlater.
  rewrite contextual_info_products.
  destruct (_is_product_reference current_query); [|done].
  rewrite MemoryProps.record_all_context by done.
  unfold add_interaction, record, new_interaction. cbn.
  unfold _update_context. cbn.
  destruct Hintent as [[-> ->]|[-> ->]]; cbn;
    rewrite (truthy_get_nonempty _ _ Hproducts), Hproducts;
    by simplify_map_eq.
Qed.

End Reading.

(** *** The two reference matchers *)

Lemma lower_app (s t : string) : lower (s +:+ t) = lower s +:+ lower t.
Proof.
  unfold lower. induction s as [|c s IH]; [done|].
  change (String c s +:+ t) with (String c (s +:+ t)).
  cbn [map_chars]. by rewrite IH.
Qed.

Lemma lower_split (q a b : string) :
  lower q = a +:+ b → ∃ q1 q2, q = q1 +:+ q2 ∧ lower q1 = a ∧ lower q2 = b.
Proof.
  revert q. induction a as [|c a IH]; intros q Hq.
  - by exists EmptyString, q.
  - destruct q as [|d q]; [done|].
    change (String c a +:+ b) with (String c (a +:+ b)) in Hq.
    unfold lower in Hq. cbn [map_chars] in Hq.
    injection Hq as Hc Hq.
    destruct (IH q Hq) as (q1 & q2 & -> & H1 & H2).
    exists (String d q1), q2. split; [done|]. split; [|done].
    change (lower (String d q1)) with (String (lower_char d) (lower q1)).
    by rewrite Hc, H1.
Qed.

(** the query has a part that is one of the keywords up to letter case *)
Definition mentions (keywords : list string) (q : string) : Prop :=
  ∃ keyword before part after,
    keyword ∈ keywords
    ∧ q = before +:+ part +:+ after
    ∧ lower part = keyword.

Lemma any_keyword_mentions (keywords : list string) (q : string) :
  existsb (fun keyword => str_in keyword (lower q)) keywords = true
  ↔ mentions keywords q.
Proof.
  rewrite existsb_exists. split.
  - intros (keyword & Hin%list_elem_of_In & Hsub).
    apply TextFacts.str_in_spec in Hsub as (p & s & Hq).
    apply lower_split in Hq as (before & rest & -> & _ & Hrest).
    apply lower_split in Hrest as (part & after & -> & Hpart & _).
    by exists keyword, before, part, after.
  - intros (keyword & before & part & after & Hin & -> & Hpart).
    exists keyword. split; [by apply list_elem_of_In|].
    rewrite !lower_app, Hpart.
    apply TextFacts.str_in_spec. by exists (lower before), (lower after).
Qed.

(** X17. Both matchers look for their keywords anywhere in the query and
    without regard to letter case: a query is an order (a product)
    reference exactly when some part of it is one of the order (product)
    keywords once lowered. *)
Theorem matchers_ignore_case (q : string) :
  (_is_order_reference q = true ↔ mentions order_reference_keywords q)
  ∧ (_is_product_reference q = true
     ↔ mentions product_reference_keywords q).
Proof. split; apply any_keyword_mentions. Qed.

(** X18. A product reference is an order reference as well, unless the
    only product keywords it has are [more details], [more info] and
    [describe them]: the other product keywords are order keywords, or
    contain one. *)
Theorem product_reference_is_order_reference (q : string) :
  _is_product_reference q = true →
  _is_order_reference q = true
  ∨ existsb (fun keyword => str_in keyword (lower q))
      ["more details"; "more info"; "describe them"] = true.
Proof.
  unfold _is_product_reference, _is_order_reference,
    product_reference_keywords, order_reference_keywords.
  cbn [existsb]. generalize (lower q) as l. intros l.
  assert (Hthem : str_in "tell me about them" l = true →
                  str_in "tell me about" l = true).
  { apply TextFacts.str_in_trans. by vm_compute. }
  destruct (str_in "tell me about them" l) eqn:E.
  { rewrite Hthem by done. intros _. left.
    by rewrite !orb_true_r. }
  destruct (str_in "those products" l), (str_in "these products" l),
    (str_in "the products" l), (str_in "what are those" l),
    (str_in "what are these" l);
    cbn [orb];
    try (intros _; left; rewrite ?orb_true_r; reflexivity).
  intros H. right. exact H.
Qed.

Lemma product_reference_is_order_reference_witness :
  _is_order_reference "What are THOSE?" = true
  ∨ existsb (fun keyword => str_in keyword (lower "What are THOSE?"))
      ["more details"; "more info"; "describe them"] = true.
Proof.
  apply (product_reference_is_order_reference "What are THOSE?").
  reflexivity.
Defined.

Definition sku_list : value := VList [VStr "SOBP001"; VStr "SOWB004"].

Definition recommended : gmap string value :=
  {[ "products_mentioned" := sku_list ]}.

Lemma products_resolved_later_witness :
  (get_contextual_info (fun _ => "") "Tell me more about those products!"
     (MemoryProps.record_all [MemoryProps.idle_turn]
        (add_interaction "t0" "PRODUCT_RECOMMENDATION" "a backpack?" ∅
           "ProductRecommendationAgent" (Some recommended) init))).1
  !! "referenced_products"
  = Some sku_list.
Proof.
  apply (products_resolved_later (fun _ => "") "t0" "PRODUCT_RECOMMENDATION"
           "a backpack?" ∅ "ProductRecommendationAgent" recommended
           sku_list [MemoryProps.idle_turn] init
           "Tell me more about those products!").
  - right. split; reflexivity.
  - reflexivity.
  - repeat constructor. vm_compute. intros Hin.
    repeat (apply elem_of_cons in Hin as [Hin|Hin]; [discriminate Hin|]).
    by apply elem_of_nil in Hin.
Defined.

End MemoryExtras.

(** ** The key info the coordinator keeps *)

Module CoordinatorProps.
Import PyStr Re ConversationMemory Coordinator.

#[local] Set Warnings "-clear-no-such-hyp".

(** *** Searching past a text that cannot start a match *)

Lemma chr_miss (f : ascii → bool) (r : list atom) (prev : option ascii)
  (c : ascii) (s : string) :
  f c = false → match_here (Chr f :: r) prev (String c s) = None.
Proof.
  intros H.
  change (match_here (Chr f :: r) prev (String c s))
    with (if f c then cons_match c (match_here r (Some c) s) else None).
  by rewrite H.
Qed.

Lemma search_from_past (f : ascii → bool) (r : list atom) (p s : string) :
  ∀ prev,
    all_chars (fun c => negb (f c)) p = true →
    search_from (Chr f :: r) prev (p +:+ s)
    = search_from (Chr f :: r) (TextFacts.last_char prev p) s.
Proof.
  induction p as [|c p IH]; intros prev Hall; [done|].
  cbn [all_chars] in Hall. apply andb_prop in Hall as [Hc Hall].
  change (String c p +:+ s) with (String c (p +:+ s)).
  rewrite TextFacts.search_from_skip
    by (apply chr_miss; by destruct (f c)).
  rewrite IH by done. done.
Qed.

Lemma search_from_past_lit (a : ascii) (r : list atom) (p s : string)
  (prev : option ascii) :
  all_chars (fun c => negb (Ascii.eqb a c)) p = true →
  search_from (lit a :: r) prev (p +:+ s)
  = search_from (lit a :: r) (TextFacts.last_char prev p) s.
Proof. apply search_from_past. Qed.

(** a text without the character [a] *)
Lemma no_char (a : ascii) (p : string) :
  str_in (String a "") p = false →
  all_chars (fun c => negb (Ascii.eqb a c)) p = true.
Proof.
  induction p as [|c p IH]; [done|].
  rewrite StrFacts.str_in_unfold. intros [Hhere Hlater]%orb_false_elim.
  cbn [all_chars]. rewrite IH by done.
  cbn [startswith] in Hhere. by destruct (Ascii.eqb a c).
Qed.

Lemma all_chars_ext (f g : ascii → bool) (s : string) :
  (∀ c, f c = g c) → all_chars f s = all_chars g s.
Proof.
  intros H. induction s as [|c s IH]; [done|].
  cbn [all_chars]. by rewrite H, IH.
Qed.

(** *** The group of a match *)

Lemma length_append (a b : string) :
  String.length (a +:+ b) = String.length a + String.length b.
Proof.
  induction a as [|c a IH]; [done|].
  change (String c a +:+ b) with (String c (a +:+ b)).
  cbn [String.length]. by rewrite IH.
Qed.

Lemma drop_chars_app (a x : string) : drop_chars (String.length a) (a +:+ x) = x.
Proof.
  induction a as [|c a IH]; [by destruct x|].
  change (String c a +:+ x) with (String c (a +:+ x)). exact IH.
Qed.

Lemma take_chars_app (c b : string) : take_chars (String.length c) (c +:+ b) = c.
Proof.
  induction c as [|x c IH]; [by destruct b|].
  change (String x c +:+ b) with (String x (c +:+ b)).
  cbn [String.length take_chars]. by rewrite IH.
Qed.

Lemma group_between (a c b : string) :
  group (String.length a) (String.length b) (a +:+ c +:+ b) = c.
Proof.
  unfold group. rewrite drop_chars_app, !length_append.
  replace (String.length a + (String.length c + String.length b)
           - String.length a - String.length b)
    with (String.length c) by lia.
  apply take_chars_app.
Qed.

(** *** What [findall] returns *)

Lemma findall_from_sound (r : list atom) (P : string → Prop) :
  (∀ prev s m, match_here r prev s = Some m → P m) →
  ∀ s skip prev,
    Forall (fun m => P m ∧ str_in m s = true) (findall_from r skip prev s).
Proof.
  intros HP. induction s as [|c s IH]; intros skip prev.
  - destruct skip; cbn [findall_from]; [|constructor].
    destruct (match_here r prev "") as [m|] eqn:E; [|constructor].
    constructor; [|constructor]. split; [by eapply HP|].
    apply TextFacts.match_here_prefix in E as [q Hq].
    apply TextFacts.str_in_spec. by exists "", q.
  - assert (Hlater : ∀ skip',
              Forall (fun m => P m ∧ str_in m (String c s) = true)
                (findall_from r skip' (Some c) s)).
    { intros skip'. eapply Forall_impl; [apply IH|].
      intros m [Hm Hin]. split; [done|].
      apply (StrFacts.str_in_app_r m (String c "") s Hin). }
    destruct skip; cbn [findall_from]; [|apply Hlater].
    destruct (match_here r prev (String c s)) as [m|] eqn:E;
      [|apply Hlater].
    constructor; [|apply Hlater]. split; [by eapply HP|].
    apply TextFacts.match_here_prefix in E as [q Hq].
    apply TextFacts.str_in_spec. by exists "", q.
Qed.

(** a product code as the coordinator reads it: [SO], two capital letters
    and one or more digits *)
Definition sku_shape (m : string) : Prop :=
  ∃ a b digits,
    m = "SO" +:+ String a (String b digits)
    ∧ is_upper a = true ∧ is_upper b = true
    ∧ digits ≠ "" ∧ all_chars is_digit digits = true.

Lemma chr_sound (f : ascii → bool) (rest : list atom) (prev : option ascii)
  (s m : string) :
  match_here (Chr f :: rest) prev s = Some m →
  ∃ c s' t, s = String c s' ∧ m = String c t ∧ f c = true
            ∧ match_here rest (Some c) s' = Some t.
Proof.
  cbn [match_here]. destruct s as [|c s']; [done|].
  destruct (f c) eqn:E; [|done].
  intros (t & Ht & ->)%StrFacts.cons_match_some. by exists c, s', t.
Qed.

Lemma sku_pattern_sound (prev : option ascii) (s m : string) :
  match_here sku_pattern prev s = Some m → sku_shape m.
Proof.
  unfold sku_pattern.
  intros (s1 & t1 & -> & -> & H1)%StrFacts.lit_sound.
  apply StrFacts.lit_sound in H1 as (s2 & t2 & -> & -> & H2).
  apply chr_sound in H2 as (a & s3 & t3 & -> & -> & Ha & H3).
  apply chr_sound in H3 as (b & s4 & t4 & -> & -> & Hb & H4).
  apply StrFacts.rep_atom_sound in H4
    as (run & prev' & s' & m' & -> & Hall & Hlen & [= <-]).
  exists a, b, run. rewrite StrFacts.append_empty.
  split; [done|]. split; [done|]. split; [done|].
  split; [by apply OrderProps.run_nonempty | done].
Qed.

(** X19. The products the coordinator keeps of a response, under
    [products] for an order status and under [products_mentioned] for a
    recommendation, are a non-empty list of texts that occur in the
    response and have the shape of a product code: [SO], two capital
    letters, one or more digits.  No other intent keeps products. *)
Theorem kept_products_are_skus (intent : Intent)
  (sub_response : OrderStatus.Message) (entities : list (string * value))
  (key : string) (kept : value) :
  key = "products" ∨ key = "products_mentioned" →
  _extract_key_info_from_response intent sub_response entities !! key
  = Some kept →
  (key = "products" ∧ intent = ORDER_STATUS
   ∨ key = "products_mentioned" ∧ intent = PRODUCT_RECOMMENDATION)
  ∧ ∃ skus,
      kept = VList (map VStr skus) ∧ skus ≠ []
      ∧ Forall (fun m => sku_shape m
                         ∧ str_in m (OrderStatus.content sub_response)
                           = true) skus.
Proof.
  intros Hkey.
  pose proof (findall_from_sound sku_pattern sku_shape sku_pattern_sound
                (OrderStatus.content sub_response) 0 None) as Hall.
  fold (findall sku_pattern (OrderStatus.content sub_response)) in Hall.
  unfold _extract_key_info_from_response.
  destruct (findall sku_pattern (OrderStatus.content sub_response))
    as [|sku skus] eqn:Efind;
    destruct Hkey as [-> | ->], intent, entities;
    repeat match goal with
           | |- context [match search ?r ?t with _ => _ end] =>
               destruct (search r t)
           | |- context [if ?b then _ else _] => destruct b
           end;
    intros Hget; simplify_map_eq;
    (split; [by (left + right)|]); by exists (sku :: skus).
Qed.

Definition blurb : OrderStatus.Message :=
  {| OrderStatus.content := "Try SOBP001, or the lighter SOWB004!";
     OrderStatus.sender := "ProductRecommendationAgent";
     OrderStatus.recipient := "AdventureOutfittersAgent";
     OrderStatus.metadata := [] |}.

Lemma kept_products_are_skus_witness :
  ∃ skus,
    VList [VStr "SOBP001"; VStr "SOWB004"] = VList (map VStr skus)
    ∧ skus ≠ []
    ∧ Forall (fun m => sku_shape m
                       ∧ str_in m (OrderStatus.content blurb) = true) skus.
Proof.
  apply (kept_products_are_skus PRODUCT_RECOMMENDATION blurb []
           "products_mentioned").
  - by right.
  - reflexivity.
Defined.

(** *** The response to a lookup that found the order *)

Lemma status_message_head (o : OrderStatus.order) (e n : Py.pyval) :
  ∃ rest,
    OrderStatus.status_message o e n
    = OrderStatus.mountain +:+ " Hello "
      +:+ default "valued customer" (OrderStatus.CustomerName o)
      +:+ "! Here's your order status:" +:+ nl +:+ nl
      +:+ "📋 Order: " +:+ Py.fmt n +:+ nl +:+ rest.
Proof.
  unfold OrderStatus.status_message. cbv zeta.
  rewrite !TextFacts.append_assoc. by eexists.
Qed.

Lemma order_number_found (p digits rest : string) :
  str_in "#" p = false →
  digits ≠ "" → all_chars is_digit digits = true →
  search order_number_pattern (p +:+ ("#W" +:+ digits) +:+ nl +:+ rest)
  = Some ("#W" +:+ digits).
Proof.
  intros Hp Hne Hall. unfold search, order_number_pattern.
  rewrite search_from_past_lit by (by apply no_char).
  assert (Hlen : (1 ≤ String.length digits)%nat).
  { destruct digits; [done | simpl; lia]. }
  apply TextFacts.search_from_here.
  rewrite TextFacts.append_assoc.
  change (match_here [lit "#"; lit "W"; Rep is_digit 1]
            (TextFacts.last_char None p)
            ("#W" +:+ digits +:+ nl +:+ rest))
    with (cons_match "#" (cons_match "W"
            (rep is_digit (match_here []) 1 (Some "W"%char)
               (digits +:+ nl +:+ rest)))).
  rewrite (TextFacts.rep_run is_digit (match_here []) digits
             (nl +:+ rest) ""); try done.
  by rewrite StrFacts.append_empty.
Qed.

Lemma customer_name_found (c rest : string) :
  c ≠ "" → str_in "!" c = false →
  search customer_name_pattern
    (OrderStatus.mountain +:+ " Hello " +:+ c +:+ "!" +:+ rest)
  = Some ("Hello " +:+ c +:+ "!").
Proof.
  intros Hne Hbang. unfold search, customer_name_pattern, any_case.
  rewrite search_from_past by reflexivity.
  set (tail := c +:+ "!" +:+ rest).
  change (" Hello " +:+ tail) with (String " " ("Hello " +:+ tail)).
  rewrite TextFacts.search_from_skip by (by apply chr_miss).
  apply TextFacts.search_from_here.
  change (match_here _ (Some " "%char) ("Hello " +:+ tail))
    with (cons_match "H" (cons_match "e" (cons_match "l" (cons_match "l"
            (cons_match "o" (cons_match " "
               (rep (fun x => negb (Ascii.eqb x "!"))
                  (match_here [lit "!"]) 1 (Some " "%char) tail))))))).
  unfold tail.
  rewrite (TextFacts.rep_run (fun x => negb (Ascii.eqb x "!"))
             (match_here [lit "!"]) c ("!" +:+ rest) "!"); try done.
  - apply no_char in Hbang. erewrite all_chars_ext; [exact Hbang|].
    intros x. simpl. by rewrite Ascii.eqb_sym.
  - destruct c; [done | simpl; lia].
Qed.

Lemma group_tail (a : ascii) (t : string) : group 1 0 (String a t) = t.
Proof.
  unfold group. cbn [String.length drop_chars].
  replace (S (String.length t) - 1 - 0) with (String.length t) by lia.
  rewrite <- (StrFacts.append_empty t) at 2. apply take_chars_app.
Qed.

Lemma char_in_app (a : ascii) (x y : string) :
  str_in (String a "") (x +:+ y)
  = str_in (String a "") x || str_in (String a "") y.
Proof.
  induction x as [|c x IH]; [done|].
  change (String c x +:+ y) with (String c (x +:+ y)).
  rewrite !(StrFacts.str_in_unfold _ (String c _)), IH.
  cbn [startswith]. by destruct (Ascii.eqb a c).
Qed.

Lemma lower_title_from (after_letter : bool) (s : string) :
  lower (title_from after_letter s) = lower s.
Proof.
  revert after_letter. unfold lower.
  induction s as [|c s IH]; intros after_letter; [done|].
  cbn [title_from map_chars]. rewrite IH.
  destruct after_letter;
    by rewrite ?OrderExtras.lower_char_idem, ?OrderExtras.lower_upper_char.
Qed.

Lemma str_in_lower (x s : string) :
  str_in x s = true → str_in (lower x) (lower s) = true.
Proof.
  intros (p & q & ->)%TextFacts.str_in_spec.
  rewrite !MemoryExtras.lower_app. apply TextFacts.str_in_spec. eauto.
Qed.

Lemma status_message_has_status (o : OrderStatus.order) (e n : Py.pyval) :
  str_in (title (default "unknown" (OrderStatus.Status o)))
    (OrderStatus.status_message o e n) = true.
Proof.
  unfold OrderStatus.status_message.
  do 4 apply StrFacts.str_in_app_r.
  apply TextFacts.str_in_app_left, StrFacts.str_in_app_r,
    StrFacts.str_in_here.
Qed.

(** X20. From the response to a lookup that found the order the
    coordinator recovers what the lookup was about: when the order number
    is [#W] and digits and the customer's name is not empty and has no
    [!] and no [#], the key info has that order number, the name with the
    blanks around it removed, and the status [delivered] for an order
    whose status is that word in any letter case. *)
Theorem status_reply_key_info (sub_response : OrderStatus.Message)
  (o : OrderStatus.order) (e : Py.pyval) (digits : string)
  (entities : list (string * value)) :
  let customer := default "valued customer" (OrderStatus.CustomerName o) in
  OrderStatus.content sub_response
  = OrderStatus.status_message o e (Some ("#W" +:+ digits)) →
  digits ≠ "" → all_chars is_digit digits = true →
  customer ≠ "" → str_in "!" customer = false →
  str_in "#" customer = false →
  let key_info :=
    _extract_key_info_from_response ORDER_STATUS sub_response entities in
  key_info !! "order_number" = Some (VStr ("#W" +:+ digits))
  ∧ key_info !! "customer_name" = Some (VStr (strip customer))
  ∧ (lower (default "unknown" (OrderStatus.Status o)) = "delivered" →
     key_info !! "status" = Some (VStr "delivered")).
Proof.
  intros customer Hcontent Hne Hdigits Hname Hbang Hhash.
  destruct (status_message_head o e (Some ("#W" +:+ digits)))
    as [rest Hhead].
  fold customer in Hhead. cbn [Py.fmt] in Hhead.
  assert (Hnumber :
    search order_number_pattern (OrderStatus.content sub_response)
    = Some ("#W" +:+ digits)).
  { rewrite Hcontent, Hhead.
    replace (OrderStatus.mountain +:+ " Hello " +:+ customer
             +:+ "! Here's your order status:" +:+ nl +:+ nl
             +:+ "📋 Order: " +:+ ("#W" +:+ digits) +:+ nl +:+ rest)
      with ((OrderStatus.mountain +:+ " Hello " +:+ customer
             +:+ "! Here's your order status:" +:+ nl +:+ nl
             +:+ "📋 Order: ")
            +:+ ("#W" +:+ digits) +:+ nl +:+ rest)
      by (by rewrite !TextFacts.append_assoc).
    apply order_number_found; try done.
    rewrite !char_in_app, Hhash. reflexivity. }
  assert (Hcustomer :
    search customer_name_pattern (OrderStatus.content sub_response)
    = Some ("Hello " +:+ customer +:+ "!")).
  { rewrite Hcontent, Hhead.
    exact (customer_name_found customer
             (" Here's your order status:" +:+ nl +:+ nl
              +:+ "📋 Order: " +:+ ("#W" +:+ digits) +:+ nl +:+ rest)
             Hname Hbang). }
  assert (Hstatus :
    lower (default "unknown" (OrderStatus.Status o)) = "delivered" →
    str_in "delivered" (lower (OrderStatus.content sub_response)) = true).
  { intros <-. rewrite <- (lower_title_from false), Hcontent.
    apply str_in_lower, status_message_has_status. }
  intros key_info. subst key_info.
  unfold _extract_key_info_from_response.
  rewrite Hnumber, Hcustomer.
  assert (Hgroup : "#" +:+ group 1 0 ("#W" +:+ digits) = "#W" +:+ digits).
  { change ("#W" +:+ digits) with (String "#" ("W" +:+ digits)).
    by rewrite group_tail. }
  rewrite Hgroup.
  replace (group 6 1 ("Hello " +:+ customer +:+ "!")) with customer
    by (symmetry; exact (group_between "Hello " customer "!")).
  split; [|split].
  - destruct entities;
      repeat match goal with
             | |- context [match findall ?r ?t with _ => _ end] =>
                 destruct (findall r t)
             | |- context [if ?b then _ else _] => destruct b
             end; by simplify_map_eq.
  - destruct entities;
      repeat match goal with
             | |- context [match findall ?r ?t with _ => _ end] =>
                 destruct (findall r t)
             | |- context [if ?b then _ else _] => destruct b
             end; by simplify_map_eq.
  - intros Hdelivered. rewrite (Hstatus Hdelivered).
    destruct entities;
      repeat match goal with
             | |- context [match findall ?r ?t with _ => _ end] =>
                 destruct (findall r t)
             end; by simplify_map_eq.
Qed.

Definition found_john : OrderStatus.Message :=
  (OrderProps.agent_turn StateManager.init
     (OrderProps.ask "Check order #W001 for john.doe@example.com" [])
     OrderProps.silent).1.1.

Lemma status_reply_key_info_witness :
  _extract_key_info_from_response ORDER_STATUS found_john []
    !! "order_number" = Some (VStr "#W001")
  ∧ _extract_key_info_from_response ORDER_STATUS found_john []
      !! "customer_name" = Some (VStr "John Doe")
  ∧ _extract_key_info_from_response ORDER_STATUS found_john []
      !! "status" = Some (VStr "delivered").
Proof.
  assert (Hcontent :
    OrderStatus.content found_john
    = OrderStatus.status_message OrderProps.john
        (Some "john.doe@example.com") (Some ("#W" +:+ "001")))
    by (vm_compute; reflexivity).
  destruct (status_reply_key_info found_john OrderProps.john
              (Some "john.doe@example.com") "001" [] Hcontent)
    as (Hnumber & Hname & Hstatus).
  - discriminate.
  - reflexivity.
  - discriminate.
  - reflexivity.
  - reflexivity.
  - split; [exact Hnumber|]. split; [exact Hname|].
    apply Hstatus. reflexivity.
Defined.

(** *** The responses that ask for an order number *)

Lemma example_number_found (p e middle : string) :
  str_in "#" p = false → str_in "#" e = false →
  str_in "#" middle = false →
  ∀ rest,
    search order_number_pattern
      (p +:+ e +:+ middle +:+ "like #W001, #W002" +:+ rest)
    = Some "#W001".
Proof.
  intros Hp He Hmiddle rest. unfold search, order_number_pattern.
  rewrite !search_from_past_lit by (by apply no_char).
  generalize (TextFacts.last_char
                (TextFacts.last_char (TextFacts.last_char None p) e)
                middle) as prev.
  intros prev. reflexivity.
Qed.

Lemma email_msg_shows_example (e : Py.pyval) :
  str_in "#" (Py.fmt e) = false →
  search order_number_pattern (OrderStatus.email_msg e) = Some "#W001".
Proof.
  intros He. unfold OrderStatus.email_msg.
  rewrite <- (TextFacts.append_assoc OrderStatus.mountain).
  exact (example_number_found
           (OrderStatus.mountain +:+ " Got it! I have your email: ")
           (Py.fmt e) ". Now I need your order number ("
           eq_refl He eq_refl _).
Qed.

Lemma invalid_order_msg_shows_example (e : Py.pyval) :
  str_in "#" (Py.fmt e) = false →
  search order_number_pattern (OrderStatus.invalid_order_msg e)
  = Some "#W001".
Proof.
  intros He. unfold OrderStatus.invalid_order_msg.
  rewrite <- (TextFacts.append_assoc OrderStatus.mountain).
  exact (example_number_found
           (OrderStatus.mountain +:+ " I have your email (")
           (Py.fmt e)
           ") but that doesn't look like one of our order numbers. Our order numbers start with 'W' and look "
           eq_refl He eq_refl _).
Qed.

(** X21. The responses that acknowledge an email and ask for the order
    number, or reject an order number, show the example [#W001].  When the
    email in them has no [#], the order number the coordinator keeps of
    such a response is [#W001], and adding the turn to the memory makes
    [#W001] the order number of [last_order_lookup]. *)
Theorem example_number_kept (sub_response : OrderStatus.Message)
  (e : Py.pyval) (entities : list (string * value)) :
  str_in "#" (Py.fmt e) = false →
  OrderStatus.content sub_response = OrderStatus.email_msg e
  ∨ OrderStatus.content sub_response = OrderStatus.invalid_order_msg e →
  let key_info :=
    _extract_key_info_from_response ORDER_STATUS sub_response entities in
  key_info !! "order_number" = Some (VStr "#W001")
  ∧ ∀ now query asked agent_used m,
      _conversation_context
        (add_interaction now (intent_name ORDER_STATUS) query asked
           agent_used (Some key_info) m)
      !! "last_order_lookup"
      = Some (VDict [ ("order_number", VStr "#W001");
                      ("customer_name", get key_info "customer_name");
                      ("products", get_or key_info "products" (VList []));
                      ("status", get key_info "status");
                      ("last_checked", VStr now) ]).
Proof.
  intros He Hcontent key_info.
  assert (Hsearch :
    search order_number_pattern (OrderStatus.content sub_response)
    = Some "#W001").
  { destruct Hcontent as [-> | ->];
      [by apply email_msg_shows_example
      | by apply invalid_order_msg_shows_example]. }
  assert (Hnumber : key_info !! "order_number" = Some (VStr "#W001")).
  { subst key_info. unfold _extract_key_info_from_response.
    rewrite Hsearch.
    destruct entities;
      repeat match goal with
             | |- context [match search ?r ?t with _ => _ end] =>
                 destruct (search r t)
             | |- context [match findall ?r ?t with _ => _ end] =>
                 destruct (findall r t)
             | |- context [if ?b then _ else _] => destruct b
             end; by simplify_map_eq. }
  split; [exact Hnumber|].
  intros now query asked agent_used m.
  assert (Hget : get key_info "order_number" = VStr "#W001").
  { unfold get. by rewrite Hnumber. }
  assert (Hnonempty : nonempty key_info = true).
  { apply (MemoryExtras.truthy_get_nonempty key_info "order_number").
    by rewrite Hget. }
  unfold add_interaction, record, new_interaction, _update_context,
    order_info.
  cbn. rewrite Hnonempty, Hget.
  repeat match goal with
         | |- context [if ?b then _ else _] => destruct b
         end; by simplify_map_eq.
Qed.

Definition email_acknowledged : OrderStatus.Message :=
  (OrderProps.agent_turn StateManager.init
     (OrderProps.ask "ethan.harris@example.com" [])
     OrderProps.silent).1.1.

Lemma example_number_kept_witness :
  _extract_key_info_from_response ORDER_STATUS email_acknowledged []
    !! "order_number" = Some (VStr "#W001").
Proof.
  destruct (example_number_kept email_acknowledged
              (Some "ethan.harris@example.com") [])
    as [Hnumber _].
  - reflexivity.
  - left. vm_compute. reflexivity.
  - exact Hnumber.
Defined.

(** *** The context the coordinator adds to its prompts *)

Section Context.

Variable str_of : value → string.

Definition lookup_is_dict (m : ConversationMemory.t) : Prop :=
  ∀ v, _conversation_context m !! "last_order_lookup" = Some v →
       ∃ d, v = VDict d.

Lemma record_lookup_is_dict (i : interaction) (m : ConversationMemory.t) :
  lookup_is_dict m → lookup_is_dict (record i m).
Proof.
  unfold lookup_is_dict, record, _update_context, order_info.
  cbn [_conversation_context]. intros Hm v.
  repeat match goal with
         | |- context [if ?b then _ else _] => destruct b
         end;
    intros Hv; simplify_map_eq; eauto.
Qed.

Lemma run_lookup_is_dict (ops : list MemoryProps.op)
  (m : ConversationMemory.t) :
  lookup_is_dict m → lookup_is_dict (MemoryProps.run str_of ops m).
Proof.
  revert m. induction ops as [|o ops IH]; intros m Hm; [done|].
  destruct o; cbn [MemoryProps.run foldl MemoryProps.step]; apply IH;
    [by apply record_lookup_is_dict | done..].
Qed.

Lemma contextual_info_order (q : string) (m : ConversationMemory.t) :
  (get_contextual_info str_of q m).1 !! "referenced_order"
  = if _is_order_reference q
    then _conversation_context m !! "last_order_lookup"
    else None.
Proof.
  unfold get_contextual_info. cbn [fst].
  repeat match goal with
         | |- context [match ?x !! ?k with _ => _ end] =>
             destruct (x !! k) eqn:?
         | |- context [match _recent_interactions ?x with _ => _ end] =>
             destruct (_recent_interactions x)
         | |- context [if ?b then _ else _] => destruct b
         end;
    by simplify_map_eq.
Qed.

Lemma format_context_returns (q : string) (m : ConversationMemory.t) :
  lookup_is_dict m →
  is_Some (_format_context_for_llm str_of (get_contextual_info str_of q m).1).
Proof.
  intros Hm. unfold _format_context_for_llm.
  unfold get at 1 2. rewrite contextual_info_order.
  destruct (_is_order_reference q); [|done].
  destruct (_conversation_context m !! "last_order_lookup") as [v|] eqn:E;
    [|done].
  destruct (Hm v E) as [d ->]. cbn [default from_option id].
  destruct (truthy (VDict d)); by eexists.
Qed.

Lemma context_string_spec (q : string) (m : ConversationMemory.t) :
  _get_conversation_context_string str_of q m
  = (let context_info := (get_contextual_info str_of q m).1 in
     if nonempty context_info
     then match _format_context_for_llm str_of context_info with
          | Some context_summary =>
              Some (nl +:+ "<Past Conversation Context>:"
                    +:+ context_summary
                    +:+ "</Past Conversation Context>")
          | None => None
          end
     else Some "",
     m).
Proof.
  unfold _get_conversation_context_string, get_contextual_info.
  cbn [fst]. by repeat case_match.
Qed.

(** X27. The context text the coordinator adds to its prompts: for a
    memory that started empty the call never raises; the text is empty
    exactly when no interaction has been added, and otherwise it is a line
    break and a body between the opening and the closing
    [Past Conversation Context] marks. *)
Theorem context_string_of_session (ops : list MemoryProps.op)
  (query : string) :
  ∃ text,
    (_get_conversation_context_string str_of query
       (MemoryProps.run str_of ops init)).1 = Some text
    ∧ (text = "" ↔ MemoryProps.inserted ops = [])
    ∧ (MemoryProps.inserted ops ≠ [] →
       ∃ body,
         text = nl +:+ "<Past Conversation Context>:" +:+ body
                +:+ "</Past Conversation Context>").
Proof.
  rewrite context_string_spec. cbn [fst]. cbv zeta.
  destruct (MemoryProps.inserted ops) as [|i later] eqn:Hadded.
  - rewrite MemoryExtras.run_idle by done.
    assert (Hempty : (get_contextual_info str_of query init).1 = ∅).
    { unfold get_contextual_info, init.
      cbn [fst _conversation_context _recent_interactions].
      rewrite !lookup_empty.
      by destruct (_is_order_reference query),
           (_is_product_reference query). }
    rewrite Hempty. exists "". by repeat split.
  - assert (Hdict : lookup_is_dict (MemoryProps.run str_of ops init)).
    { apply run_lookup_is_dict. intros v Hv.
      change ((∅ : gmap string value) !! "last_order_lookup" = Some v)
        in Hv.
      by rewrite lookup_empty in Hv. }
    destruct (format_context_returns query _ Hdict) as [body Hbody].
    assert (Hnonempty :
      nonempty (get_contextual_info str_of query
                  (MemoryProps.run str_of ops init)).1 = true).
    { apply bool_decide_eq_true. intros Hnone.
      pose proof (MemoryExtras.contextual_info_summary str_of query
                    (MemoryProps.run str_of ops init)) as Hsummary.
      rewrite Hnone, lookup_empty, MemoryProps.run_init_history
        in Hsummary.
      destruct (last_n _ _) eqn:E; [|done].
      apply MemoryExtras.last_n_nil_inv in E; [|done]. congruence. }
    rewrite Hnonempty, Hbody. eexists. split; [done|]. split.
    + split; [|done]. unfold nl.
      change (String ?c "" +:+ ?x) with (String c x). done.
    + intros _. by exists body.
Qed.

End Context.

End CoordinatorProps.

(** ** The catalogue look-ups of the product recommendation agent *)

Module ProductProps.
Import PyStr ProductRecommendation.

(** the number of words of the query found in the text of a product *)
Definition score (query_lower : string) (p : product) : nat :=
  count_matches (split query_lower) (product_text p).

Definition scored (query_lower : string) (p : product) : product :=
  with_score (score query_lower p) p.

Lemma scan_matching (query_lower : string) (products : list product) :
  (scan query_lower products).2
  = map (scored query_lower)
      (List.filter (fun p => (0 <? score query_lower p)%nat) products).
Proof.
  induction products as [|p rest IH]; [done|].
  cbn [scan List.filter]. fold (score query_lower p).
  destruct (scan query_lower rest) as [rest' matching].
  cbn [snd] in IH. rewrite IH.
  by destruct (0 <? score query_lower p)%nat.
Qed.

Definition descending : list product → Prop :=
  StronglySorted (fun a b => (sort_key b ≤ sort_key a)%nat).

Lemma insert_desc_perm (x : product) (l : list product) :
  insert_desc x l ≡ₚ x :: l.
Proof.
  induction l as [|y l IH]; [done|]. cbn [insert_desc].
  destruct (sort_key y <=? sort_key x)%nat; [done|].
  rewrite IH. apply Permutation_swap.
Qed.

Lemma sort_desc_perm (l : list product) : sort_desc l ≡ₚ l.
Proof.
  induction l as [|x l IH]; [done|].
  cbn [sort_desc foldr]. fold (sort_desc l).
  by rewrite insert_desc_perm, IH.
Qed.

Lemma insert_desc_sorted (x : product) (l : list product) :
  descending l → descending (insert_desc x l).
Proof.
  unfold descending. induction l as [|y l IH]; intros Hl.
  - repeat constructor.
  - apply StronglySorted_inv in Hl as [Hl Hy]. cbn [insert_desc].
    destruct (sort_key y <=? sort_key x)%nat eqn:E.
    + apply Nat.leb_le in E. constructor.
      * by constructor.
      * constructor; [done|].
        eapply Forall_impl; [exact Hy|]. intros z Hz. simpl in Hz. lia.
    + apply Nat.leb_gt in E. constructor; [by apply IH|].
      rewrite insert_desc_perm. constructor; [lia | done].
Qed.

Lemma sort_desc_sorted (l : list product) : descending (sort_desc l).
Proof.
  induction l as [|x l IH]; [constructor|].
  cbn [sort_desc foldr]. by apply insert_desc_sorted.
Qed.

Lemma descending_app (front back : list product) :
  descending (front ++ back) →
  descending front
  ∧ ∀ x y, x ∈ front → y ∈ back → (sort_key y ≤ sort_key x)%nat.
Proof.
  unfold descending. induction front as [|a front IH]; intros Hs.
  - split; [constructor|]. intros x y Hx. by apply elem_of_nil in Hx.
  - cbn [app] in Hs. apply StronglySorted_inv in Hs as [Hs Ha].
    destruct (IH Hs) as [Hfront Hle]. split.
    + constructor; [done|]. by apply Forall_app in Ha as [Ha _].
    + intros x y [->|Hx]%elem_of_cons Hy; [|by apply Hle].
      apply Forall_app in Ha as [_ Ha].
      by apply (proj1 (Forall_forall _ _) Ha).
Qed.

(** X22. [search_products] returns at most five products, each one a
    product of the catalogue in whose text at least one word of the
    lowered query occurs, with the number of such words as its relevance
    score, the larger scores first; a matching product that is left out
    scores no more than any of the five returned.  A query without words
    finds nothing. *)
Theorem search_products_best_five (query : string)
  (products_data : list product) :
  let found := (search_products query products_data).1 in
  (length found ≤ 5)%nat
  ∧ descending found
  ∧ (∀ x, x ∈ found →
       ∃ p, p ∈ products_data ∧ (0 < score (lower query) p)%nat
            ∧ x = scored (lower query) p
            ∧ sort_key x = score (lower query) p)
  ∧ (∀ p, p ∈ products_data → (0 < score (lower query) p)%nat →
       scored (lower query) p ∈ found
       ∨ (length found = 5
          ∧ ∀ x, x ∈ found → (score (lower query) p ≤ sort_key x)%nat))
  ∧ (split (lower query) = [] → found = []).
Proof.
  unfold search_products.
  pose proof (scan_matching (lower query) products_data) as Hscan.
  destruct (scan (lower query) products_data) as [data' matching].
  cbn [fst snd] in *.
  assert (Hin : ∀ x, x ∈ matching ↔
            ∃ p, p ∈ products_data ∧ (0 < score (lower query) p)%nat
                 ∧ x = scored (lower query) p).
  { intros x. rewrite Hscan, list_elem_of_fmap. split.
    - intros (p & -> & Hp%list_elem_of_In%filter_In).
      destruct Hp as [Hp Hpos%Nat.ltb_lt].
      exists p. by rewrite list_elem_of_In.
    - intros (p & Hp & Hpos & ->). exists p. split; [done|].
      apply list_elem_of_In, filter_In.
      by rewrite <- list_elem_of_In, Nat.ltb_lt. }
  pose proof (sort_desc_sorted matching) as Hsorted.
  pose proof (sort_desc_perm matching) as Hperm.
  rewrite <- (take_drop 5 (sort_desc matching)) in Hsorted, Hperm.
  destruct (descending_app _ _ Hsorted) as [Hfront Hle].
  split; [rewrite length_take; lia|]. split; [done|].
  split; [|split].
  - intros x Hx.
    assert (Hm : x ∈ matching).
    { rewrite <- Hperm. apply elem_of_app. by left. }
    apply Hin in Hm as (p & Hp & Hpos & ->). by exists p.
  - intros p Hp Hpos.
    assert (Hm : scored (lower query) p ∈ matching) by (apply Hin; eauto).
    rewrite <- Hperm in Hm. apply elem_of_app in Hm as [Hm|Hm];
      [by left|right].
    split.
    + rewrite length_take.
      assert (5 < length (sort_desc matching))%nat; [|lia].
      destruct (drop 5 (sort_desc matching)) eqn:E;
        [by apply elem_of_nil in Hm|].
      apply (f_equal length) in E. rewrite length_drop in E.
      simpl in E. lia.
    + intros x Hx. by apply (Hle x (scored (lower query) p)).
  - intros Hwords.
    assert (matching = []) as ->; [|done].
    rewrite Hscan. unfold score. rewrite Hwords.
    clear. by induction products_data.
Qed.

(** X23. [get_products_by_skus] returns the products of the catalogue
    whose SKU is among the codes asked for, in the order of the catalogue:
    neither the order of the codes nor a code given twice changes the
    result, and a product without SKU is never returned. *)
Theorem products_by_skus_in_catalogue_order (skus : list string)
  (products_data : list product) :
  sublist (get_products_by_skus skus products_data) products_data
  ∧ (∀ p, p ∈ get_products_by_skus skus products_data
          ↔ p ∈ products_data ∧ ∃ sku, SKU p = Some sku ∧ sku ∈ skus)
  ∧ (∀ skus', (∀ sku, sku ∈ skus ↔ sku ∈ skus') →
       get_products_by_skus skus' products_data
       = get_products_by_skus skus products_data).
Proof.
  unfold get_products_by_skus. split; [|split].
  - induction products_data as [|p rest IH]; [done|]. cbn [List.filter].
    destruct (SKU p) as [sku|]; [case_bool_decide|];
      by (apply sublist_skip || apply sublist_cons).
  - intros p. rewrite list_elem_of_In, filter_In, <- list_elem_of_In.
    split.
    + intros [Hp Hsku]. split; [done|].
      destruct (SKU p) as [sku|]; [|done].
      exists sku. split; [done|]. by apply bool_decide_eq_true in Hsku.
    + intros [Hp (sku & -> & Hsku)]. split; [done|].
      by apply bool_decide_eq_true.
  - intros skus' Hsame. apply filter_ext. intros p.
    destruct (SKU p) as [sku|]; [|done].
    apply bool_decide_ext. symmetry. apply Hsame.
Qed.

End ProductProps.

(** ** The Early Risers promotion *)

Module PromoProps.
Import PyStr Re ConversationMemory Coordinator EarlyRisers.

#[local] Set Warnings "-clear-no-such-hyp".

(** X24. A session has one promotion code: whatever the first call of
    [generate_promo_code] does, return a new code, return the code the
    session had, or raise because the codes could not be saved, the session
    has a code afterwards, and every later call returns that code and
    changes nothing, also when saving is impossible.  A new code is [EARLY],
    the date, and the first eight characters of the UUID in upper case. *)
Theorem one_code_per_session (r : readings) (a : t) :
  let first := generate_promo_code r a in
  ∃ code,
    promo_code <$> (promo_codes first.2 !! session_id first.2) = Some code
    ∧ session_id first.2 = session_id a
    ∧ match first.1 with
      | Some returned => returned = code
      | None => saved r = false ∧ promo_codes a !! session_id a = None
      end
    ∧ (∀ later, generate_promo_code later first.2 = (Some code, first.2))
    ∧ (promo_codes a !! session_id a = None →
       code = "EARLY" +:+ timestamp_date r +:+ upper (prefix 8 (uuid4 r))).
Proof.
  cbv zeta. unfold generate_promo_code.
  destruct (promo_codes a !! session_id a) as [stored|] eqn:E.
  - exists (promo_code stored). cbn [fst snd]. rewrite E.
    by repeat split.
  - exists ("EARLY" +:+ timestamp_date r +:+ upper (prefix 8 (uuid4 r))).
    destruct (saved r); cbn [fst snd session_id promo_codes];
      rewrite lookup_insert_eq; repeat split; try done;
      intros later; cbn [session_id promo_codes];
      by rewrite lookup_insert_eq.
Qed.

(** *** The code in the response *)

(** a promotion code as the coordinator reads it *)
Definition promo_shape (code : string) : Prop :=
  ∃ date unique_id,
    code = "EARLY" +:+ date +:+ unique_id
    ∧ date ≠ "" ∧ all_chars is_digit date = true
    ∧ unique_id ≠ ""
    ∧ all_chars (fun c => is_upper c || is_digit c) unique_id = true.

Lemma rep_stop (p : ascii → bool)
  (k : option ascii → string → option string) (n : nat)
  (prev : option ascii) (rest : string) :
  TextFacts.stops p rest →
  rep p k n prev rest
  = match n with O => k prev rest | S _ => None end.
Proof.
  destruct rest as [|c rest]; [done|]. cbn [TextFacts.stops rep].
  by intros ->.
Qed.

(** two repetitions in a row, the class of the first within the class of
    the second: the first gives back what the second needs *)
Section TwoRepetitions.

Variables p1 p2 : ascii → bool.
Hypothesis Hsub : ∀ c, p1 c = true → p2 c = true.
Variable rest : string.
Hypothesis Hstop : TextFacts.stops p2 rest.

Let second := rep p2 (match_here []) 1.

Lemma second_run (prev : option ascii) (u : string) :
  u ≠ "" → all_chars p2 u = true → second prev (u +:+ rest) = Some u.
Proof.
  intros Hne Hall. unfold second.
  rewrite (TextFacts.rep_run p2 (match_here []) u rest ""); try done.
  - by rewrite StrFacts.append_empty.
  - destruct u; [done | simpl; lia].
Qed.

Lemma second_none (prev : option ascii) : second prev rest = None.
Proof. unfold second. by rewrite rep_stop. Qed.

Lemma stops_first : TextFacts.stops p1 rest.
Proof.
  destruct rest as [|c s]; [done|]. cbn [TextFacts.stops] in *.
  destruct (p1 c) eqn:E; [|done]. apply Hsub in E. congruence.
Qed.

Lemma first_gives_back (u : string) :
  ∀ prev, u ≠ "" → all_chars p2 u = true →
          rep p1 second 0 prev (u +:+ rest) = Some u.
Proof.
  induction u as [|c u IH]; intros prev Hne Hall; [done|].
  pose proof (second_run prev (String c u) Hne Hall) as Hhere.
  cbn [all_chars] in Hall. apply andb_prop in Hall as [Hc Hall].
  change (String c u +:+ rest) with (String c (u +:+ rest)) in *.
  cbn [rep]. rewrite Hhere.
  destruct (p1 c); [|done]. cbn [Nat.pred].
  destruct u as [|d u].
  - change ("" +:+ rest) with rest.
    rewrite rep_stop by apply stops_first. by rewrite second_none.
  - by rewrite IH.
Qed.

Lemma two_repetitions (d u : string) :
  ∀ n prev,
    all_chars p1 d = true → (n ≤ String.length d)%nat →
    u ≠ "" → all_chars p2 u = true →
    rep p1 second n prev ((d +:+ u) +:+ rest) = Some (d +:+ u).
Proof.
  induction d as [|c d IH]; intros n prev Hd Hn Hne Hu.
  - simpl in Hn. assert (n = 0%nat) as -> by lia.
    change ("" +:+ u) with u. by apply first_gives_back.
  - cbn [all_chars] in Hd. apply andb_prop in Hd as [Hc Hd].
    change ((String c d +:+ u) +:+ rest)
      with (String c ((d +:+ u) +:+ rest)).
    change (String c d +:+ u) with (String c (d +:+ u)).
    cbn [rep]. rewrite Hc. rewrite IH; try done.
    simpl in Hn. lia.
Qed.

End TwoRepetitions.

Lemma promo_match (code rest : string) (prev : option ascii) :
  promo_shape code →
  match_here promo_pattern prev (code +:+ "**" +:+ rest) = Some code.
Proof.
  intros (date & unique_id & -> & Hdate & Hdigits & Hid & Hchars).
  rewrite !TextFacts.append_assoc.
  rewrite <- (TextFacts.append_assoc date unique_id).
  change (match_here promo_pattern prev
            ("EARLY" +:+ (date +:+ unique_id) +:+ "**" +:+ rest))
    with (cons_match "E" (cons_match "A" (cons_match "R" (cons_match "L"
            (cons_match "Y"
               (rep is_digit
                  (rep (fun c => is_upper c || is_digit c)
                     (match_here []) 1)
                  1 (Some "Y"%char)
                  ((date +:+ unique_id) +:+ "**" +:+ rest))))))).
  rewrite (two_repetitions is_digit (fun c => is_upper c || is_digit c));
    try done.
  - intros c Hc. by rewrite Hc, orb_true_r.
  - destruct date; [done | simpl; lia].
Qed.

Lemma response_text_code (clock code : string) :
  str_in "E" clock = false → promo_shape code →
  search promo_pattern (response_text clock code) = Some code.
Proof.
  intros Hclock Hshape. unfold response_text, search, promo_pattern.
  rewrite !TextFacts.append_assoc.
  rewrite CoordinatorProps.search_from_past_lit by reflexivity.
  rewrite CoordinatorProps.search_from_past_lit
    by (by apply CoordinatorProps.no_char).
  do 3 rewrite CoordinatorProps.search_from_past_lit by reflexivity.
  match goal with
  | |- search_from _ ?prev (?s +:+ ?X) = _ =>
      change (s +:+ X)
        with ("ğŸ‰ Here's your exclusive "
              +:+ String "E" ("arly Risers 10% discount code:" +:+ X))
  end.
  rewrite CoordinatorProps.search_from_past_lit by reflexivity.
  rewrite TextFacts.search_from_skip by reflexivity.
  do 4 rewrite CoordinatorProps.search_from_past_lit by reflexivity.
  apply TextFacts.search_from_here.
  by apply (promo_match code).
Qed.

(** a character of the first block of a UUID *)
Definition is_hex (c : ascii) : bool := is_digit c || in_range 97 102 c.

Lemma upper_hex (c : ascii) :
  is_hex c = true → is_upper (upper_char c) || is_digit (upper_char c) = true.
Proof.
  destruct c as [[] [] [] [] [] [] [] []]; vm_compute; congruence.
Qed.

Lemma new_code_shape (date uuid : string) :
  date ≠ "" → all_chars is_digit date = true →
  uuid ≠ "" → all_chars is_hex (prefix 8 uuid) = true →
  promo_shape ("EARLY" +:+ date +:+ upper (prefix 8 uuid)).
Proof.
  intros Hdate Hdigits Huuid Hhex. exists date, (upper (prefix 8 uuid)).
  split; [done|]. split; [done|]. split; [done|]. split.
  - by destruct uuid.
  - revert Hhex. generalize (prefix 8 uuid) as s. unfold upper.
    induction s as [|c s IH]; [done|]. cbn [all_chars map_chars].
    intros [Hc Hs]%andb_prop. by rewrite (upper_hex c Hc), IH.
Qed.

Lemma response_text_shows_code (clock code : string) :
  str_in ("**" +:+ code +:+ "**") (response_text clock code) = true.
Proof.
  unfold response_text.
  do 2 apply StrFacts.str_in_app_r. apply TextFacts.str_in_app_left.
  apply TextFacts.str_in_spec. exists "", (nl +:+ nl).
  by rewrite !TextFacts.append_assoc.
Qed.

Lemma content_reply_with (name text : string) :
  OrderStatus.content (reply_with name text) = text.
Proof. done. Qed.

(** X25. Between 7 and 10 o'clock a request gets the session's code:
    when [generate_promo_code] returns a code, the response shows it
    between double asterisks and the session has it afterwards; when the
    code is [EARLY], digits, and capital letters or digits, and the clock
    text in the response has no [E], the coordinator keeps exactly that
    code as [promo_code].  A new code has this shape when the date is made
    of digits and the UUID begins with hexadecimal digits. *)
Theorem promotion_code_kept (name : string) (r : readings)
  (message : OrderStatus.Message) (a : t) (code : string)
  (entities : list (string * value)) :
  (7 ≤ checked_hour r < 10)%nat →
  (generate_promo_code r a).1 = Some code →
  let result := process name r message a in
  OrderStatus.content result.1 = response_text (shown_clock r) code
  ∧ str_in ("**" +:+ code +:+ "**") (OrderStatus.content result.1) = true
  ∧ promo_code <$> (promo_codes result.2 !! session_id result.2)
    = Some code
  ∧ (promo_shape code → str_in "E" (shown_clock r) = false →
     _extract_key_info_from_response EARLY_RISERS_PROMOTION result.1
       entities !! "promo_code" = Some (VStr code))
  ∧ (promo_codes a !! session_id a = None →
     timestamp_date r ≠ "" → all_chars is_digit (timestamp_date r) = true →
     uuid4 r ≠ "" → all_chars is_hex (prefix 8 (uuid4 r)) = true →
     promo_shape code).
Proof.
  intros Hhour Hcode result.
  assert (Hwindow : is_early_risers_time (checked_hour r) = true).
  { unfold is_early_risers_time.
    apply andb_true_intro. split; [apply Nat.leb_le | apply Nat.ltb_lt]; lia. }
  assert (Hresult :
    result = (reply_with name (response_text (shown_clock r) code),
              (generate_promo_code r a).2)).
  { subst result. unfold process. rewrite Hwindow. cbn [negb].
    destruct (generate_promo_code r a) as [[c|] a'];
      cbn [fst snd] in *; congruence. }
  rewrite Hresult. cbn [fst snd]. rewrite !content_reply_with.
  split; [done|]. split; [apply response_text_shows_code|].
  split; [|split].
  - revert Hcode. unfold generate_promo_code.
    destruct (promo_codes a !! session_id a) as [stored|] eqn:E.
    + cbn [fst snd]. intros [= <-]. by rewrite E.
    + destruct (saved r); [|done].
      cbn [fst snd session_id promo_codes]. intros [= <-].
      by rewrite lookup_insert_eq.
  - intros Hshape Hclock. unfold _extract_key_info_from_response.
    rewrite content_reply_with.
    rewrite (response_text_code _ _ Hclock Hshape).
    destruct entities; by simplify_map_eq.
  - intros Hnew Hdate Hdigits Huuid Hhex.
    revert Hcode. unfold generate_promo_code. rewrite Hnew.
    destruct (saved r); [|done]. cbn [fst]. intros [= <-].
    by apply new_code_shape.
Qed.

Definition morning : readings :=
  {| checked_hour := 7; shown_hour := 7; shown_minute := 5;
     shown_clock := "07:05 AM"; timestamp_date := "20250301";
     uuid4 := "3f2a9c1b-7d4e-4c1a-9b0e-5a6f7c8d9e0f";
     generated := "2025-03-01T07:05:00"; saved := true |}.

Definition new_session : t := {| session_id := "s1"; promo_codes := ∅ |}.

Definition promo_request : OrderStatus.Message :=
  {| OrderStatus.content := "Any early bird deals?";
     OrderStatus.sender := "AdventureOutfittersAgent";
     OrderStatus.recipient := "EarlyRisersPromotionAgent";
     OrderStatus.metadata := [] |}.

Lemma promotion_code_kept_witness :
  _extract_key_info_from_response EARLY_RISERS_PROMOTION
    (process "EarlyRisersPromotionAgent" morning promo_request
       new_session).1 []
  !! "promo_code" = Some (VStr "EARLY202503013F2A9C1B").
Proof.
  destruct (promotion_code_kept "EarlyRisersPromotionAgent" morning
              promo_request new_session "EARLY202503013F2A9C1B" [])
    as (_ & _ & _ & Hkept & Hshape).
  - simpl. lia.
  - reflexivity.
  - apply Hkept; [|reflexivity].
    apply Hshape; (reflexivity || discriminate).
Defined.

(** *** The responses without a code *)

Lemma uint_digits (d : Decimal.uint) :
  all_chars is_digit (NilEmpty.string_of_uint d) = true.
Proof. induction d; done. Qed.

Lemma two_digits_digits (n : nat) : all_chars is_digit (two_digits n) = true.
Proof.
  unfold two_digits. destruct (_ <? _)%nat; [|apply uint_digits].
  change ("0" +:+ ?s) with (String "0" s). cbn [all_chars].
  by rewrite uint_digits.
Qed.

Lemma no_letter_in_digits (a : ascii) (s : string) :
  is_digit a = false → all_chars is_digit s = true →
  str_in (String a "") s = false.
Proof.
  intros Ha. induction s as [|c s IH]; [done|]. cbn [all_chars].
  intros [Hc Hs]%andb_prop. rewrite StrFacts.str_in_unfold, IH by done.
  cbn [startswith]. destruct (Ascii.eqb a c) eqn:E; [|done].
  apply Ascii.eqb_eq in E as ->. congruence.
Qed.

Lemma promo_pattern_has_y (prev : option ascii) (s m : string) :
  match_here promo_pattern prev s = Some m → str_in "Y" m = true.
Proof.
  unfold promo_pattern.
  intros (s1 & t1 & -> & -> & H1)%StrFacts.lit_sound.
  apply StrFacts.lit_sound in H1 as (s2 & t2 & -> & -> & H2).
  apply StrFacts.lit_sound in H2 as (s3 & t3 & -> & -> & H3).
  apply StrFacts.lit_sound in H3 as (s4 & t4 & -> & -> & H4).
  apply StrFacts.lit_sound in H4 as (s5 & t5 & -> & -> & H5).
  reflexivity.
Qed.

Lemma no_code_without_y (text : string) :
  str_in "Y" text = false → search promo_pattern text = None.
Proof.
  intros Hy. destruct (search promo_pattern text) as [m|] eqn:E; [|done].
  assert (str_in "Y" text = true); [|congruence].
  apply (TextFacts.str_in_trans "Y" m text).
  - revert E. unfold search.
    apply (StrFacts.search_from_sound promo_pattern
             (fun m => str_in "Y" m = true)).
    apply promo_pattern_has_y.
  - by apply TextFacts.search_occurs in E.
Qed.

Lemma time_msg_no_code (current_hour minute : nat) :
  search promo_pattern (time_msg current_hour minute) = None.
Proof.
  apply no_code_without_y. unfold time_msg.
  rewrite !CoordinatorProps.char_in_app.
  rewrite !(no_letter_in_digits "Y" (two_digits _))
    by (done || apply two_digits_digits).
  reflexivity.
Qed.

(** X26. Before 7 and from 10 o'clock on a request is refused: the
    response tells the time read, with two digits for the hour and for the
    minute, and no code is generated or stored.  When the codes cannot be
    saved the response is the apology, but the session has its new code,
    and the next request in the window gets it.  In both cases the
    coordinator keeps no [promo_code] of the response. *)
Theorem no_code_outside_window (name : string) (r : readings)
  (message : OrderStatus.Message) (a : t)
  (entities : list (string * value)) :
  let result := process name r message a in
  ((checked_hour r < 7 ∨ 10 ≤ checked_hour r)%nat →
   OrderStatus.content result.1
   = time_msg (shown_hour r) (shown_minute r)
   ∧ str_in (two_digits (shown_hour r) +:+ ":"
             +:+ two_digits (shown_minute r))
       (OrderStatus.content result.1) = true
   ∧ result.2 = a
   ∧ _extract_key_info_from_response EARLY_RISERS_PROMOTION result.1
       entities !! "promo_code" = None)
  ∧ ((7 ≤ checked_hour r < 10)%nat →
     promo_codes a !! session_id a = None → saved r = false →
     OrderStatus.content result.1 = error_msg
     ∧ _extract_key_info_from_response EARLY_RISERS_PROMOTION result.1
         entities !! "promo_code" = None
     ∧ ∀ later,
         (generate_promo_code later result.2).1
         = Some ("EARLY" +:+ timestamp_date r
                 +:+ upper (prefix 8 (uuid4 r)))).
Proof.
  intros result. split.
  - intros Hhour.
    assert (Hwindow : is_early_risers_time (checked_hour r) = false).
    { unfold is_early_risers_time. apply andb_false_iff.
      destruct Hhour; [left; apply Nat.leb_gt | right; apply Nat.ltb_ge];
        lia. }
    subst result. unfold process. rewrite Hwindow.
    cbn [negb fst snd]. rewrite !content_reply_with.
    split; [done|]. split; [|split; [done|]].
    + unfold time_msg. do 2 apply StrFacts.str_in_app_r.
      apply TextFacts.str_in_spec. eexists "", _.
      by rewrite !TextFacts.append_assoc.
    + unfold _extract_key_info_from_response. rewrite content_reply_with.
      rewrite time_msg_no_code. destruct entities; by simplify_map_eq.
  - intros Hhour Hnew Hsave.
    assert (Hwindow : is_early_risers_time (checked_hour r) = true).
    { unfold is_early_risers_time. apply andb_true_intro.
      split; [apply Nat.leb_le | apply Nat.ltb_lt]; lia. }
    subst result. unfold process, generate_promo_code.
    rewrite Hwindow, Hnew, Hsave.
    cbn [negb fst snd session_id promo_codes].
    rewrite !content_reply_with.
    split; [done|]. split.
    + unfold _extract_key_info_from_response. rewrite content_reply_with.
      rewrite (no_code_without_y error_msg) by reflexivity.
      destruct entities; by simplify_map_eq.
    + intros later. by rewrite lookup_insert_eq.
Qed.

End PromoProps.
